(** * LiraX resilient request layer: a shallow embedding and its properties

    The development follows the TypeScript sources of n8n-nodes-lirax:
    - [shared/LiraX.utils]   : ThrottlingManager, CircuitBreakerFactory,
                               normalizePhoneDigits, isRetryableError,
                               liraxRequest, CircuitBreaker;
    - [core/LiraXErrorHandler], [core/cache/ICacheProvider], [core/LiraXCore];
    - [nodes/LiraX/LiraX.node]: executeMessagingOperation.

    JavaScript values are modelled by a small inductive type, [Date.now()] by
    a clock read from an explicit world, [Map]s by stdpp's [gmap], thrown
    errors by an [Outcome] sum, awaited calls by a state-and-error monad, and
    the interleaving of the calls of [throttle] by a step function on the
    state of the manager. The models come first, the properties after. *)

From Stdlib Require Import ZArith QArith Qround Lia Lqa String Ascii List Bool.
From stdpp Require Import gmap strings list pretty.
Import ListNotations.

Set Warnings "-register-all".

Local Open Scope Z_scope.
Local Open Scope string_scope.

(** ** JavaScript values *)

Module JS.

(** JSON-like values. Numbers are the integers the modelled code handles
    (HTTP codes, timestamps in ms, counters). Objects keep their fields in
    insertion order. *)
Inductive JSValue : Type :=
| JUndefined
| JNull
| JBool (b : bool)
| JNum (n : Z)
| JStr (s : string)
| JArr (items : list JSValue)
| JObj (fields : list (string * JSValue)).

(** ToBoolean. *)
Definition truthy (v : JSValue) : bool :=
  match v with
  | JUndefined | JNull => false
  | JBool b => b
  | JNum n => negb (n =? 0)%Z
  | JStr s => negb (String.eqb s "")
  | JArr _ | JObj _ => true
  end.

(** [String.prototype.includes]. *)
Fixpoint includes (s sub : string) : bool :=
  if String.prefix sub s then true
  else match s with
       | EmptyString => false
       | String _ rest => includes rest sub
       end.

(** [String.prototype.startsWith]. *)
Definition startsWith (s pre : string) : bool := String.prefix pre s.

(** [s.repeat(n)] for a one-character string. *)
Fixpoint repeatChar (c : ascii) (n : nat) : string :=
  match n with
  | O => EmptyString
  | S k => String c (repeatChar c k)
  end.

(** The result of running a piece of code that may throw. *)
Inductive Outcome (T E : Type) : Type :=
| Ok (v : T)
| Throw (e : E).
Arguments Ok {T E} v.
Arguments Throw {T E} e.

Definition isOk {T E} (o : Outcome T E) : bool :=
  match o with Ok _ => true | Throw _ => false end.

Definition isThrow {T E} (o : Outcome T E) : bool := negb (isOk o).

(** Code that reads and changes a state [S] and may throw: [await]ed calls
    made one after the other. *)
Definition M (S E A : Type) : Type := S -> Outcome A E * S.

Definition ret {S E A} (a : A) : M S E A := fun s => (Ok a, s).

Definition throw {S E A} (e : E) : M S E A := fun s => (Throw e, s).

Definition bind {S E A B} (m : M S E A) (k : A -> M S E B) : M S E B :=
  fun s => match m s with
           | (Ok a, s') => k a s'
           | (Throw e, s') => (Throw e, s')
           end.

(** [try { m } catch (e) { h e }]. *)
Definition tryCatch {S E A} (m : M S E A) (h : E -> M S E A) : M S E A :=
  fun s => match m s with
           | (Ok a, s') => (Ok a, s')
           | (Throw e, s') => h e s'
           end.

Definition getState {S E} : M S E S := fun s => (Ok s, s).

Definition modify {S E} (f : S -> S) : M S E unit := fun s => (Ok tt, f s).

(** Object fields: [o[k]], [o[k] = v], [delete o[k]], [k in o]. *)
Fixpoint objGet (fields : list (string * JSValue)) (k : string) : JSValue :=
  match fields with
  | [] => JUndefined
  | (k', v) :: rest => if String.eqb k' k then v else objGet rest k
  end.

Fixpoint objHas (fields : list (string * JSValue)) (k : string) : bool :=
  match fields with
  | [] => false
  | (k', _) :: rest => String.eqb k' k || objHas rest k
  end.

Fixpoint objSet (fields : list (string * JSValue)) (k : string) (v : JSValue)
  : list (string * JSValue) :=
  match fields with
  | [] => [(k, v)]
  | (k', v') :: rest =>
      if String.eqb k' k then (k', v) :: rest else (k', v') :: objSet rest k v
  end.

Definition objDelete (fields : list (string * JSValue)) (k : string)
  : list (string * JSValue) :=
  List.filter (fun kv => negb (String.eqb (fst kv) k)) fields.

(** [v?.[k]]: a property read that answers [undefined] off a non-object. *)
Definition prop (v : JSValue) (k : string) : JSValue :=
  match v with
  | JObj fields => objGet fields k
  | _ => JUndefined
  end.

(** [a || b]. *)
Definition orElse (a b : JSValue) : JSValue := if truthy a then a else b.

(** [a === b] on the primitives the code compares. *)
Definition strictEqNum (v : JSValue) (n : Z) : bool :=
  match v with JNum m => (m =? n)%Z | _ => false end.

Definition strictEqStr (v : JSValue) (s : string) : bool :=
  match v with JStr t => String.eqb t s | _ => false end.

(** Decimal digits of an integer, as [String(n)] prints them. *)
Definition numToString (n : Z) : string := pretty n.

Definition join (sep : string) (parts : list string) : string :=
  String.concat sep parts.

(** [String(v)]. *)
Fixpoint toStringJS (v : JSValue) : string :=
  match v with
  | JUndefined => "undefined"
  | JNull => "null"
  | JBool true => "true"
  | JBool false => "false"
  | JNum n => numToString n
  | JStr s => s
  | JArr items =>
      join ","
        ((fix each (l : list JSValue) : list string :=
            match l with
            | [] => []
            | JUndefined :: r | JNull :: r => "" :: each r
            | x :: r => toStringJS x :: each r
            end) items)
  | JObj _ => "[object Object]"
  end.

(** ToNumber on the values compared with [>=] and [<]; [None] is NaN. A
    string counts when it is a run of decimal digits. *)
Fixpoint digitsValue (s : string) (acc : Z) : option Z :=
  match s with
  | EmptyString => Some acc
  | String c rest =>
      let n := Z.of_nat (nat_of_ascii c) in
      if (48 <=? n)%Z && (n <=? 57)%Z then digitsValue rest (10 * acc + (n - 48))
      else None
  end.

Definition toNumber (v : JSValue) : option Z :=
  match v with
  | JNum n => Some n
  | JBool b => Some (if b then 1 else 0)
  | JNull => Some 0
  | JStr s => digitsValue s 0
  | _ => None
  end.

Definition geNum (v : JSValue) (n : Z) : bool :=
  match toNumber v with Some m => (m >=? n)%Z | None => false end.

Definition ltNum (v : JSValue) (n : Z) : bool :=
  match toNumber v with Some m => (m <? n)%Z | None => false end.

(** The last [n] characters: [s.slice(-n)]. *)
Definition sliceLast (n : nat) (s : string) : string :=
  String.substring (String.length s - n) n s.

Definition hexDigit (n : nat) : ascii :=
  ascii_of_nat (if (n <? 10)%nat then 48 + n else 87 + n).

Definition backslash : ascii := ascii_of_nat 92.

(** One character of a JSON string literal. *)
Definition jsonEscapeChar (c : ascii) : string :=
  let n := nat_of_ascii c in
  if (n =? 34)%nat then String backslash (String c EmptyString)
  else if (n =? 92)%nat then String backslash (String c EmptyString)
  else if (n =? 8)%nat then String backslash "b"
  else if (n =? 9)%nat then String backslash "t"
  else if (n =? 10)%nat then String backslash "n"
  else if (n =? 12)%nat then String backslash "f"
  else if (n =? 13)%nat then String backslash "r"
  else if (n <? 32)%nat then
    String backslash
      ("u00" ++ String (hexDigit (n / 16)) (String (hexDigit (n mod 16)) EmptyString))
  else String c EmptyString.

Fixpoint jsonEscape (s : string) : string :=
  match s with
  | EmptyString => EmptyString
  | String c rest => jsonEscapeChar c ++ jsonEscape rest
  end.

Definition jsonQuote (s : string) : string :=
  String (ascii_of_nat 34) (jsonEscape s ++ String (ascii_of_nat 34) EmptyString).

Definition newline : string := String (ascii_of_nat 10) EmptyString.

(** A text between double quotes. *)
Definition quoted (s : string) : string :=
  String (ascii_of_nat 34) (s ++ String (ascii_of_nat 34) EmptyString).

(** [JSON.stringify(v, null, 2)] at nesting indentation [ind]; [None] is the
    [undefined] it answers for [undefined]. *)
Fixpoint jsonPretty (ind : string) (v : JSValue) {struct v} : option string :=
  match v with
  | JUndefined => None
  | JNull => Some "null"
  | JBool true => Some "true"
  | JBool false => Some "false"
  | JNum n => Some (numToString n)
  | JStr s => Some (jsonQuote s)
  | JArr items =>
      let inner := ind ++ "  " in
      let parts :=
        (fix each (l : list JSValue) : list string :=
           match l with
           | [] => []
           | x :: r =>
               (inner ++ match jsonPretty inner x with Some t => t | None => "null" end)
                 :: each r
           end) items in
      Some (match parts with
            | [] => "[]"
            | _ => "[" ++ newline ++ join ("," ++ newline) parts ++ newline ++ ind ++ "]"
            end)
  | JObj fields =>
      let inner := ind ++ "  " in
      let parts :=
        (fix each (l : list (string * JSValue)) : list string :=
           match l with
           | [] => []
           | (k, x) :: r =>
               match jsonPretty inner x with
               | Some t => (inner ++ jsonQuote k ++ ": " ++ t) :: each r
               | None => each r
               end
           end) fields in
      Some (match parts with
            | [] => "{}"
            | _ => "{" ++ newline ++ join ("," ++ newline) parts ++ newline ++ ind ++ "}"
            end)
  end.

(** [JSON.stringify(v, null, 2)] used in a template or pushed on a list of
    lines. *)
Definition jsonStringify2 (v : JSValue) : string :=
  match jsonPretty "" v with Some t => t | None => "undefined" end.

End JS.
Export JS.

Declare Scope js_scope.
Delimit Scope js_scope with js.
Notation "'let!' x ':=' m 'in' k" := (bind m (fun x => k))
  (at level 10, x name, m at level 100, k at level 200) : js_scope.
Notation "'do!' m 'in' k" := (bind m (fun _ => k))
  (at level 10, m at level 100, k at level 200) : js_scope.

(** ** Phone normalisation ([normalizePhoneDigits]) *)

Module Phone.

(** The class [\d]: the ten ASCII digits. *)
Definition isDigit (c : ascii) : bool :=
  let n := nat_of_ascii c in (48 <=? n)%nat && (n <=? 57)%nat.

(** [s.replace(/\D+/g, '')]: every maximal run of non-digits is deleted, so
    exactly the digits remain, in order. A character outside ASCII is one or
    more units none of which is a digit, in UTF-16 as in UTF-8. *)
Fixpoint stripNonDigits (s : string) : string :=
  match s with
  | EmptyString => EmptyString
  | String c rest =>
      if isDigit c then String c (stripNonDigits rest) else stripNonDigits rest
  end.

(** [normalizePhoneDigits]: the argument is declared a string, and the guard
    [!phone || typeof phone !== 'string'] answers [''] for anything else. *)
Definition normalizePhoneDigits (phone : JSValue) : string :=
  match phone with
  | JStr s => if negb (truthy (JStr s)) then "" else stripNonDigits s
  | _ => ""
  end.

Fixpoint allDigits (s : string) : bool :=
  match s with
  | EmptyString => true
  | String c rest => isDigit c && allDigits rest
  end.

Definition isString (v : JSValue) : bool :=
  match v with JStr _ => true | _ => false end.

End Phone.

(** ** CircuitBreaker *)

Module Breaker.

Inductive BState : Type := CLOSED | OPEN | HALF_OPEN.

Definition BState_eqb (a b : BState) : bool :=
  match a, b with
  | CLOSED, CLOSED | OPEN, OPEN | HALF_OPEN, HALF_OPEN => true
  | _, _ => false
  end.

(** The fields of the class, mutable and readonly alike. *)
Record CircuitBreaker : Type := mkBreaker {
  state : BState;
  failures : Z;
  lastFailureTime : Z;
  failureThreshold : Z;
  resetTimeout : Z;
  halfOpenMaxAttempts : Z;
  halfOpenAttempts : Z;
  successCount : Z
}.

Definition CIRCUIT_BREAKER_RESET_TIMEOUT_MS : Z := 60000.

(** [new CircuitBreaker(failureThreshold, resetTimeout, halfOpenMaxAttempts)]. *)
Definition newCircuitBreaker (ft rt hm : Z) : CircuitBreaker :=
  {| state := CLOSED; failures := 0; lastFailureTime := 0;
     failureThreshold := ft; resetTimeout := rt; halfOpenMaxAttempts := hm;
     halfOpenAttempts := 0; successCount := 0 |}.

(** [new CircuitBreaker()]. *)
Definition defaultCircuitBreaker : CircuitBreaker :=
  newCircuitBreaker 5 CIRCUIT_BREAKER_RESET_TIMEOUT_MS 3.

Definition openMessage : string :=
  "Circuit breaker is OPEN. Requests to LiraX API are temporarily blocked due to repeated failures.".

Definition exceededMessage : string :=
  "Circuit breaker half-open attempts exceeded. Going back to OPEN state.".

(** The OPEN to HALF_OPEN transition taken at the head of [execute]. *)
Definition toHalfOpen (b : CircuitBreaker) : CircuitBreaker :=
  {| state := HALF_OPEN; failures := failures b;
     lastFailureTime := lastFailureTime b;
     failureThreshold := failureThreshold b; resetTimeout := resetTimeout b;
     halfOpenMaxAttempts := halfOpenMaxAttempts b;
     halfOpenAttempts := 0; successCount := 0 |}.

(** The reopening taken when the probe budget is used up. *)
Definition reopen (b : CircuitBreaker) (t : Z) : CircuitBreaker :=
  {| state := OPEN; failures := failures b; lastFailureTime := t;
     failureThreshold := failureThreshold b; resetTimeout := resetTimeout b;
     halfOpenMaxAttempts := halfOpenMaxAttempts b;
     halfOpenAttempts := halfOpenAttempts b; successCount := successCount b |}.

(** [onSuccess]. *)
Definition onSuccess (b : CircuitBreaker) : CircuitBreaker :=
  let sc := successCount b + 1 in
  if BState_eqb (state b) HALF_OPEN && (sc >=? 3) then
    {| state := CLOSED; failures := 0; lastFailureTime := lastFailureTime b;
       failureThreshold := failureThreshold b; resetTimeout := resetTimeout b;
       halfOpenMaxAttempts := halfOpenMaxAttempts b;
       halfOpenAttempts := 0; successCount := 0 |}
  else if BState_eqb (state b) HALF_OPEN then
    {| state := HALF_OPEN; failures := 0; lastFailureTime := lastFailureTime b;
       failureThreshold := failureThreshold b; resetTimeout := resetTimeout b;
       halfOpenMaxAttempts := halfOpenMaxAttempts b;
       halfOpenAttempts := 0 + 1; successCount := sc |}
  else
    {| state := state b; failures := 0; lastFailureTime := lastFailureTime b;
       failureThreshold := failureThreshold b; resetTimeout := resetTimeout b;
       halfOpenMaxAttempts := halfOpenMaxAttempts b;
       halfOpenAttempts := 0; successCount := sc |}.

(** [onFailure], with the value [Date.now()] has when it runs. *)
Definition onFailure (b : CircuitBreaker) (t : Z) : CircuitBreaker :=
  let f := failures b + 1 in
  let trip := BState_eqb (state b) HALF_OPEN || (f >=? failureThreshold b) in
  {| state := if trip then OPEN else state b;
     failures := f;
     lastFailureTime := if trip then t else lastFailureTime b;
     failureThreshold := failureThreshold b; resetTimeout := resetTimeout b;
     halfOpenMaxAttempts := halfOpenMaxAttempts b;
     halfOpenAttempts := halfOpenAttempts b + 1; successCount := 0 |}.

(** What the synchronous head of [execute] decides at time [t]. *)
Inductive Entry : Type :=
| Entered (b : CircuitBreaker)
| Rejected (b : CircuitBreaker) (message : string).

Definition enter (b : CircuitBreaker) (t : Z) : Entry :=
  let passed :=
    if BState_eqb (state b) OPEN then
      if t - lastFailureTime b >? resetTimeout b then Some (toHalfOpen b)
      else None
    else Some b in
  match passed with
  | None => Rejected b openMessage
  | Some b1 =>
      if BState_eqb (state b1) HALF_OPEN
         && (halfOpenAttempts b1 >=? halfOpenMaxAttempts b1)
      then Rejected (reopen b1 t) exceededMessage
      else Entered b1
  end.

(** The breaker after [k] failures in a row, below the threshold. *)
Definition counting (ft rt hm k : Z) : CircuitBreaker :=
  {| state := CLOSED; failures := k; lastFailureTime := 0;
     failureThreshold := ft; resetTimeout := rt; halfOpenMaxAttempts := hm;
     halfOpenAttempts := k; successCount := 0 |}.

(** The breaker tripped by the [ft]-th failure in a row, at time [t]. *)
Definition tripped (ft rt hm t : Z) : CircuitBreaker :=
  {| state := OPEN; failures := ft; lastFailureTime := t;
     failureThreshold := ft; resetTimeout := rt; halfOpenMaxAttempts := hm;
     halfOpenAttempts := ft; successCount := 0 |}.

(** A probing breaker: HALF_OPEN with [sc] successes and [a] attempts. *)
Definition probing (f ft rt hm t a sc : Z) : CircuitBreaker :=
  {| state := HALF_OPEN; failures := f; lastFailureTime := t;
     failureThreshold := ft; resetTimeout := rt; halfOpenMaxAttempts := hm;
     halfOpenAttempts := a; successCount := sc |}.

Section Execute.

(** The world the operation runs in, and the clock [Date.now()] reads. *)
Context {W T E : Type}.
Variable now : W -> Z.
(** [new Error(message)] in the error type of the operation. *)
Variable mkError : string -> E.

Definition Operation : Type := W -> Outcome T E * W.

(** The tail of [execute]: the operation has run in [execute]'s [try]. *)
Definition settle (b : CircuitBreaker) (r : Outcome T E * W)
  : Outcome T E * CircuitBreaker * W :=
  match r with
  | (Ok v, w') => (Ok v, onSuccess b, w')
  | (Throw e, w') => (Throw e, onFailure b (now w'), w')
  end.

(** [execute(operation)]. *)
Definition execute (b : CircuitBreaker) (op : Operation) (w : W)
  : Outcome T E * CircuitBreaker * W :=
  match enter b (now w) with
  | Rejected b' msg => (Throw (mkError msg), b', w)
  | Entered b1 => settle b1 (op w)
  end.

(** A call: the operation handed to [execute] and the world it is made in. *)
Definition Call : Type := (Operation * W)%type.

Definition breakerAfter (b : CircuitBreaker) (c : Call) : CircuitBreaker :=
  snd (fst (execute b (fst c) (snd c))).

(** A run of calls made one after the other on one breaker. *)
Definition executeSeq (b : CircuitBreaker) (calls : list Call) : CircuitBreaker :=
  fold_left breakerAfter calls b.

Definition throws (c : Call) : Prop := isThrow (fst (fst c (snd c))) = true.
Definition succeeds (c : Call) : Prop := isOk (fst (fst c (snd c))) = true.

(** The clock when the operation of a call has finished. *)
Definition finishTime (c : Call) : Z := now (snd (fst c (snd c))).

End Execute.

End Breaker.

(** ** Thrown values and the error handler ([LiraXErrorHandler]) *)

Module Errors.

(** A thrown value: an [Error] with its message and the extra properties
    the code reads off it ([code], [httpCode], [response], [errors]), or the
    [NodeApiError] of n8n-workflow built over a cause with the message and
    description the handler passes. *)
Inductive JsError : Type :=
| ErrorObj (message : string) (props : list (string * JSValue))
| NodeApiError (cause : option JsError) (message description : string).

(** [new Error(message)]. *)
Definition newError (message : string) : JsError := ErrorObj message [].

Definition errMessage (e : JsError) : string :=
  match e with
  | ErrorObj m _ => m
  | NodeApiError _ m _ => m
  end.

Definition errDescription (e : JsError) : string :=
  match e with
  | ErrorObj _ _ => ""
  | NodeApiError _ _ d => d
  end.

(** The context record handed to the handler. The [node] is opaque to the
    handler and only stored in the result, so it is left out. *)
Record ErrorContext : Type := mkContext {
  ctx_operation : string;
  ctx_payload : option (list (string * JSValue));
  ctx_message : option string;
  ctx_resource : option string
}.

(** [context.payload ? { ...context.payload } : {}]. *)
Definition payloadOf (context : ErrorContext) : list (string * JSValue) :=
  match ctx_payload context with Some p => p | None => [] end.

(** The [details] object of the handler. *)
Record Details : Type := mkDetails {
  d_operation : JSValue;
  d_resource : JSValue;
  d_timestamp : JSValue;
  d_requestPayload : JSValue;
  d_httpCode : JSValue;
  d_responseBody : JSValue;
  d_errorCode : JSValue
}.

(** The mask both [maskSensitiveData] functions write over a value. *)
Definition maskString (value : string) : string :=
  let n := String.length value in
  if (4 <? n)%nat then (repeatChar "*" (n - 4) ++ sliceLast 4 value)%string
  else "****".

Definition masked (v : JSValue) : JSValue := JStr (maskString (toStringJS v)).

(** One turn of the [forEach] over the sensitive fields. *)
Definition maskField (payload : list (string * JSValue)) (field : string)
  : list (string * JSValue) :=
  if truthy (objGet payload field)
  then objSet payload field (masked (objGet payload field))
  else payload.

(** The field list of [LiraXErrorHandler.maskSensitiveData]. *)
Definition sensitiveFields : list string :=
  ["token"; "phone"; "ani"; "dnis"; "to"; "to1"; "to2";
   "provider"; "ext"; "newext"; "client"; "from_LiraX_token"].

(** [LiraXErrorHandler.maskSensitiveData]. *)
Definition maskSensitiveData (payload : list (string * JSValue))
  : list (string * JSValue) :=
  fold_left maskField sensitiveFields payload.

(** The field list of the exported [maskSensitiveData] of LiraX.utils. *)
Definition utilsSensitiveFields : list string :=
  ["token"; "phone"; "ani"; "dnis"; "to"; "to1"; "to2"; "email"; "password"].

(** [maskSensitiveData] of LiraX.utils. *)
Definition utilsMaskSensitiveData (data : list (string * JSValue))
  : list (string * JSValue) :=
  fold_left maskField utilsSensitiveFields data.

(** [path.join('.')] on the path of a validation issue (an array). *)
Definition dotPath (path : JSValue) : string :=
  match path with
  | JArr items =>
      join "." (List.map (fun x => match x with
                                   | JUndefined | JNull => ""
                                   | _ => toStringJS x
                                   end) items)
  | _ => ""
  end.

Definition failed (operation rest : string) : string :=
  ("Operation '" ++ operation ++ "' failed: " ++ rest)%string.

(** The message the handler gives an HTTP 400: its validation error. *)
Definition validationMessage (operation : string) : string :=
  failed operation "Invalid parameters sent to LiraX. Check node inputs and validation.".

Definition isValidationError (operation : string) (e : JsError) : bool :=
  String.eqb (errMessage e) (validationMessage operation).

Section Handler.

(** What a [NodeApiError] answers for a property other than its message and
    description: decided by n8n-workflow, not by this repository. *)
Variable nodeApiProp : JsError -> string -> JSValue.

(** [JSON.parse], [None] when it throws. *)
Variable JSON_parse : string -> option JSValue.

(** [(error as any)[k]]. *)
Definition errProp (e : JsError) (k : string) : JSValue :=
  match e with
  | ErrorObj _ props => objGet props k
  | NodeApiError _ _ _ => nodeApiProp e k
  end.

Definition messageIncludes (e : JsError) (sub : string) : bool :=
  includes (errMessage e) sub.

(** [generateUserFriendlyMessage]. *)
Definition generateUserFriendlyMessage (error : JsError) (operation : string)
  (httpCode : JSValue) : string :=
  if strictEqNum httpCode 401 then
    failed operation "Invalid LiraX API Token. Check your credentials."
  else if strictEqNum httpCode 400 then
    validationMessage operation
  else if strictEqNum httpCode 403 then
    if messageIncludes error "modem busy"
    then failed operation "LiraX modem is busy. Please try again later."
    else failed operation "Access forbidden. Check your permissions."
  else if strictEqNum httpCode 404 then
    failed operation "Resource not found. Check if the operation exists in your LiraX version."
  else if strictEqNum httpCode 500 then
    failed operation "LiraX server internal error."
  else if strictEqNum httpCode 502 then
    failed operation "LiraX server is temporarily unavailable."
  else if strictEqNum httpCode 503 then
    failed operation "LiraX service is temporarily overloaded."
  else if strictEqStr (errProp error "code") "ETIMEDOUT" then
    failed operation "Connection to LiraX timed out."
  else if strictEqStr (errProp error "code") "ECONNREFUSED" then
    failed operation "Connection to LiraX refused. Check base URL and network connectivity."
  else if strictEqStr (errProp error "code") "ENOTFOUND" then
    failed operation "LiraX server not found. Check base URL."
  else if strictEqStr (errProp error "code") "ECONNRESET" then
    failed operation "Connection to LiraX was reset."
  else
    match errProp error "errors" with
    | JArr (first :: others) =>
        if truthy (prop first "path") then
          failed operation
            ("Invalid input parameters. " ++
             join ", " (List.map (fun err =>
                          (dotPath (prop err "path") ++ ": "
                             ++ toStringJS (prop err "message"))%string)
                          (first :: others)))%string
        else if truthy (prop (prop (errProp error "response") "data") "error") then
          failed operation
            (toStringJS (prop (prop (errProp error "response") "data") "error"))
        else if messageIncludes error "modem busy" then
          failed operation "LiraX modem is busy. Please try again later."
        else failed operation
               (if String.eqb (errMessage error) "" then "Unknown error occurred"
                else errMessage error)
    | _ =>
        if truthy (prop (prop (errProp error "response") "data") "error") then
          failed operation
            (toStringJS (prop (prop (errProp error "response") "data") "error"))
        else if messageIncludes error "modem busy" then
          failed operation "LiraX modem is busy. Please try again later."
        else failed operation
               (if String.eqb (errMessage error) "" then "Unknown error occurred"
                else errMessage error)
    end.

Definition lineIf (v : JSValue) (label : string) : list string :=
  if truthy v then [(label ++ toStringJS v)%string] else [].

(** The [lines] array of [formatErrorDescription], in the three runs of
    pushes that fill it. *)
Definition headLines (details : Details) : list string :=
  (["LiraX API Error Details:"]
   ++ lineIf (d_operation details) "Operation: "
   ++ lineIf (d_resource details) "Resource: "
   ++ lineIf (d_httpCode details) "HTTP Code: "
   ++ lineIf (d_errorCode details) "Error Code: "
   ++ lineIf (d_timestamp details) "Timestamp: ")%list.

Definition payloadLines (details : Details) : list string :=
  if truthy (d_requestPayload details)
  then [""; "Request Payload (sensitive data masked):";
        jsonStringify2 (d_requestPayload details)]
  else [].

Definition responseLines (details : Details) : list string :=
  if truthy (d_responseBody details)
  then [""; "Response Body:";
        match d_responseBody details with
        | JStr body =>
            match JSON_parse body with
            | Some parsed => jsonStringify2 parsed
            | None => body
            end
        | other => jsonStringify2 other
        end]
  else [].

Definition descriptionLines (details : Details) : list string :=
  (headLines details ++ payloadLines details ++ responseLines details)%list.

(** [formatErrorDescription]. *)
Definition formatErrorDescription (details : Details) : string :=
  join newline (descriptionLines details).

(** The payload snapshot [handle] embeds: a copy without a truthy [token],
    masked; [undefined] when no field is left. *)
Definition sanitizedPayload (context : ErrorContext) : list (string * JSValue) :=
  let copy := payloadOf context in
  if truthy (objGet copy "token") then objDelete copy "token" else copy.

Definition requestSnapshot (context : ErrorContext) : JSValue :=
  let sanitized := sanitizedPayload context in
  if (0 <? length sanitized)%nat then JObj (maskSensitiveData sanitized)
  else JUndefined.

Definition optStr (o : option string) : JSValue :=
  match o with Some s => JStr s | None => JUndefined end.

(** The [details] that [handle] collects. *)
Definition detailsOf (timestamp : string) (error : JsError) (context : ErrorContext)
  : Details :=
  let httpCode :=
    orElse (errProp error "httpCode") (prop (errProp error "response") "status") in
  let responseBody :=
    orElse (prop (errProp error "response") "body")
           (prop (errProp error "response") "data") in
  {| d_operation := JStr (ctx_operation context);
     d_resource := optStr (ctx_resource context);
     d_timestamp := JStr timestamp;
     d_requestPayload := requestSnapshot context;
     d_httpCode := if truthy httpCode then httpCode else JUndefined;
     d_responseBody :=
       if truthy responseBody then
         match responseBody with
         | JStr body => JStr body
         | other => JStr (jsonStringify2 other)
         end
       else JUndefined;
     d_errorCode :=
       if truthy (errProp error "code") then errProp error "code"
       else JUndefined |}.

(** [LiraXErrorHandler.handle], with the [new Date().toISOString()] of the
    moment. *)
Definition handle (timestamp : string) (error : JsError) (context : ErrorContext)
  : JsError :=
  let httpCode :=
    orElse (errProp error "httpCode") (prop (errProp error "response") "status") in
  NodeApiError (Some error)
    (generateUserFriendlyMessage error (ctx_operation context) httpCode)
    (formatErrorDescription (detailsOf timestamp error context)).

(** [LiraXErrorHandler.handleFailoverError]. The [failoverAttempts] and
    [errors] entries of its details are not among the fields
    [formatErrorDescription] prints. *)
Definition handleFailoverError (timestamp : string) (errors : list JsError)
  (context : ErrorContext) : JsError :=
  let details :=
    {| d_operation := JStr (ctx_operation context);
       d_resource := optStr (ctx_resource context);
       d_timestamp := JStr timestamp;
       d_requestPayload := JUndefined;
       d_httpCode := JUndefined;
       d_responseBody := JUndefined;
       d_errorCode := JUndefined |} in
  NodeApiError (List.last (List.map Some errors) None)
    ("All failover attempts failed for operation '" ++ ctx_operation context ++ "'")
    (formatErrorDescription details).

End Handler.

End Errors.

(** ** The request executor ([liraxRequest]) *)

Module Request.
Import Breaker Errors.

(** The credentials record. [LiraXCredentials] declares no [id], yet
    [executeLiraxRequest] reads [credentials.id]: the field is kept as an
    optional one. *)
Record LiraXCredentials : Type := mkCredentials {
  baseUrl : string;
  secondaryBaseUrl : option string;
  token : string;
  incomingToken : string;
  sslVerify : bool;
  timeoutMs : Z;
  retries : Z;
  backoffBaseMs : Z;
  cred_id : option string
}.

Definition DEFAULT_TIMEOUT_MS : Z := 30000.
Definition DEFAULT_RETRY_ATTEMPTS : Z := 3.
Definition SMS_THROTTLE_DELAY_MS : Z := 5000.

(** The options object of an n8n HTTP request. *)
Record IHttpRequestOptions : Type := mkHttpRequest {
  req_method : string;
  req_url : string;
  req_body : string;
  req_headers : list (string * string);
  req_timeout : Z;
  req_rejectUnauthorized : bool
}.

(** What the executor asks of its surroundings: the HTTP helper of the n8n
    context, the clock, [Math.random], timers. *)
Class Host (W : Type) : Type := mkHost {
  httpRequest : IHttpRequestOptions -> W -> Outcome JSValue JsError * W;
  now : W -> Z;
  isoTime : W -> string;
  random : W -> Q * W;
  sleep : Q -> W -> W;
  generateRequestId : W -> string * W
}.

(** What a run leaves behind for an observer. *)
Inductive Event : Type :=
| EvHttp (url : string)
| EvSleep (ms : Q).

(** The world, the log of effects, and the static breaker registry of
    [CircuitBreakerFactory]. *)
Record Sys (W : Type) : Type := mkSys {
  world : W;
  trace : list Event;
  breakers : gmap string CircuitBreaker
}.
Arguments mkSys {W} _ _ _.
Arguments world {W} _.
Arguments trace {W} _.
Arguments breakers {W} _.

(** The options of [liraxRequest]; [useCache], [cacheKey] and [cacheTTL] are
    destructured by it and never read again. *)
Record RequestOptions (W : Type) : Type := mkOptions {
  useCache : bool;
  cacheKey : option string;
  cacheTTL : Z;
  signal : option (W -> bool);
  idempotencyKey : option string;
  bypassCircuitBreaker : bool;
  throttleKey : option string
}.
Arguments mkOptions {W} _ _ _ _ _ _ _.
Arguments useCache {W} _.
Arguments cacheKey {W} _.
Arguments cacheTTL {W} _.
Arguments signal {W} _.
Arguments idempotencyKey {W} _.
Arguments bypassCircuitBreaker {W} _.
Arguments throttleKey {W} _.

(** [liraxRequest(context, credentials, payload)] with no options object. *)
Definition defaultOptions {W : Type} : RequestOptions W :=
  mkOptions false None 3600 None None false None.

(** A string option that is set and not empty: [if (s)]. *)
Definition nonEmpty (o : option string) : option string :=
  match o with
  | Some s => if String.eqb s "" then None else Some s
  | None => None
  end.

(** The percent-encoding of [URLSearchParams] on the bytes of a string. *)
Definition formSafe (c : ascii) : bool :=
  let n := nat_of_ascii c in
  ((48 <=? n) && (n <=? 57) || (65 <=? n) && (n <=? 90)
   || (97 <=? n) && (n <=? 122)
   || (n =? 42) || (n =? 45) || (n =? 46) || (n =? 95))%nat.

Definition upperHex (n : nat) : ascii :=
  ascii_of_nat (if (n <? 10)%nat then 48 + n else 55 + n).

Fixpoint formEscape (s : string) : string :=
  match s with
  | EmptyString => EmptyString
  | String c rest =>
      let n := nat_of_ascii c in
      if formSafe c then String c (formEscape rest)
      else if (n =? 32)%nat then String "+" (formEscape rest)
      else String "%" (String (upperHex (n / 16))
                         (String (upperHex (n mod 16)) (formEscape rest)))
  end.

(** [formEncode]: [undefined] and [null] are skipped, an array is appended
    item by item. *)
Definition formPairs (kv : string * JSValue) : list string :=
  let pair (v : JSValue) : string :=
    (formEscape (fst kv) ++ "=" ++ formEscape (toStringJS v))%string in
  match snd kv with
  | JUndefined | JNull => []
  | JArr items => List.map pair items
  | v => [pair v]
  end.

Definition formEncode (body : list (string * JSValue)) : string :=
  join "&" (List.concat (List.map formPairs body)).

(** [baseUrl.replace(/\/+$/, '')]. *)
Fixpoint stripTrailingSlashes (s : string) : string :=
  match s with
  | EmptyString => EmptyString
  | String c rest =>
      match stripTrailingSlashes rest with
      | EmptyString => if Ascii.eqb c "/" then EmptyString else String c EmptyString
      | kept => String c kept
      end
  end.

Definition endpointUrl (base : string) : string :=
  (stripTrailingSlashes base ++ "/general")%string.

(** The filter that keeps the well-formed base URLs. *)
Definition validUrl (url : string) : bool :=
  negb (String.eqb url "") && (5 <? String.length url)%nat
  && (startsWith url "http://" || startsWith url "https://").

Definition candidateUrls (credentials : LiraXCredentials) : list string :=
  (baseUrl credentials
   :: match nonEmpty (secondaryBaseUrl credentials) with
      | Some u => [u]
      | None => []
      end)%list.

Definition validUrls (credentials : LiraXCredentials) : list string :=
  List.filter validUrl (candidateUrls credentials).

(** [Math.max(0, credentials.retries || DEFAULT_RETRY_ATTEMPTS) + 1]. *)
Definition maxAttempts (credentials : LiraXCredentials) : Z :=
  Z.max 0 (if (retries credentials =? 0)%Z then DEFAULT_RETRY_ATTEMPTS
           else retries credentials) + 1.

(** [response && typeof response === 'object' && 'error' in response]. *)
Definition responseHasError (response : JSValue) : bool :=
  match response with
  | JObj fields => objHas fields "error"
  | _ => false
  end.

(** [(payload as { cmd }).cmd || 'unknown']. *)
Definition operationName (payload : list (string * JSValue)) : string :=
  toStringJS (orElse (objGet payload "cmd") (JStr "unknown")).

Section Executor.

Context {W : Type} `{Host W}.

Variable nodeApiProp : JsError -> string -> JSValue.
Variable JSON_parse : string -> option JSValue.

Abbreviation errProp := (Errors.errProp nodeApiProp).
Abbreviation handle := (Errors.handle nodeApiProp JSON_parse).
Abbreviation handleFailoverError := (Errors.handleFailoverError JSON_parse).

(** [isRetryableError]. *)
Definition isRetryableError (error : JsError) : bool :=
  if strictEqStr (errProp error "code") "ETIMEDOUT"
     || strictEqStr (errProp error "code") "ECONNRESET"
     || strictEqStr (errProp error "code") "ECONNREFUSED" then true
  else if truthy (errProp error "httpCode")
          && geNum (errProp error "httpCode") 500
          && ltNum (errProp error "httpCode") 600 then true
  else if strictEqNum (errProp error "httpCode") 429 then true
  else if includes (errMessage error) "modem busy"
          || includes (errMessage error) "timeout"
          || includes (errMessage error) "temporarily unavailable" then true
  else false.

(** [calculateRetryDelay]: exponential backoff with a jitter factor in
    [0.8, 1.2), capped at 30 s. The arithmetic is exact here. *)
Definition calculateRetryDelay (attempt : Z) (credentials : LiraXCredentials)
  (w : W) : Q * W :=
  let baseDelay :=
    if (backoffBaseMs credentials =? 0)%Z then 1000%Z else backoffBaseMs credentials in
  let expDelay := Qmult (inject_Z baseDelay) (inject_Z (2 ^ attempt)) in
  let (r, w') := random w in
  let jitteredExp := Qmult expDelay (Qplus (8 # 10) (Qmult r (4 # 10))) in
  (if Qle_bool jitteredExp (inject_Z 30000) then jitteredExp else inject_Z 30000, w').

Definition logEvent (e : Event) (s : Sys W) : Sys W :=
  mkSys (world s) (trace s ++ [e]) (breakers s).

Definition setWorld (w : W) (s : Sys W) : Sys W :=
  mkSys w (trace s) (breakers s).

Variable credentials : LiraXCredentials.
Variable payload : list (string * JSValue).
Variable options : RequestOptions W.

(** The body of the [try] of one attempt against [base]. *)
Definition attemptOnce (base : string) : M (Sys W) JsError JSValue :=
  fun s =>
    let aborted := match signal options with
                   | Some sig => sig (world s)
                   | None => false
                   end in
    if aborted then (Throw (newError "Request aborted by signal"), s)
    else
      let url := endpointUrl base in
      let payloadWithToken := objSet payload "token" (JStr (token credentials)) in
      let (requestId, w1) := generateRequestId (world s) in
      let requestOptions :=
        {| req_method := "POST";
           req_url := url;
           req_body := formEncode payloadWithToken;
           req_headers :=
             ([("Content-Type", "application/x-www-form-urlencoded");
               ("Authorization", ("Bearer " ++ token credentials)%string);
               ("User-Agent", "n8n-nodes-lirax/1.0.0");
               ("X-Request-ID", requestId)]
              ++ match nonEmpty (idempotencyKey options) with
                 | Some k => [("X-Idempotency-Key", k)]
                 | None => []
                 end)%list;
           req_timeout :=
             if (timeoutMs credentials =? 0)%Z then DEFAULT_TIMEOUT_MS
             else timeoutMs credentials;
           req_rejectUnauthorized := sslVerify credentials |} in
      let (result, w2) := httpRequest requestOptions w1 in
      let s2 := logEvent (EvHttp url) (setWorld w2 s) in
      match result with
      | Throw e => (Throw e, s2)
      | Ok response =>
          if responseHasError response
          then (Throw (newError ("LiraX API error: "
                                   ++ toStringJS (prop response "error"))), s2)
          else (Ok response, s2)
      end.

(** The [while (attempt < maxAttempts)] loop against one base URL, by
    recursion on the attempts left: [attempt] is [maxAttempts] less the
    attempts left, and it grows by one each turn. The result is the response
    when an attempt returned, [None] when the loop was left, and the errors
    collected so far. *)
Fixpoint attemptLoop (left : nat) (base : string) (allErrors : list JsError)
  : M (Sys W) JsError (option JSValue * list JsError) :=
  match left with
  | O => ret (None, allErrors)
  | S fewer =>
      fun s =>
        let attempt := (maxAttempts credentials - Z.of_nat left)%Z in
        match attemptOnce base s with
        | (Ok response, s1) => (Ok (Some response, allErrors), s1)
        | (Throw error, s1) =>
            let allErrors1 := (allErrors ++ [error])%list in
            if negb (isRetryableError error) then (Ok (None, allErrors1), s1)
            else if (attempt =? maxAttempts credentials - 1)%Z
            then (Ok (None, allErrors1), s1)
            else
              let (delay, w2) := calculateRetryDelay attempt credentials (world s1) in
              let s2 := setWorld w2 s1 in
              let s3 := if negb (Qle_bool delay 0)
                        then logEvent (EvSleep delay) (setWorld (sleep delay w2) s2)
                        else s2 in
              attemptLoop fewer base allErrors1 s3
        end
  end.

Definition failureContext (message : string) : ErrorContext :=
  {| ctx_operation := operationName payload;
     ctx_payload := Some payload;
     ctx_message := Some message;
     ctx_resource := None |}.

(** The [for (const baseUrl of validUrls)] loop and the aggregated failure
    after it. *)
Fixpoint endpointLoop (count : nat) (urls : list string) (allErrors : list JsError)
  : M (Sys W) JsError JSValue :=
  match urls with
  | [] =>
      fun s =>
        (Throw (handleFailoverError (isoTime (world s)) allErrors
                  (failureContext
                     ("LiraX API request failed on all endpoints ("
                        ++ numToString (Z.of_nat count) ++ ") after all retries"))), s)
  | base :: rest =>
      bind (attemptLoop (Z.to_nat (maxAttempts credentials)) base allErrors)
        (fun r => match fst r with
                  | Some response => ret response
                  | None => endpointLoop count rest (snd r)
                  end)
  end.

(** [executeRequestWithRetry]. *)
Definition executeRequestWithRetry : M (Sys W) JsError JSValue :=
  let urls := validUrls credentials in
  match urls with
  | [] =>
      fun s =>
        (Throw (handle (isoTime (world s)) (newError "No valid base URLs configured")
                  (failureContext "LiraX API configuration error")), s)
  | _ => endpointLoop (length urls) urls []
  end.

(** [CircuitBreakerFactory.getBreaker]: the breaker registered under the
    key, registered first when there is none. *)
Definition getBreaker (credentialsId : string) (s : Sys W) : CircuitBreaker * Sys W :=
  match breakers s !! credentialsId with
  | Some b => (b, s)
  | None =>
      (defaultCircuitBreaker,
       mkSys (world s) (trace s) (<[credentialsId := defaultCircuitBreaker]> (breakers s)))
  end.

(** [credentials.id || 'default']. *)
Definition breakerKey : string :=
  match nonEmpty (cred_id credentials) with
  | Some i => i
  | None => "default"
  end.

Definition putBreaker (key : string) (b : CircuitBreaker) (s : Sys W) : Sys W :=
  mkSys (world s) (trace s) (<[key := b]> (breakers s)).

(** [executeLiraxRequest]. The breaker is an object of the registry: what
    [execute] does to it is written back under its key. *)
Definition executeLiraxRequest : M (Sys W) JsError JSValue :=
  if negb (bypassCircuitBreaker options) then
    fun s =>
      let (b, s0) := getBreaker breakerKey s in
      match Breaker.execute (fun x : Sys W => now (world x)) newError b
              executeRequestWithRetry s0 with
      | (Ok response, b1, s1) => (Ok response, putBreaker breakerKey b1 s1)
      | (Throw error, b1, s1) =>
          let s2 := putBreaker breakerKey b1 s1 in
          (Throw (handle (isoTime (world s2)) error
                    (failureContext
                       "Circuit breaker blocked request due to repeated failures")), s2)
      end
  else executeRequestWithRetry.

(** [ThrottlingManager.getInstance().throttle(key, operation)] as one caller
    sees it; its steps are the subject of the module on throttling. *)
Variable throttle :
  string -> Z -> M (Sys W) JsError JSValue -> M (Sys W) JsError JSValue.

(** [liraxRequest]. *)
Definition liraxRequest : M (Sys W) JsError JSValue :=
  match nonEmpty (throttleKey options) with
  | Some key => throttle key SMS_THROTTLE_DELAY_MS executeLiraxRequest
  | None => executeLiraxRequest
  end.

End Executor.

(** [createSMSThrottleKey]. *)
Definition createSMSThrottleKey (provider ext : string) : string :=
  ("sms:" ++ provider ++ ":" ++ ext)%string.

End Request.

(** ** The cache providers and the orchestrator ([LiraXCore]) *)

Module Core.
Import Breaker Errors Request.

Definition MAX_SAFE_INTEGER : Z := 9007199254740991.

Inductive CacheProviderType : Type := memory | redis | file.

(** The two options every provider reads; [None] is an absent field. The
    [ttl] is the result of [Number(...)], whose NaN is [JUndefined] here. *)
Record CacheProviderOptions : Type := mkCacheOptions {
  opt_ttl : option JSValue;
  opt_keyPrefix : option string
}.

(** [MemoryCacheProvider]: the [Map] of entries [{ data, expires }], the
    counters and the two settings of the instance. *)
Record MemoryCacheProvider : Type := mkMemoryCache {
  cache : gmap string (JSValue * Z);
  hits : Z;
  misses : Z;
  defaultTTL : JSValue;
  keyPrefix : string
}.

(** [new MemoryCacheProvider(options)]. *)
Definition newMemoryCacheProvider (options : CacheProviderOptions)
  : MemoryCacheProvider :=
  {| cache := ∅; hits := 0; misses := 0;
     defaultTTL := match opt_ttl options with Some t => t | None => JNum 3600 end;
     keyPrefix := match opt_keyPrefix options with Some k => k | None => "lirax" end |}.

Definition makeKey (p : MemoryCacheProvider) (key : string) : string :=
  (keyPrefix p ++ ":" ++ key)%string.

(** [get(key)] at the time [t] that [Date.now()] answers. *)
Definition memoryGet (t : Z) (p : MemoryCacheProvider) (key : string)
  : JSValue * MemoryCacheProvider :=
  match cache p !! makeKey p key with
  | None =>
      (JNull, mkMemoryCache (cache p) (hits p) (misses p + 1) (defaultTTL p) (keyPrefix p))
  | Some (data, expires) =>
      if (t >? expires)%Z then
        (JNull, mkMemoryCache (delete (makeKey p key) (cache p)) (hits p)
                  (misses p + 1) (defaultTTL p) (keyPrefix p))
      else
        (data, mkMemoryCache (cache p) (hits p + 1) (misses p) (defaultTTL p) (keyPrefix p))
  end.

(** [ttl > 0 ? Date.now() + ttl * 1000 : Number.MAX_SAFE_INTEGER], the [ttl]
    being [None] when it is NaN. *)
Definition expiryOf (t : Z) (ttl : option Z) : Z :=
  match ttl with
  | Some n => if (n >? 0)%Z then (t + n * 1000)%Z else MAX_SAFE_INTEGER
  | None => MAX_SAFE_INTEGER
  end.

(** [set(key, value, ttlSeconds)] at time [t]; [ttlSeconds ?? defaultTTL],
    and a [ttl] that is not above zero means no expiry. *)
Definition memorySet (t : Z) (p : MemoryCacheProvider) (key : string)
  (value : JSValue) (ttlSeconds : option Z) : MemoryCacheProvider :=
  let ttl := match ttlSeconds with
             | Some n => Some n
             | None => toNumber (defaultTTL p)
             end in
  mkMemoryCache (<[makeKey p key := (value, expiryOf t ttl)]> (cache p))
    (hits p) (misses p) (defaultTTL p) (keyPrefix p).

(** The provider an orchestrator holds: a reference to a
    [MemoryCacheProvider] object, or one of the store-backed providers. *)
Inductive CacheHandle : Type :=
| MemoryCache (ref : nat)
| StoreCache (kind : CacheProviderType) (options : CacheProviderOptions).

(** What the cache layer asks of its surroundings beyond the executor's:
    whether a store-backed provider can be loaded and built, and the stores
    themselves. *)
Class StoreHost (W : Type) : Type := mkStoreHost {
  providerLoads : CacheProviderType -> W -> bool;
  storeGet : CacheProviderType -> CacheProviderOptions -> string -> W -> JSValue * W;
  storeSet : CacheProviderType -> CacheProviderOptions -> string -> JSValue
             -> option Z -> W -> W
}.

(** The process as the orchestrators see it: the executor's state and the
    [MemoryCacheProvider] objects allocated so far. *)
Record CoreSys (W : Type) : Type := mkCoreSys {
  sys : Sys W;
  heap : list MemoryCacheProvider
}.
Arguments mkCoreSys {W} _ _.
Arguments sys {W} _.
Arguments heap {W} _.

(** The orchestrator object. *)
Record LiraXCore : Type := mkCore {
  core_cache : CacheHandle;
  core_credentials : LiraXCredentials
}.

(** What the constructor reads: whether the context has [getNodeParameter],
    what it answers for ['performanceSettings'], and [process.env]. *)
Record CoreContext : Type := mkCoreContext {
  hasGetNodeParameter : bool;
  performanceSettings : Outcome JSValue JsError;
  processEnv : list (string * string)
}.

Definition envVar (env : list (string * string)) (name : string) : JSValue :=
  match List.find (fun kv => String.eqb (fst kv) name) env with
  | Some kv => JStr (snd kv)
  | None => JUndefined
  end.

Definition nullish (v : JSValue) : bool :=
  match v with JUndefined | JNull => true | _ => false end.

(** [a ?? b]. *)
Definition coalesce (a b : JSValue) : JSValue := if nullish a then b else a.

(** [Number(v)], NaN being [JUndefined]. *)
Definition numberOf (v : JSValue) : JSValue :=
  match toNumber v with Some n => JNum n | None => JUndefined end.

Definition providerOfString (v : JSValue) : CacheProviderType :=
  if strictEqStr v "redis" then redis
  else if strictEqStr v "file" then file
  else memory.

(** The provider name and options the constructor settles on. *)
Definition cacheSettings (context : CoreContext) : JSValue * CacheProviderOptions :=
  let env := processEnv context in
  if hasGetNodeParameter context then
    match performanceSettings context with
    | Ok settings =>
        (orElse (prop settings "cacheProvider")
                (orElse (envVar env "LIRAX_CACHE_PROVIDER") (JStr "memory")),
         {| opt_ttl := Some (numberOf (coalesce (prop settings "cacheTTL")
                                (coalesce (envVar env "LIRAX_CACHE_TTL") (JNum 3600))));
            opt_keyPrefix :=
              Some (toStringJS (orElse (prop settings "cacheKeyPrefix")
                                  (orElse (envVar env "LIRAX_CACHE_PREFIX")
                                          (JStr "lirax")))) |})
    | Throw _ =>
        (JStr "memory", {| opt_ttl := Some (JNum 3600); opt_keyPrefix := Some "lirax" |})
    end
  else
    (orElse (envVar env "LIRAX_CACHE_PROVIDER") (JStr "memory"),
     {| opt_ttl := Some (numberOf (coalesce (envVar env "LIRAX_CACHE_TTL") (JNum 3600)));
        opt_keyPrefix :=
          Some (toStringJS (orElse (envVar env "LIRAX_CACHE_PREFIX") (JStr "lirax"))) |}).

(** The options of [executeOperation]; [None] is a field left out. *)
Record ExecuteOptions : Type := mkExecuteOptions {
  o_idempotencyKey : option string;
  o_idempotencyTTL : option Z;
  o_useCache : option bool;
  o_cacheKey : option string;
  o_cacheTTL : option Z
}.

(** [{ ...v }]: the own enumerable properties of a value. *)
Fixpoint indexed {A : Type} (f : A -> JSValue) (i : Z) (l : list A)
  : list (string * JSValue) :=
  match l with
  | [] => []
  | x :: rest => (numToString i, f x) :: indexed f (i + 1) rest
  end.

Definition spread (v : JSValue) : list (string * JSValue) :=
  match v with
  | JObj fields => fields
  | JArr items => indexed (fun x => x) 0 items
  | JStr s => indexed (fun c => JStr (String c EmptyString)) 0 (list_ascii_of_string s)
  | _ => []
  end.

Definition cacheMeta : JSValue := JObj [("fromCache", JBool true)].

Definition idempotencyMeta : JSValue :=
  JObj [("fromCache", JBool true); ("idempotencyHit", JBool true)].

(** [{ ...cached, _meta: meta }]. *)
Definition tagged (cached meta : JSValue) : JSValue :=
  JObj (objSet (spread cached) "_meta" meta).

Definition idempotencyCacheKey (key : string) : string :=
  ("idempotency:" ++ key)%string.

Section Orchestrator.

Context {W : Type} `{Host W} `{StoreHost W}.

Variable nodeApiProp : JsError -> string -> JSValue.
Variable JSON_parse : string -> option JSValue.

(** [SchemaRegistry.getSchema(operation).parse(params)]: the validation
    collaborator, which answers the validated parameters or throws. *)
Variable schemaParse :
  string -> list (string * JSValue) -> Outcome (list (string * JSValue)) JsError.

Variable throttle :
  string -> Z -> M (Sys W) JsError JSValue -> M (Sys W) JsError JSValue.

Definition setCoreWorld (w : W) (s : CoreSys W) : CoreSys W :=
  mkCoreSys (mkSys w (trace (sys s)) (breakers (sys s))) (heap s).

(** [new MemoryCacheProvider(options)]: a new object on the heap. *)
Definition allocMemory (options : CacheProviderOptions) (s : CoreSys W)
  : CacheHandle * CoreSys W :=
  (MemoryCache (length (heap s)),
   mkCoreSys (sys s) (heap s ++ [newMemoryCacheProvider options])).

(** [CacheFactory.create]: a store-backed provider when it can be loaded and
    built, the in-memory one otherwise and by default. *)
Definition CacheFactory_create (providerType : CacheProviderType)
  (options : CacheProviderOptions) (s : CoreSys W) : CacheHandle * CoreSys W :=
  match providerType with
  | redis | file =>
      if providerLoads providerType (world (sys s))
      then (StoreCache providerType options, s)
      else allocMemory options s
  | memory => allocMemory options s
  end.

(** [new LiraXCore(context, credentials)]. *)
Definition newLiraXCore (context : CoreContext) (credentials : LiraXCredentials)
  (s : CoreSys W) : LiraXCore * CoreSys W :=
  let (provider, options) := cacheSettings context in
  let (handle, s') := CacheFactory_create (providerOfString provider) options s in
  (mkCore handle credentials, s').

(** [this.cache.get(key)]. *)
Definition cacheGet (handle : CacheHandle) (key : string)
  : M (CoreSys W) JsError JSValue :=
  fun s =>
    match handle with
    | MemoryCache ref =>
        match heap s !! ref with
        | Some p =>
            let (v, p') := memoryGet (now (world (sys s))) p key in
            (Ok v, mkCoreSys (sys s) (<[ref := p']> (heap s)))
        | None => (Ok JNull, s)
        end
    | StoreCache kind options =>
        let (v, w') := storeGet kind options key (world (sys s)) in
        (Ok v, setCoreWorld w' s)
    end.

(** [this.cache.set(key, value, ttlSeconds)]. *)
Definition cacheSet (handle : CacheHandle) (key : string) (value : JSValue)
  (ttlSeconds : option Z) : M (CoreSys W) JsError unit :=
  fun s =>
    match handle with
    | MemoryCache ref =>
        match heap s !! ref with
        | Some p =>
            (Ok tt, mkCoreSys (sys s)
                      (<[ref := memorySet (now (world (sys s))) p key value ttlSeconds]>
                         (heap s)))
        | None => (Ok tt, s)
        end
    | StoreCache kind options =>
        (Ok tt, setCoreWorld (storeSet kind options key value ttlSeconds (world (sys s))) s)
    end.

(** [liraxRequest(this.context, this.credentials, payload)]: no options are
    passed on. *)
Definition request (credentials : LiraXCredentials) (payload : list (string * JSValue))
  : M (CoreSys W) JsError JSValue :=
  fun s =>
    let (r, sys') := liraxRequest nodeApiProp JSON_parse credentials payload
                       defaultOptions throttle (sys s) in
    (r, mkCoreSys sys' (heap s)).

Local Open Scope js_scope.

(** [executeOperation(operation, params, options)]. *)
Definition executeOperation (core : LiraXCore) (operation : string)
  (params : list (string * JSValue)) (options : ExecuteOptions)
  : M (CoreSys W) JsError JSValue :=
  let idempotencyKey := nonEmpty (o_idempotencyKey options) in
  let idempotencyTTL := match o_idempotencyTTL options with Some n => n | None => 86400%Z end in
  let useCache := match o_useCache options with Some b => b | None => false end in
  let cacheKey := if useCache then nonEmpty (o_cacheKey options) else None in
  let cacheTTL := match o_cacheTTL options with Some n => n | None => 3600%Z end in
  let! byCache :=
    match cacheKey with
    | Some key =>
        let! cached := cacheGet (core_cache core) key in
        ret (if truthy cached then Some (tagged cached cacheMeta) else None)
    | None => ret None
    end in
  match byCache with
  | Some hit => ret hit
  | None =>
      let! byIdempotency :=
        match idempotencyKey with
        | Some key =>
            let! cachedResult := cacheGet (core_cache core) (idempotencyCacheKey key) in
            ret (if truthy cachedResult
                 then Some (tagged cachedResult idempotencyMeta) else None)
        | None => ret None
        end in
      match byIdempotency with
      | Some hit => ret hit
      | None =>
          match schemaParse operation params with
          | Throw e => throw e
          | Ok validatedParams =>
              let payload := objSet validatedParams "cmd" (JStr operation) in
              let! result := request (core_credentials core) payload in
              do! match cacheKey with
                  | Some key => cacheSet (core_cache core) key result (Some cacheTTL)
                  | None => ret tt
                  end in
              do! match idempotencyKey with
                  | Some key =>
                      cacheSet (core_cache core) (idempotencyCacheKey key) result
                        (Some idempotencyTTL)
                  | None => ret tt
                  end in
              ret result
          end
      end
  end.

(** A later call: its arguments and the world it is made in. *)
Record LaterCall : Type := mkLaterCall {
  lc_operation : string;
  lc_params : list (string * JSValue);
  lc_options : ExecuteOptions;
  lc_world : W
}.

(** Calls made one after the other on one orchestrator, the world moving on
    between them as the surroundings decide. *)
Fixpoint replay (core : LiraXCore) (calls : list LaterCall) (s : CoreSys W)
  : list (Outcome JSValue JsError) * CoreSys W :=
  match calls with
  | [] => ([], s)
  | c :: rest =>
      let (r, s1) := executeOperation core (lc_operation c) (lc_params c)
                       (lc_options c) (setCoreWorld (lc_world c) s) in
      let (rs, s2) := replay core rest s1 in
      (r :: rs, s2)
  end.

End Orchestrator.

(** The entry a [MemoryCacheProvider] object holds under a key. *)
Definition entryAt {W : Type} (s : CoreSys W) (ref : nat) (key : string)
  : option (JSValue * Z) :=
  match heap s !! ref with
  | Some p => cache p !! makeKey p key
  | None => None
  end.

(** The key under which a call reads the cache first: [useCache && cacheKey]. *)
Definition readCacheKey (options : ExecuteOptions) : option string :=
  if match o_useCache options with Some b => b | None => false end
  then nonEmpty (o_cacheKey options) else None.

Definition idempotencyTTLOf (options : ExecuteOptions) : Z :=
  match o_idempotencyTTL options with Some n => n | None => 86400%Z end.

End Core.

(** ** The keyed throttle ([ThrottlingManager.throttle]) *)

Module Throttle.

(** An entry of [throttleMap]; a promise is named by a number. *)
Record ThrottleEntry : Type := mkEntry {
  lastRequestTime : Z;
  pending : option nat
}.

(** Where a call of [throttle] stands. Between two of its [await]s a call
    runs without interruption, so a call is either suspended at one of the
    three [await]s or over. *)
Inductive Task : Type :=
| AwaitingPending (key : string) (delayMs : Z) (now : Z) (entry : ThrottleEntry)
    (promise : nat)
| AwaitingDelay (key : string) (due : Z)
| AwaitingOperation (key : string) (promise : nat) (started : Z)
| Returned (key : string) (started finished : Z) (ok : bool)
| Rejected (key : string).

(** The manager, the promises settled so far (with [true] for fulfilled),
    the clock and the calls made. *)
Record State : Type := mkState {
  clock : Z;
  throttleMap : gmap string ThrottleEntry;
  settled : gmap nat bool;
  nextPromise : nat;
  tasks : list Task
}.

Definition initial : State := mkState 0 ∅ ∅ 0 [].

(** [const promise = operation(); this.throttleMap.set(key, {...})]: the
    operation starts and the call suspends at [await promise]. *)
Definition startOperation (key : string) (st : State) : Task * State :=
  let promise := nextPromise st in
  (AwaitingOperation key promise (clock st),
   mkState (clock st)
     (<[key := mkEntry (clock st) (Some promise)]> (throttleMap st))
     (settled st) (S promise) (tasks st)).

(** From the second [if] on, with the [now] and the [entry] read when the
    call began. *)
Definition afterPending (key : string) (delayMs now : Z)
  (entry : option ThrottleEntry) (st : State) : Task * State :=
  match entry with
  | Some e =>
      if (now - lastRequestTime e <? delayMs)%Z
      then (AwaitingDelay key (clock st + (delayMs - (now - lastRequestTime e)))%Z, st)
      else startOperation key st
  | None => startOperation key st
  end.

(** The call up to its first [await]. *)
Definition begin (key : string) (delayMs : Z) (st : State) : Task * State :=
  let now := clock st in
  let entry := throttleMap st !! key in
  match entry with
  | Some e =>
      match pending e with
      | Some promise => (AwaitingPending key delayMs now e promise, st)
      | None => afterPending key delayMs now entry st
      end
  | None => afterPending key delayMs now entry st
  end.

(** The [finally] block, run when the operation has settled. *)
Definition release (key : string) (promise : nat) (st : State) : State :=
  match throttleMap st !! key with
  | Some current =>
      if match pending current with
         | Some q => Nat.eqb q promise
         | None => false
         end
      then mkState (clock st)
             (<[key := mkEntry (lastRequestTime current) None]> (throttleMap st))
             (settled st) (nextPromise st) (tasks st)
      else st
  | None => st
  end.

(** What happens in the process, one event-loop turn at a time. *)
Inductive Event : Type :=
| Call (key : string) (delayMs : Z)
| Elapse (ms : Z)
| Settle (task : nat) (ok : bool)
| Resume (task : nat).

Definition setTask (i : nat) (t : Task) (st : State) : State :=
  mkState (clock st) (throttleMap st) (settled st) (nextPromise st)
    (<[i := t]> (tasks st)).

(** One turn; [None] when the event cannot happen in the state. *)
Definition step (e : Event) (st : State) : option State :=
  match e with
  | Call key delayMs =>
      let (t, st1) := begin key delayMs st in
      Some (mkState (clock st1) (throttleMap st1) (settled st1) (nextPromise st1)
              (tasks st1 ++ [t]))
  | Elapse ms =>
      if (0 <=? ms)%Z
      then Some (mkState (clock st + ms) (throttleMap st) (settled st)
                   (nextPromise st) (tasks st))
      else None
  | Settle i ok =>
      match tasks st !! i with
      | Some (AwaitingOperation key promise started) =>
          let st1 := mkState (clock st) (throttleMap st)
                       (<[promise := ok]> (settled st)) (nextPromise st) (tasks st) in
          Some (setTask i (Returned key started (clock st) ok) (release key promise st1))
      | _ => None
      end
  | Resume i =>
      match tasks st !! i with
      | Some (AwaitingPending key delayMs now entry promise) =>
          match settled st !! promise with
          | Some true =>
              let (t, st1) := afterPending key delayMs now (Some entry) st in
              Some (setTask i t st1)
          | Some false => Some (setTask i (Rejected key) st)
          | None => None
          end
      | Some (AwaitingDelay key due) =>
          if (due <=? clock st)%Z
          then let (t, st1) := startOperation key st in Some (setTask i t st1)
          else None
      | _ => None
      end
  end.

Fixpoint run (events : list Event) (st : State) : option State :=
  match events with
  | [] => Some st
  | e :: rest =>
      match step e st with
      | Some st1 => run rest st1
      | None => None
      end
  end.

(** The operations in flight under a key, each with its start time. *)
Definition inFlight (key : string) (st : State) : list Z :=
  List.concat
    (List.map (fun t => match t with
                        | AwaitingOperation k _ started =>
                            if String.eqb k key then [started] else []
                        | _ => []
                        end) (tasks st)).

End Throttle.

(** ** The messaging operations of the node ([executeMessagingOperation]) *)

Module Node.
Import Errors Request.

(** The [RequestOptions] of the node file. *)
Record NodeRequestOptions : Type := mkNodeOptions {
  n_useCache : bool;
  n_cacheTTL : Z;
  n_idempotencyKey : option string;
  n_idempotencyTTL : Z;
  n_bypassCircuitBreaker : bool;
  n_timeoutOverride : option Z;
  n_disableRetry : bool
}.

(** What [liraxRequest] destructures out of such an object: it has no
    [cacheKey], no [signal] and no [throttleKey]. *)
Definition asRequestOptions {W : Type} (options : NodeRequestOptions)
  : RequestOptions W :=
  mkOptions (n_useCache options) None (n_cacheTTL options) None
    (n_idempotencyKey options) (n_bypassCircuitBreaker options) None.

(** [{ ...options, throttleKey }]. *)
Definition withThrottleKey {W : Type} (options : RequestOptions W) (key : string)
  : RequestOptions W :=
  mkOptions (useCache options) (cacheKey options) (cacheTTL options) (signal options)
    (idempotencyKey options) (bypassCircuitBreaker options) (Some key).

Section Messaging.

Context {W : Type} `{Host W}.

Variable nodeApiProp : JsError -> string -> JSValue.
Variable JSON_parse : string -> option JSValue.
Variable schemaParse :
  string -> list (string * JSValue) -> Outcome (list (string * JSValue)) JsError.
Variable throttle :
  string -> Z -> M (Sys W) JsError JSValue -> M (Sys W) JsError JSValue.

(** [this.getNodeParameter(name, i)]. *)
Variable getNodeParameter : string -> nat -> JSValue.

Abbreviation liraxRequest := (Request.liraxRequest nodeApiProp JSON_parse).

(** The exported [throttledSMSRequest] of LiraX.utils. *)
Definition utilsThrottledSMSRequest (credentials : LiraXCredentials)
  (payload : list (string * JSValue)) (provider ext : string)
  (options : RequestOptions W) : M (Sys W) JsError JSValue :=
  liraxRequest credentials payload
    (withThrottleKey options (createSMSThrottleKey provider ext)) throttle.

(** The [throttledSMSRequest] the node file declares for itself and calls:
    [provider] and [ext] are not used. *)
Definition throttledSMSRequest (credentials : LiraXCredentials)
  (payload : list (string * JSValue)) (provider ext : string)
  (options : NodeRequestOptions) : M (Sys W) JsError JSValue :=
  liraxRequest credentials payload (asRequestOptions options) throttle.

Definition validated (operation : string) (payload : list (string * JSValue))
  (k : list (string * JSValue) -> M (Sys W) JsError JSValue)
  : M (Sys W) JsError JSValue :=
  match schemaParse operation payload with
  | Ok validatedPayload => k validatedPayload
  | Throw e => throw e
  end.

(** [executeMessagingOperation]. *)
Definition executeMessagingOperation (i : nat) (operation : string)
  (credentials : LiraXCredentials) (options : NodeRequestOptions)
  : M (Sys W) JsError JSValue :=
  if String.eqb operation "sendSMS" then
    let ext := getNodeParameter "ext" i in
    let provider := getNodeParameter "provider" i in
    let phone := getNodeParameter "phone" i in
    let text := getNodeParameter "text" i in
    let normalizedPhone := Phone.normalizePhoneDigits phone in
    validated "sendSMS"
      [("cmd", JStr "sendSMS"); ("ext", ext); ("provider", provider);
       ("phone", JStr normalizedPhone); ("text", text)]
      (fun validatedPayload =>
         throttledSMSRequest credentials validatedPayload
           (toStringJS provider) (toStringJS ext) options)
  else if String.eqb operation "checkSMS" then
    let ext := getNodeParameter "ext" i in
    let provider := getNodeParameter "provider" i in
    let id_sms := getNodeParameter "id_sms" i in
    validated "checkSMS"
      [("cmd", JStr "checkSMS"); ("ext", ext); ("provider", provider);
       ("id_sms", JStr (toStringJS id_sms))]
      (fun validatedPayload =>
         throttledSMSRequest credentials validatedPayload
           (toStringJS provider) (toStringJS ext) options)
  else if String.eqb operation "sendMsg" then
    let ext := getNodeParameter "ext" i in
    let ani := getNodeParameter "ani" i in
    let text := getNodeParameter "text" i in
    validated "sendMsg"
      [("cmd", JStr "sendMsg"); ("ext", ext);
       ("ani", JStr (Phone.normalizePhoneDigits ani)); ("text", text)]
      (fun validatedPayload =>
         liraxRequest credentials validatedPayload (asRequestOptions options) throttle)
  else if String.eqb operation "send_cloud_message" then
    let client := orElse (getNodeParameter "client" i) (JStr "") in
    let ani := orElse (getNodeParameter "ani" i) (JStr "") in
    let text := getNodeParameter "text" i in
    if negb (truthy client) && negb (truthy ani) then
      throw (newError
        ("Either " ++ quoted "client" ++ " or " ++ quoted "ani"
           ++ " (phone) must be provided for send_cloud_message operation"))
    else
      validated "send_cloud_message"
        [("cmd", JStr "send_cloud_message");
         ("client", if truthy client then client else JUndefined);
         ("ani", if truthy ani then JStr (Phone.normalizePhoneDigits ani)
                 else JUndefined);
         ("text", text)]
        (fun validatedPayload =>
           liraxRequest credentials validatedPayload (asRequestOptions options) throttle)
  else
    throw (newError ("Unsupported messaging operation: " ++ operation)).

End Messaging.

End Node.

(** ** Idle cleanup of the two registries *)

Module Registry.
Import Breaker Throttle.

(** [CLEANUP_THRESHOLD_MS] of [CircuitBreakerFactory.cleanup]: one hour. *)
Definition BREAKER_CLEANUP_THRESHOLD_MS : Z := 3600000.

(** [CLEANUP_THRESHOLD_MS] of [ThrottlingManager.cleanup]: five minutes. *)
Definition THROTTLE_CLEANUP_THRESHOLD_MS : Z := 300000.

(** The test under which [CircuitBreakerFactory.cleanup] deletes a breaker:
    [now - stats.lastFailureTime > CLEANUP_THRESHOLD_MS && stats.failures === 0]. *)
Definition staleBreaker (t : Z) (b : CircuitBreaker) : bool :=
  (t - lastFailureTime b >? BREAKER_CLEANUP_THRESHOLD_MS)%Z && (failures b =? 0)%Z.

(** [CircuitBreakerFactory.cleanup] at time [t]: the loop deletes the stale
    breakers and keeps the rest. *)
Definition breakerCleanup (t : Z) (registry : gmap string CircuitBreaker)
  : gmap string CircuitBreaker :=
  filter (fun kb => staleBreaker t (snd kb) = false) registry.

(** The test under which [ThrottlingManager.cleanup] deletes an entry:
    [now - entry.lastRequestTime > CLEANUP_THRESHOLD_MS && !entry.pending]. *)
Definition idleEntry (t : Z) (e : ThrottleEntry) : bool :=
  (t - lastRequestTime e >? THROTTLE_CLEANUP_THRESHOLD_MS)%Z
  && match pending e with Some _ => false | None => true end.

(** [ThrottlingManager.cleanup] at the time the clock shows. *)
Definition throttleCleanup (st : State) : State :=
  mkState (clock st)
    (filter (fun ke => idleEntry (clock st) (snd ke) = false) (throttleMap st))
    (settled st) (nextPromise st) (tasks st).

(** What holds of a breaker between two calls made one after the other. *)
Definition steady (b : CircuitBreaker) : Prop :=
  (1 <= failureThreshold b)%Z /\ (2 <= halfOpenMaxAttempts b)%Z
  /\ (0 <= failures b)%Z /\ (0 <= successCount b)%Z
  /\ match state b with
     | CLOSED => (failures b < failureThreshold b)%Z
     | OPEN => (1 <= failures b)%Z
     | HALF_OPEN =>
         (0 <= halfOpenAttempts b <= 1)%Z /\ (successCount b <= 2)%Z
     end.

End Registry.

(** ** Concrete surroundings for running the model *)

Module Scenario.
Import Breaker Errors Request Core.


(** A world that is a millisecond clock. Every HTTP exchange takes 50 ms and
    is answered by [server] from the URL and the time, or from the URL
    alone; [Math.random] answers 0.5. *)
Definition timed (server : string -> Z -> Outcome JSValue JsError) : Host Z :=
  {| httpRequest := fun req w => (server (req_url req) w, (w + 50)%Z);
     now := fun w => w;
     isoTime := fun w => ("T+" ++ numToString w)%string;
     random := fun w => (1 # 2, w);
     sleep := fun ms w => (w + Qceiling ms)%Z;
     generateRequestId := fun w => (("lirax_" ++ numToString w)%string, w) |}.

Definition scripted (server : string -> Outcome JSValue JsError) : Host Z :=
  {| httpRequest := fun req w => (server (req_url req), (w + 50)%Z);
     now := fun w => w;
     isoTime := fun w => ("T+" ++ numToString w)%string;
     random := fun w => (1 # 2, w);
     sleep := fun ms w => (w + Qceiling ms)%Z;
     generateRequestId := fun w => (("lirax_" ++ numToString w)%string, w) |}.

(** A [NodeApiError] that exposes no further property. *)
Definition noProps : JsError -> string -> JSValue := fun _ _ => JUndefined.

(** A [JSON.parse] that rejects every text. *)
Definition noParse : string -> option JSValue := fun _ => None.

Definition httpError (status : Z) : JsError :=
  ErrorObj ("Request failed with status code " ++ numToString status)
    [("httpCode", JNum status)].

Definition urlA : string := "https://a.lirax.example".
Definition urlB : string := "https://b.lirax.example".

Definition okResponse : JSValue := JObj [("result", JStr "ok")].

(** A answers HTTP 500 every time, B answers 200. *)
Definition serverAdownBup (url : string) : Outcome JSValue JsError :=
  if String.eqb url (endpointUrl urlA) then Throw (httpError 500)
  else Ok okResponse.

(** Every endpoint answers HTTP 400. *)
Definition server400 (url : string) : Outcome JSValue JsError :=
  Throw (httpError 400).

(** Every endpoint resets the connection. *)
Definition serverReset (url : string) : Outcome JSValue JsError :=
  Throw (ErrorObj "socket hang up" [("code", JStr "ECONNRESET")]).

Definition credentialsAB (maxRetries : Z) : LiraXCredentials :=
  {| baseUrl := urlA; secondaryBaseUrl := Some urlB; token := "abc123xyz";
     incomingToken := "in"; sslVerify := true; timeoutMs := 30000;
     retries := maxRetries; backoffBaseMs := 1000; cred_id := None |}.

Definition credentialsA (tok : string) : LiraXCredentials :=
  {| baseUrl := urlA; secondaryBaseUrl := None; token := tok;
     incomingToken := "in"; sslVerify := true; timeoutMs := 30000;
     retries := 1; backoffBaseMs := 1000; cred_id := None |}.

Definition credentialsB (tok : string) : LiraXCredentials :=
  {| baseUrl := urlB; secondaryBaseUrl := None; token := tok;
     incomingToken := "in"; sslVerify := true; timeoutMs := 30000;
     retries := 1; backoffBaseMs := 1000; cred_id := None |}.

Definition makeCallPayload : list (string * JSValue) :=
  [("from", JStr "101"); ("to", JStr "380501234567"); ("cmd", JStr "makeCall")].

(** A world that is just a clock, for concrete runs. *)
Definition tick (d : Z) (fail : bool) : Z -> Outcome unit string * Z :=
  fun w => (if fail then Throw "ECONNRESET" else Ok tt, w + d).

Definition fiveFailures : list (Breaker.Call (W := Z) (T := unit) (E := string)) :=
  [(tick 10 true, 0); (tick 10 true, 100); (tick 10 true, 200);
   (tick 10 true, 300); (tick 10 true, 400)].

Definition start : Sys Z := mkSys 0%Z [] ∅.

(** The URLs of the HTTP attempts of a log, in order. *)
Definition httpUrls (tr : list Event) : list string :=
  List.concat (List.map (fun e => match e with
                                  | EvHttp url => [url]
                                  | EvSleep _ => []
                                  end) tr).

Definition sleeps (tr : list Event) : list Q :=
  List.concat (List.map (fun e => match e with
                                  | EvHttp _ => []
                                  | EvSleep ms => [ms]
                                  end) tr).

(** Calls made one after the other, each awaited before the next. *)
Definition runAll {S E A : Type} (calls : list (M S E A)) (s : S) : S :=
  fold_left (fun acc call => snd (call acc)) calls s.

(** A throttle that only runs the operation: for runs where no throttle key
    is given. *)
Definition plainThrottle {W : Type}
  : string -> Z -> M (Sys W) JsError JSValue -> M (Sys W) JsError JSValue :=
  fun _ _ operation => operation.

(** [liraxRequest(context, credentials, makeCallPayload)] in a scripted
    world. *)
Definition requestAs (server : string -> Outcome JSValue JsError)
  (credentials : LiraXCredentials) (options : RequestOptions Z)
  : M (Sys Z) JsError JSValue :=
  liraxRequest (H := scripted server) noProps noParse credentials makeCallPayload
    options plainThrottle.

(** No store-backed provider can be loaded. *)
Definition noStores : StoreHost Z :=
  {| providerLoads := fun _ _ => false;
     storeGet := fun _ _ _ w => (JNull, w);
     storeSet := fun _ _ _ _ _ w => w |}.

(** A schema that accepts every parameter object as it is. *)
Definition acceptAll (operation : string) (params : list (string * JSValue))
  : Outcome (list (string * JSValue)) JsError := Ok params.

(** An execute context with no performance settings and an empty
    environment. *)
Definition plainContext : CoreContext :=
  {| hasGetNodeParameter := true; performanceSettings := Ok (JObj []);
     processEnv := [] |}.

Definition coreStart : CoreSys Z := mkCoreSys start [].

(** The endpoint is down until the clock reads 5000, and up from then on. *)
Definition serverUpLater (url : string) (t : Z) : Outcome JSValue JsError :=
  if (t <? 5000)%Z then Throw (httpError 400) else Ok okResponse.

Definition idempotentOptions (key : string) : ExecuteOptions :=
  {| o_idempotencyKey := Some key; o_idempotencyTTL := None;
     o_useCache := None; o_cacheKey := None; o_cacheTTL := None |}.

Definition cachedIdempotentOptions (key cacheKey : string) : ExecuteOptions :=
  {| o_idempotencyKey := Some key; o_idempotencyTTL := None;
     o_useCache := Some true; o_cacheKey := Some cacheKey; o_cacheTTL := None |}.

Definition makeCallParams : list (string * JSValue) :=
  [("from", JStr "101"); ("to", JStr "380501234567")].

(** Two orchestrators built one after the other in a fresh process. *)
Definition coreOne : LiraXCore * CoreSys Z :=
  newLiraXCore (H0 := noStores) plainContext (credentialsB "abc123xyz") coreStart.

Definition coreTwo : LiraXCore * CoreSys Z :=
  newLiraXCore (H0 := noStores) plainContext (credentialsB "abc123xyz") (snd coreOne).

(** [core.executeOperation('makeCall', makeCallParams, options)] on the first
    orchestrator, in a scripted world. *)
Definition executeAs (host : Host Z) (options : ExecuteOptions)
  : M (CoreSys Z) JsError JSValue :=
  executeOperation (H := host) (H0 := noStores) noProps noParse acceptAll
    plainThrottle (fst coreOne) "makeCall" makeCallParams options.

Definition laterMakeCall (options : ExecuteOptions) (t : Z) : LaterCall (W := Z) :=
  {| lc_operation := "makeCall"; lc_params := makeCallParams;
     lc_options := options; lc_world := t |}.

(** The payload of the masking scenario, and payloads of operations that
    carry an IP address and an e-mail address. *)
Definition secretPayload : list (string * JSValue) :=
  [("token", JStr "abc123xyz"); ("phone", JStr "380501234567")].

Definition addBlackIPPayload : list (string * JSValue) :=
  [("cmd", JStr "addBlackIP"); ("IP", JStr "203.0.113.7")].

Definition getContactPayload : list (string * JSValue) :=
  [("cmd", JStr "getContact"); ("email", JStr "anna@example.com")].

Definition contextOf (operation : string) (payload : option (list (string * JSValue)))
  : ErrorContext :=
  {| ctx_operation := operation; ctx_payload := payload;
     ctx_message := None; ctx_resource := None |}.

(** The lines the scenario payload adds to a description. *)
Definition secretBlock : list string :=
  [""; "Request Payload (sensitive data masked):";
   jsonStringify2 (JObj [("phone", JStr "********4567")])].

(** One call under a key is made and over after 10 ms; two more calls
    under the key arrive at 1000 ms and at 2000 ms, and both are resumed
    when their timers are due, at 5000 ms. *)
Definition twoCallsAfterOne : list Throttle.Event :=
  [Throttle.Call "sms:gw:101" 5000; Throttle.Elapse 10; Throttle.Settle 0 true;
   Throttle.Elapse 990; Throttle.Call "sms:gw:101" 5000;
   Throttle.Elapse 1000; Throttle.Call "sms:gw:101" 5000;
   Throttle.Elapse 3000; Throttle.Resume 1; Throttle.Resume 2].

(** The parameters of an SMS item of the node. *)
Definition smsParameters (name : string) (i : nat) : JSValue :=
  if String.eqb name "ext" then JStr "101"
  else if String.eqb name "provider" then JStr "gw"
  else if String.eqb name "phone" then JStr "+380 (50) 123-45-67"
  else if String.eqb name "text" then JStr "hello"
  else if String.eqb name "id_sms" then JNum 77
  else JUndefined.

Definition nodeOptions : Node.NodeRequestOptions :=
  {| Node.n_useCache := true; Node.n_cacheTTL := 3600;
     Node.n_idempotencyKey := Some "exec-1-0"; Node.n_idempotencyTTL := 86400;
     Node.n_bypassCircuitBreaker := false; Node.n_timeoutOverride := None;
     Node.n_disableRetry := false |}.

(** A throttle that holds every call back for its delay before it runs the
    operation. *)
Definition holdingThrottle
  : string -> Z -> M (Sys Z) JsError JSValue -> M (Sys Z) JsError JSValue :=
  fun _ delayMs operation s =>
    operation (mkSys (world s + delayMs)%Z (trace s) (breakers s)).

(** The node runs a messaging operation on the SMS item. *)
Definition nodeMessaging (operation : string)
  : M (Sys Z) JsError JSValue :=
  Node.executeMessagingOperation (H := scripted serverAdownBup) noProps noParse
    acceptAll holdingThrottle smsParameters 0 operation (credentialsB "abc123xyz")
    nodeOptions.

Definition bypassOptions : RequestOptions Z :=
  mkOptions false None 3600 None None true None.

End Scenario.

(** ** Observations on runs *)

Module Observations.
Import Request Scenario.

(** What a run adds to the log: at most [https] HTTP attempts and at most
    [naps] sleeps. *)
Definition adds {W : Type} (s s' : Sys W) (https naps : nat) : Prop :=
  exists tr, trace s' = (trace s ++ tr)%list
    /\ (length (httpUrls tr) <= https)%nat /\ (length (sleeps tr) <= naps)%nat.

(** [credentials.backoffBaseMs || 1000]. *)
Definition effectiveBase (c : LiraXCredentials) : Z :=
  if (backoffBaseMs c =? 0)%Z then 1000%Z else backoffBaseMs c.

(** How often a character occurs in a text. *)
Fixpoint countChar (c : ascii) (s : string) : nat :=
  match s with
  | EmptyString => O
  | String x rest => (if Ascii.eqb x c then 1 else 0) + countChar c rest
  end.

(** The last character of a text. *)
Fixpoint lastChar (s : string) : option ascii :=
  match s with
  | EmptyString => None
  | String c EmptyString => Some c
  | String _ rest => lastChar rest
  end.

(** Credentials whose base URL is no HTTP URL. *)
Definition credentialsNoUrl : LiraXCredentials :=
  {| baseUrl := "ftp://lirax.example"; secondaryBaseUrl := Some "";
     token := "abc123xyz"; incomingToken := "in"; sslVerify := true;
     timeoutMs := 30000; retries := 3; backoffBaseMs := 1000; cred_id := None |}.

(** A process whose breaker for ['default'] was opened at 900 ms, at
    1000 ms. *)
Definition openSys : Sys Z :=
  mkSys 1000%Z [] {[ "default" := Breaker.tripped 5 60000 3 900 ]}.

End Observations.

(** ** The remaining operations of [MemoryCacheProvider] *)

Module MemoryOps.
Import Core.

(** [delete(key)]. *)
Definition memoryDelete (p : MemoryCacheProvider) (key : string)
  : MemoryCacheProvider :=
  mkMemoryCache (delete (makeKey p key) (cache p)) (hits p) (misses p)
    (defaultTTL p) (keyPrefix p).

(** [clear()]: the entries go and both counters start again. *)
Definition memoryClear (p : MemoryCacheProvider) : MemoryCacheProvider :=
  mkMemoryCache ∅ 0 0 (defaultTTL p) (keyPrefix p).

Record CacheStats : Type := mkCacheStats {
  stat_size : nat;
  stat_hits : Z;
  stat_misses : Z
}.

(** [getStats()]. *)
Definition getStats (p : MemoryCacheProvider) : CacheStats :=
  mkCacheStats (size (cache p)) (hits p) (misses p).

(** One call on a provider object, made at the time [Date.now()] answers. *)
Inductive CacheCall : Type :=
| CallGet (key : string)
| CallSet (key : string) (value : JSValue) (ttlSeconds : option Z)
| CallDelete (key : string)
| CallClear.

Definition perform (t : Z) (c : CacheCall) (p : MemoryCacheProvider)
  : MemoryCacheProvider :=
  match c with
  | CallGet key => snd (memoryGet t p key)
  | CallSet key value ttlSeconds => memorySet t p key value ttlSeconds
  | CallDelete key => memoryDelete p key
  | CallClear => memoryClear p
  end.

(** Calls made one after the other, each at its own time. *)
Fixpoint performAll (calls : list (Z * CacheCall)) (p : MemoryCacheProvider)
  : MemoryCacheProvider :=
  match calls with
  | [] => p
  | (t, c) :: rest => performAll rest (perform t c p)
  end.

Definition isGet (c : CacheCall) : bool :=
  match c with CallGet _ => true | _ => false end.

Definition isClear (c : CacheCall) : bool :=
  match c with CallClear => true | _ => false end.

Definition gets (calls : list (Z * CacheCall)) : nat :=
  length (List.filter (fun tc => isGet (snd tc)) calls).

End MemoryOps.

(** ** Observations on the orchestrator's caches *)

Module CoreObservations.
Import Errors Request Core.

(** No object holds an entry in [s'] that it did not hold in [s]. *)
Definition shrinks {W : Type} (s s' : CoreSys W) : Prop :=
  forall (ref : nat) (key : string) (entry : JSValue * Z),
    entryAt s' ref key = Some entry -> entryAt s ref key = Some entry.

(** The two states have sent the same requests, slept the same and hold the
    same circuit breakers. *)
Definition quiet {W : Type} (s s' : CoreSys W) : Prop :=
  trace (sys s') = trace (sys s) /\ breakers (sys s') = breakers (sys s).

(** A schema that refuses every parameter object. *)
Definition refuseAll (operation : string) (params : list (string * JSValue))
  : Outcome (list (string * JSValue)) JsError :=
  Throw (newError "Required").

End CoreObservations.

(** ** Phone validation and display, and the webhook token check *)

Module Validation.
Import Phone Errors Request.

Record PhoneValidationResult : Type := mkPhoneValidation {
  pv_valid : bool;
  pv_errors : list string;
  pv_warnings : list string;
  pv_normalized : string;
  pv_original : JSValue
}.

(** [if (c) list.push(msg)]. *)
Definition pushIf (c : bool) (msg : string) (l : list string) : list string :=
  if c then (l ++ [msg])%list else l.

(** [/^[0-9]+$/.test(s)]. *)
Definition digitsOnly (s : string) : bool :=
  negb (String.eqb s "") && allDigits s.

Definition tooShort : string := "Phone number must contain at least 5 digits".
Definition tooLong : string := "Phone number too long (max 20 digits)".
Definition badCharacters : string :=
  "Phone number contains invalid characters after normalization".

(** [validatePhoneNumber]. *)
Definition validatePhoneNumber (phone : JSValue) : PhoneValidationResult :=
  let normalized := normalizePhoneDigits phone in
  let n := String.length normalized in
  let errors := pushIf (n <? 5)%nat tooShort [] in
  let errors := pushIf (20 <? n)%nat tooLong errors in
  let errors := pushIf (negb (digitsOnly normalized)) badCharacters errors in
  let warnings :=
    pushIf (startsWith normalized "0")
      "Phone number starts with 0 - ensure country code is included" [] in
  let warnings :=
    pushIf ((n =? 10)%nat && negb (startsWith normalized "1"))
      "10-digit number detected - may need country code prefix" warnings in
  {| pv_valid := (length errors =? 0)%nat;
     pv_errors := errors;
     pv_warnings := warnings;
     pv_normalized := normalized;
     pv_original := phone |}.

(** [s.slice(a, b)] and [s.slice(a)] for indices that are not negative. *)
Definition slice (a b : nat) (s : string) : string := String.substring a (b - a) s.

Definition sliceFrom (a : nat) (s : string) : string :=
  String.substring a (String.length s - a) s.

(** [formatPhoneForDisplay]. *)
Definition formatPhoneForDisplay (phone : JSValue) : string :=
  let digits := normalizePhoneDigits phone in
  let n := String.length digits in
  if (n =? 10)%nat then
    ("+1 (" ++ slice 0 3 digits ++ ") " ++ slice 3 6 digits ++ "-" ++ sliceFrom 6 digits)%string
  else if (n =? 11)%nat && startsWith digits "1" then
    ("+1 (" ++ slice 1 4 digits ++ ") " ++ slice 4 7 digits ++ "-" ++ sliceFrom 7 digits)%string
  else if (n =? 12)%nat && startsWith digits "380" then
    ("+380 (" ++ slice 3 5 digits ++ ") " ++ slice 5 8 digits ++ "-"
       ++ slice 8 10 digits ++ "-" ++ sliceFrom 10 digits)%string
  else ("+" ++ digits)%string.

(** [sanitizePhoneForLog]. *)
Definition sanitizePhoneForLog (phone : JSValue) : string :=
  let digits := normalizePhoneDigits phone in
  let n := String.length digits in
  if (n <=? 4)%nat then digits
  else (repeatChar "*" (n - 4) ++ sliceLast 4 digits)%string.

(** [crypto.timingSafeEqual] on two buffers: it throws when the lengths
    differ and otherwise answers whether the bytes are the same. *)
Definition timingSafeEqual (a b : string) : Outcome bool JsError :=
  if (String.length a =? String.length b)%nat then Ok (String.eqb a b)
  else Throw (newError "Input buffers must have the same byte length").

(** The errors of [verifyWebhookToken]: a message and [httpCode = 401]. *)
Definition unauthorized (message : string) : JsError :=
  ErrorObj message [("httpCode", JNum 401)].

(** [verifyWebhookToken(incomingToken, expectedToken, context)]; the tokens
    are compared as the buffers [Buffer.from] makes of them. *)
Definition verifyWebhookToken (incomingToken : option string) (expectedToken : string)
  : Outcome unit JsError :=
  match nonEmpty incomingToken with
  | None => Throw (unauthorized "Missing webhook token")
  | Some incoming =>
      if String.eqb expectedToken ""
      then Throw (unauthorized "Webhook token not configured in credentials")
      else
        let attempt : Outcome unit JsError :=
          if negb (String.length incoming =? String.length expectedToken)%nat
          then Throw (unauthorized "Invalid webhook token")
          else match timingSafeEqual incoming expectedToken with
               | Throw e => Throw e
               | Ok same =>
                   if negb same then Throw (unauthorized "Invalid webhook token")
                   else Ok tt
               end in
        match attempt with
        | Ok u => Ok u
        | Throw _ => Throw (unauthorized "Invalid webhook token")
        end
  end.

End Validation.

(** ** IdempotencyService *)

Module Idempotency.
Import Errors Request.

(** The process as the service sees it: the surroundings and the static
    [cache] map of entries [{ result, expiry }]. *)
Record IdemState (W : Type) : Type := mkIdemState {
  i_world : W;
  i_cache : gmap string (JSValue * Z)
}.
Arguments mkIdemState {W} _ _.
Arguments i_world {W} _.
Arguments i_cache {W} _.

Section Service.

Context {W : Type} `{Host W}.

(** [cleanupExpired]: the entries with [expiry <= Date.now()] are deleted. *)
Definition cleanupExpired (s : IdemState W) : IdemState W :=
  mkIdemState (i_world s)
    (filter (fun ke => (snd (snd ke) <=? now (i_world s))%Z = false) (i_cache s)).

Definition ttlOf (ttlSeconds : option Z) : Z :=
  match ttlSeconds with Some n => n | None => 86400%Z end.

Definition serviceKey (key : string) : string := ("idempotency:" ++ key)%string.

(** [executeWithIdempotency(key, operation, ttlSeconds)]: the answer is
    [{ result, fromCache }]. The operation runs in the same process and may
    itself use the service. *)
Definition executeWithIdempotency (key : string)
  (operation : M (IdemState W) JsError JSValue) (ttlSeconds : option Z)
  : M (IdemState W) JsError (JSValue * bool) :=
  fun s =>
    let t := now (i_world s) in
    let cacheKey := serviceKey key in
    let fresh :=
      match operation s with
      | (Throw e, s1) => (Throw e, s1)
      | (Ok result, s1) =>
          (Ok (result, false),
           cleanupExpired
             (mkIdemState (i_world s1)
                (<[cacheKey := (result, t + ttlOf ttlSeconds * 1000)%Z]> (i_cache s1))))
      end in
    match i_cache s !! cacheKey with
    | Some (result, expiry) =>
        if (expiry >? t)%Z then (Ok (result, true), s) else fresh
    | None => fresh
    end.

End Service.

(** An operation that takes [ms] milliseconds and answers [r]. *)
Definition answering (ms : Z) (r : Outcome JSValue JsError)
  : M (IdemState Z) JsError JSValue :=
  fun s => (r, mkIdemState (i_world s + ms)%Z (i_cache s)).

End Idempotency.

(** ** BatchProcessor *)

Module Batch.

Section Slicing.

Context {T : Type}.

(** [items.slice(a, b)]: a negative index counts from the end, and both are
    clamped to the array. *)
Definition relativeIndex (len k : Z) : Z :=
  if (k <? 0)%Z then Z.max (len + k) 0 else Z.min k len.

Definition jsSlice (a b : Z) (items : list T) : list T :=
  let len := Z.of_nat (length items) in
  let from := relativeIndex len a in
  let to := relativeIndex len b in
  firstn (Z.to_nat (to - from)) (skipn (Z.to_nat from) items).

(** [for (let i = 0; i < items.length; i += batchSize)
       batches.push(items.slice(i, i + batchSize))], from the index [i] on;
    [None] when the loop is not over after [fuel] turns. *)
Fixpoint batchLoop (fuel : nat) (i batchSize : Z) (items : list T)
  : option (list (list T)) :=
  if (i <? Z.of_nat (length items))%Z then
    match fuel with
    | O => None
    | S fuel' =>
        match batchLoop fuel' (i + batchSize)%Z batchSize items with
        | Some batches => Some (jsSlice i (i + batchSize) items :: batches)
        | None => None
        end
    end
  else Some [].

Definition batchesOf (fuel : nat) (batchSize : Z) (items : list T)
  : option (list (list T)) :=
  batchLoop fuel 0 batchSize items.

End Slicing.

(** The process as [processInBatches] sees it: the surroundings the
    processor works in, and the [delay] calls made so far. *)
Record BatchState (W : Type) : Type := mkBatchState {
  b_world : W;
  b_delays : list Z
}.
Arguments mkBatchState {W} _ _.
Arguments b_world {W} _.
Arguments b_delays {W} _.

Section Processing.

Context {W T R E : Type}.

(** [delay(ms)] as the surroundings see it. *)
Variable wait : Z -> W -> W.

(** The second loop of [processInBatches], from batch number [i] on. *)
Fixpoint processLoop (processor : list T -> nat -> M W E (list R))
  (delayBetweenBatchesMs : Z) (i : nat) (batches : list (list T))
  (results : list R) : M (BatchState W) E (list R) :=
  fun s =>
    match batches with
    | [] => (Ok results, s)
    | batch :: rest =>
        match processor batch i (b_world s) with
        | (Throw e, w) => (Throw e, mkBatchState w (b_delays s))
        | (Ok batchResults, w) =>
            let s1 := mkBatchState w (b_delays s) in
            let s2 :=
              if (delayBetweenBatchesMs >? 0)%Z && negb (Nat.eqb (length rest) 0)
              then mkBatchState (wait delayBetweenBatchesMs w)
                     (b_delays s ++ [delayBetweenBatchesMs])
              else s1 in
            processLoop processor delayBetweenBatchesMs (S i) rest
              (results ++ batchResults) s2
        end
    end.

(** [BatchProcessor.processInBatches]; [None] when the batching loop is not
    over after [fuel] turns. *)
Definition processInBatches (fuel : nat) (items : list T) (batchSize : Z)
  (processor : list T -> nat -> M W E (list R)) (delayBetweenBatchesMs : Z)
  : option (M (BatchState W) E (list R)) :=
  match batchesOf fuel batchSize items with
  | Some batches => Some (processLoop processor delayBetweenBatchesMs 0 batches [])
  | None => None
  end.

End Processing.

End Batch.

(** ** Observations on the throttle *)

Module ThrottleObservations.
Import Throttle.

Definition taskKey (t : Task) : string :=
  match t with
  | AwaitingPending key _ _ _ _ => key
  | AwaitingDelay key _ => key
  | AwaitingOperation key _ _ => key
  | Returned key _ _ _ => key
  | Rejected key => key
  end.

(** The key of the call an event belongs to. *)
Definition eventKey (st : State) (e : Event) : option string :=
  match e with
  | Call key _ => Some key
  | Elapse _ => None
  | Settle i _ | Resume i => option_map taskKey (tasks st !! i)
  end.

End ThrottleObservations.

(** * Properties *)

Module PhoneProps.
Import Phone.

Lemma stripNonDigits_allDigits (s : string) : allDigits (stripNonDigits s) = true.
Proof.
  induction s as [|c rest IH]; simpl; [reflexivity|].
  destruct (isDigit c) eqn:Hc; simpl; [rewrite Hc|]; exact IH.
Qed.

Lemma stripNonDigits_fixed (s : string) :
  allDigits s = true -> stripNonDigits s = s.
Proof.
  induction s as [|c rest IH]; simpl; [reflexivity|].
  intros H. apply andb_prop in H as [Hc Hr].
  rewrite Hc, (IH Hr). reflexivity.
Qed.

(** C10. [normalizePhoneDigits] returns decimal digits only, returns the empty
    string for the empty string and for a value that is not a string, and
    applying it to its own result changes nothing. *)
Theorem normalizePhoneDigits_digits_idempotent :
  forall v : JSValue,
    allDigits (normalizePhoneDigits v) = true
    /\ (isString v = false \/ v = JStr "" -> normalizePhoneDigits v = "")
    /\ normalizePhoneDigits (JStr (normalizePhoneDigits v)) = normalizePhoneDigits v.
Proof.
  intros v.
  assert (Hd : allDigits (normalizePhoneDigits v) = true).
  { destruct v; simpl; try reflexivity.
    destruct (String.eqb s ""); simpl; [reflexivity|apply stripNonDigits_allDigits]. }
  split; [exact Hd|]. split.
  - intros [Hs | ->]; [destruct v; simpl in *; try reflexivity; discriminate|reflexivity].
  - unfold normalizePhoneDigits at 1.
    destruct (negb (truthy (JStr (normalizePhoneDigits v)))) eqn:Ht.
    + simpl in Ht. apply negb_true_iff, negb_false_iff, String.eqb_eq in Ht.
      symmetry. exact Ht.
    + apply stripNonDigits_fixed, Hd.
Qed.

End PhoneProps.

Module BreakerProps.
Import Breaker Scenario.

Section Lifecycle.

Context {W T E : Type}.
Variable now : W -> Z.
Variable mkError : string -> E.

Abbreviation execute := (@Breaker.execute W T E now mkError).
Abbreviation executeSeq := (@Breaker.executeSeq W T E now mkError).
Abbreviation breakerAfter := (@Breaker.breakerAfter W T E now mkError).
Abbreviation settle := (@Breaker.settle W T E now).
Abbreviation Call := (@Breaker.Call W T E).
Abbreviation Operation := (@Breaker.Operation W T E).
Abbreviation finishTime := (@Breaker.finishTime W T E now).

Lemma executeSeq_snoc (b : CircuitBreaker) (calls : list Call) (c : Call) :
  executeSeq b (calls ++ [c]) = breakerAfter (executeSeq b calls) c.
Proof. unfold Breaker.executeSeq. rewrite fold_left_app. reflexivity. Qed.

Lemma enter_closed (b : CircuitBreaker) (t : Z) :
  state b = CLOSED -> enter b t = Entered b.
Proof. intros H. unfold enter. rewrite H. cbn. rewrite H. reflexivity. Qed.

Lemma enter_half_open (b : CircuitBreaker) (t : Z) :
  state b = HALF_OPEN ->
  enter b t = if halfOpenAttempts b >=? halfOpenMaxAttempts b
              then Rejected (reopen b t) exceededMessage else Entered b.
Proof. intros H. unfold enter. rewrite H. cbn. rewrite H. reflexivity. Qed.

Lemma counting_step (ft rt hm k : Z) (c : Call) :
  throws c ->
  breakerAfter (counting ft rt hm k) c =
    if k + 1 >=? ft then
      {| state := OPEN; failures := k + 1; lastFailureTime := finishTime c;
         failureThreshold := ft; resetTimeout := rt; halfOpenMaxAttempts := hm;
         halfOpenAttempts := k + 1; successCount := 0 |}
    else counting ft rt hm (k + 1).
Proof.
  intros Hc. destruct c as [op w]. unfold throws, finishTime in *.
  unfold Breaker.breakerAfter, Breaker.execute. cbn [fst snd] in *.
  rewrite enter_closed by reflexivity.
  destruct (op w) as [[v|e] w']; [discriminate|].
  cbn [Breaker.settle fst snd]. unfold onFailure. cbn.
  destruct (k + 1 >=? ft); reflexivity.
Qed.

Lemma fresh_counts (ft rt hm : Z) (calls : list Call) :
  Z.of_nat (length calls) < ft -> Forall throws calls ->
  executeSeq (newCircuitBreaker ft rt hm) calls
  = counting ft rt hm (Z.of_nat (length calls)).
Proof.
  induction calls as [|c calls IH] using rev_ind; intros Hlen Hall.
  - reflexivity.
  - rewrite length_app in Hlen. cbn [length] in Hlen.
    apply Forall_app in Hall as [Hinit Hc].
    inversion Hc as [|? ? Hthrow _]; subst.
    rewrite executeSeq_snoc, IH by (assumption || lia).
    rewrite counting_step by assumption.
    rewrite length_app. cbn [length].
    replace (Z.of_nat (length calls) + 1 >=? ft) with false
      by (symmetry; rewrite Z.geb_leb; apply Z.leb_gt; lia).
    f_equal. lia.
Qed.

Lemma fresh_trips (ft rt hm : Z) (calls : list Call) :
  1 <= ft -> Z.of_nat (length calls) = ft -> Forall throws calls ->
  exists init c, calls = (init ++ [c])%list
    /\ executeSeq (newCircuitBreaker ft rt hm) calls
       = tripped ft rt hm (finishTime c).
Proof.
  intros Hft Hlen Hall.
  destruct calls as [|c calls] using rev_ind; [cbn in Hlen; lia|].
  clear IHcalls. exists calls, c. split; [reflexivity|].
  rewrite length_app in Hlen. cbn [length] in Hlen.
  apply Forall_app in Hall as [Hinit Hc].
  inversion Hc as [|? ? Hthrow _]; subst.
  rewrite executeSeq_snoc, fresh_counts by (assumption || lia).
  rewrite counting_step by assumption.
  replace (Z.of_nat (length calls) + 1 >=? Z.of_nat (length calls + 1)) with true
    by (symmetry; rewrite Z.geb_leb; apply Z.leb_le; lia).
  unfold tripped. f_equal; lia.
Qed.

Lemma enter_tripped_early (ft rt hm t u : Z) :
  u - t <= rt ->
  enter (tripped ft rt hm t) u = Rejected (tripped ft rt hm t) openMessage.
Proof.
  intros H. unfold enter. cbn.
  replace (u - t >? rt) with false
    by (symmetry; rewrite Z.gtb_ltb; apply Z.ltb_ge; lia).
  reflexivity.
Qed.

Lemma enter_tripped_late (ft rt hm t u : Z) :
  1 <= hm -> u - t > rt ->
  enter (tripped ft rt hm t) u = Entered (toHalfOpen (tripped ft rt hm t)).
Proof.
  intros Hhm H. unfold enter. cbn.
  replace (u - t >? rt) with true
    by (symmetry; rewrite Z.gtb_ltb; apply Z.ltb_lt; lia).
  cbn.
  replace (0 >=? hm) with false
    by (symmetry; rewrite Z.geb_leb; apply Z.leb_gt; lia).
  reflexivity.
Qed.

Lemma probing_success (f ft rt hm t a sc : Z) (c : Call) :
  a < hm -> succeeds c ->
  breakerAfter (probing f ft rt hm t a sc) c =
    if sc + 1 >=? 3 then
      {| state := CLOSED; failures := 0; lastFailureTime := t;
         failureThreshold := ft; resetTimeout := rt; halfOpenMaxAttempts := hm;
         halfOpenAttempts := 0; successCount := 0 |}
    else probing 0 ft rt hm t 1 (sc + 1).
Proof.
  intros Ha Hc. destruct c as [op w]. unfold succeeds in Hc.
  unfold Breaker.breakerAfter, Breaker.execute, enter. cbn [fst snd] in *. cbn.
  replace (a >=? hm) with false
    by (symmetry; rewrite Z.geb_leb; apply Z.leb_gt; lia).
  destruct (op w) as [[v|e] w']; [|discriminate].
  cbn [Breaker.settle fst snd]. unfold onSuccess. cbn.
  destruct (sc + 1 >=? 3); reflexivity.
Qed.

(** C1. Starting from a new (CLOSED) breaker with a positive threshold,
    [failureThreshold] failed calls in a row leave it OPEN with the time of
    the last failure recorded; the next call is then rejected with the
    circuit-open error, the operation not being run, as long as no more than
    [resetTimeout] ms have passed since that failure; once more have passed
    the next call is let through in HALF_OPEN and runs the operation; three
    successful calls in a row from there close the breaker; and a failed call
    on any HALF_OPEN breaker reopens it with the current time as
    [lastFailureTime]. *)
Theorem circuit_breaker_lifecycle (ft rt hm : Z) (fails : list Call) :
  1 <= ft -> Z.of_nat (length fails) = ft -> Forall throws fails ->
  let b := executeSeq (newCircuitBreaker ft rt hm) fails in
  state b = OPEN
  /\ (exists init c, fails = (init ++ [c])%list /\ lastFailureTime b = finishTime c)
  /\ (forall (op : Operation) (w : W),
        now w - lastFailureTime b <= rt ->
        execute b op w = (Throw (mkError openMessage), b, w))
  /\ (forall (op : Operation) (w : W),
        1 <= hm -> now w - lastFailureTime b > rt ->
        enter b (now w) = Entered (toHalfOpen b)
        /\ state (toHalfOpen b) = HALF_OPEN
        /\ execute b op w = settle (toHalfOpen b) (op w))
  /\ (forall c1 c2 c3 : Call,
        2 <= hm -> now (snd c1) - lastFailureTime b > rt ->
        succeeds c1 -> succeeds c2 -> succeeds c3 ->
        state (executeSeq b [c1]) = HALF_OPEN
        /\ state (executeSeq b [c1; c2]) = HALF_OPEN
        /\ state (executeSeq b [c1; c2; c3]) = CLOSED)
  /\ (forall (h : CircuitBreaker) (op : Operation) (w : W),
        state h = HALF_OPEN -> throws (op, w) ->
        let r := execute h op w in
        isThrow (fst (fst r)) = true
        /\ state (snd (fst r)) = OPEN
        /\ lastFailureTime (snd (fst r)) = now (snd r)).
Proof.
  intros Hft Hlen Hall b.
  destruct (fresh_trips ft rt hm fails Hft Hlen Hall) as (init & c & Hfails & Hb).
  fold b in Hb. rewrite Hb. clear b Hb.
  split; [reflexivity|]. split; [exists init, c; split; [assumption|reflexivity]|].
  split; [|split; [|split]].
  - intros op w Hearly. unfold Breaker.execute.
    rewrite enter_tripped_early by exact Hearly. reflexivity.
  - intros op w Hhm Hlate. cbn [lastFailureTime tripped] in Hlate.
    split; [apply enter_tripped_late; assumption|].
    split; [reflexivity|].
    unfold Breaker.execute. rewrite enter_tripped_late by assumption. reflexivity.
  - intros c1 c2 c3 Hhm Hlate H1 H2 H3. cbn [lastFailureTime tripped] in Hlate.
    assert (Hfirst : breakerAfter (tripped ft rt hm (finishTime c)) c1
                     = probing 0 ft rt hm (finishTime c) 1 1).
    { destruct c1 as [op w]. unfold succeeds in H1. cbn [fst snd] in *.
      unfold Breaker.breakerAfter, Breaker.execute. cbn [fst snd].
      rewrite enter_tripped_late by (assumption || lia).
      destruct (op w) as [[v|e] w']; [|discriminate]. reflexivity. }
    unfold Breaker.executeSeq. cbn [fold_left]. rewrite Hfirst.
    split; [reflexivity|].
    rewrite probing_success by (assumption || lia).
    change (1 + 1 >=? 3) with false. cbv iota.
    split; [reflexivity|].
    rewrite probing_success by (assumption || lia). reflexivity.
  - intros h op w Hh Hthrow. unfold throws in Hthrow. cbn [fst snd] in Hthrow.
    cbv zeta. unfold Breaker.execute. rewrite enter_half_open by assumption.
    destruct (halfOpenAttempts h >=? halfOpenMaxAttempts h).
    + cbn. repeat split.
    + destruct (op w) as [[v|e] w']; [discriminate|].
      cbn [Breaker.settle fst snd]. unfold onFailure. rewrite Hh. cbn.
      repeat split.
Qed.

End Lifecycle.

Lemma circuit_breaker_lifecycle_witness :
  let b := Breaker.executeSeq (fun w => w) (fun m => m) defaultCircuitBreaker fiveFailures in
  state b = OPEN /\ lastFailureTime b = 410
  /\ Breaker.execute (fun w => w) (fun m => m) b (tick 10 false) 60410
     = (Throw openMessage, b, 60410)
  /\ Breaker.execute (fun w => w) (fun m => m) b (tick 10 false) 60411
     = (Ok tt, onSuccess (toHalfOpen b), 60421).
Proof.
  pose proof (circuit_breaker_lifecycle (fun w : Z => w) (fun m : string => m)
                5 60000 3 fiveFailures) as H.
  cbv zeta in H.
  destruct H as (Hopen & _ & Hreject & Hpass & _).
  - lia.
  - reflexivity.
  - repeat constructor.
  - split; [exact Hopen|]. split; [reflexivity|]. split.
    + apply Hreject. vm_compute. discriminate.
    + destruct (Hpass (tick 10 false) 60411) as (_ & _ & He); [lia|reflexivity|].
      exact He.
Defined.

End BreakerProps.

Module RequestProps.
Import Breaker Errors Request Scenario.

Lemma httpUrls_app (a b : list Event) :
  httpUrls (a ++ b) = (httpUrls a ++ httpUrls b)%list.
Proof. unfold httpUrls. rewrite List.map_app, List.concat_app. reflexivity. Qed.

Lemma sleeps_app (a b : list Event) :
  sleeps (a ++ b) = (sleeps a ++ sleeps b)%list.
Proof. unfold sleeps. rewrite List.map_app, List.concat_app. reflexivity. Qed.

Lemma maxAttempts_positive (c : LiraXCredentials) : (1 <= maxAttempts c)%Z.
Proof. unfold maxAttempts. lia. Qed.

(** With a retry count of at least one the executor makes one attempt more
    than the count. *)
Lemma maxAttempts_retries (c : LiraXCredentials) :
  (1 <= retries c)%Z -> maxAttempts c = (retries c + 1)%Z.
Proof.
  intros Hr. unfold maxAttempts.
  destruct (retries c =? 0)%Z eqn:Hz; [apply Z.eqb_eq in Hz; lia|lia].
Qed.

Section Executor.

Context {W : Type} `{Host W}.
Variable nodeApiProp : JsError -> string -> JSValue.
Variable JSON_parse : string -> option JSValue.
Variable credentials : LiraXCredentials.
Variable payload : list (string * JSValue).
Variable options : RequestOptions W.

Abbreviation attemptOnce := (attemptOnce credentials payload options).
Abbreviation attemptLoop := (attemptLoop nodeApiProp credentials payload options).
Abbreviation endpointLoop :=
  (endpointLoop nodeApiProp JSON_parse credentials payload options).
Abbreviation executeRequestWithRetry :=
  (executeRequestWithRetry nodeApiProp JSON_parse credentials payload options).
Abbreviation executeLiraxRequest :=
  (executeLiraxRequest nodeApiProp JSON_parse credentials payload options).
Abbreviation isRetryableError := (isRetryableError nodeApiProp).

(** An attempt leaves the breaker registry alone. *)
Lemma attemptOnce_breakers (base : string) (s : Sys W) :
  breakers (snd (attemptOnce base s)) = breakers s.
Proof.
  unfold Request.attemptOnce.
  destruct (match signal options with Some sig => sig (world s) | None => false end);
    [reflexivity|].
  destruct (generateRequestId (world s)) as [rid w1].
  match goal with |- context [httpRequest ?r ?w] =>
    destruct (httpRequest r w) as [[resp|e] w2] end; [|reflexivity].
  destruct (responseHasError resp); reflexivity.
Qed.

(** An attempt the endpoint answers with an error. *)
Lemma attemptOnce_error (P : JsError -> Prop) (base : string) (s : Sys W) :
  signal options = None ->
  (forall req w, req_url req = endpointUrl base ->
     exists e, fst (httpRequest req w) = Throw e /\ P e) ->
  exists e s1, attemptOnce base s = (Throw e, s1) /\ P e
    /\ trace s1 = (trace s ++ [EvHttp (endpointUrl base)])%list
    /\ breakers s1 = breakers s.
Proof.
  intros Hsig Hfail. unfold Request.attemptOnce. rewrite Hsig.
  destruct (generateRequestId (world s)) as [rid w1].
  match goal with |- context [httpRequest ?r ?w] =>
    destruct (Hfail r w eq_refl) as (e & He & HP);
    destruct (httpRequest r w) as [res w2] end.
  cbn [fst] in He. subst res.
  eexists e, _. repeat split; [exact HP].
Qed.

(** An attempt the endpoint answers with a response free of an [error]
    field. *)
Lemma attemptOnce_response (base : string) (response : JSValue) (s : Sys W) :
  signal options = None ->
  responseHasError response = false ->
  (forall req w, req_url req = endpointUrl base ->
     fst (httpRequest req w) = Ok response) ->
  exists s1, attemptOnce base s = (Ok response, s1)
    /\ trace s1 = (trace s ++ [EvHttp (endpointUrl base)])%list
    /\ breakers s1 = breakers s.
Proof.
  intros Hsig Hclean Hok. unfold Request.attemptOnce. rewrite Hsig.
  destruct (generateRequestId (world s)) as [rid w1].
  match goal with |- context [httpRequest ?r ?w] =>
    pose proof (Hok r w eq_refl) as He;
    destruct (httpRequest r w) as [res w2] end.
  cbn [fst] in He. subst res. rewrite Hclean.
  eexists. repeat split.
Qed.

(** Against an endpoint that only ever answers retryable errors the loop
    uses up every attempt it has left. *)
Lemma attemptLoop_exhausts (base : string) (left : nat) :
  signal options = None ->
  (forall req w, req_url req = endpointUrl base ->
     exists e, fst (httpRequest req w) = Throw e /\ isRetryableError e = true) ->
  forall (errs : list JsError) (s : Sys W),
    (1 <= left)%nat -> (Z.of_nat left <= maxAttempts credentials)%Z ->
    exists es s',
      attemptLoop left base errs s = (Ok (None, (errs ++ es)%list), s')
      /\ length es = left
      /\ httpUrls (trace s')
         = (httpUrls (trace s) ++ repeat (endpointUrl base) left)%list
      /\ breakers s' = breakers s.
Proof.
  intros Hsig Hfail. induction left as [|fewer IH]; intros errs s Hpos Hle; [lia|].
  cbn [Request.attemptLoop].
  destruct (attemptOnce_error (fun e => isRetryableError e = true) base s Hsig Hfail)
    as (e & s1 & Hrun & Hretry & Htrace & Hbrk).
  rewrite Hrun, Hretry. cbn [negb].
  destruct fewer as [|fewer'].
  - replace (maxAttempts credentials - Z.of_nat 1 =? maxAttempts credentials - 1)%Z
      with true by (symmetry; apply Z.eqb_eq; lia).
    exists [e], s1. repeat split; [|assumption].
    rewrite Htrace, httpUrls_app. reflexivity.
  - replace (maxAttempts credentials - Z.of_nat (S (S fewer'))
             =? maxAttempts credentials - 1)%Z
      with false by (symmetry; apply Z.eqb_neq; lia).
    destruct (calculateRetryDelay _ credentials (world s1)) as [delay w2].
    match goal with |- context [Request.attemptLoop _ _ _ _ _ _ _ ?s3] =>
      set (after := s3) end.
    assert (Hafter : httpUrls (trace after) = httpUrls (trace s1)
                     /\ breakers after = breakers s1).
    { subst after. unfold logEvent, setWorld.
      destruct (negb (Qle_bool delay 0)); cbn [trace breakers]; [|split; reflexivity].
      rewrite httpUrls_app. cbn. rewrite app_nil_r. split; reflexivity. }
    destruct Hafter as [Hurls Hb].
    destruct (IH (errs ++ [e])%list after) as (es & s' & Hloop & Hlen & Htr & Hbr);
      [lia|lia|].
    exists (e :: es), s'. rewrite Hloop. repeat split.
    + rewrite <- app_assoc. reflexivity.
    + cbn. rewrite Hlen. reflexivity.
    + rewrite Htr, Hurls, Htrace, httpUrls_app. cbn [repeat].
      rewrite <- app_assoc. reflexivity.
    + congruence.
Qed.

(** Failover: the first endpoint answers retryable errors only (HTTP 500),
    the second a clean response. Every attempt the executor has is spent on
    the first, then one on the second, whose response is returned. The
    number of attempts is [maxAttempts], which is [retries + 1] from one
    retry on. *)
Lemma failover_to_second_endpoint (A B : string) (response : JSValue) (s : Sys W) :
  validUrls credentials = [A; B] ->
  signal options = None ->
  (forall req w, req_url req = endpointUrl A ->
     exists e, fst (httpRequest req w) = Throw e /\ isRetryableError e = true) ->
  responseHasError response = false ->
  (forall req w, req_url req = endpointUrl B ->
     fst (httpRequest req w) = Ok response) ->
  exists s',
    executeRequestWithRetry s = (Ok response, s')
    /\ httpUrls (trace s')
       = (httpUrls (trace s)
          ++ repeat (endpointUrl A) (Z.to_nat (maxAttempts credentials))
          ++ [endpointUrl B])%list.
Proof.
  intros Hurls Hsig HA Hclean HB.
  pose proof (maxAttempts_positive credentials) as Hmax.
  unfold Request.executeRequestWithRetry. rewrite Hurls.
  cbn [Request.endpointLoop length]. unfold bind at 1.
  destruct (attemptLoop_exhausts A (Z.to_nat (maxAttempts credentials)) Hsig HA [] s)
    as (es & s1 & Hloop & _ & Htr & _); [lia|lia|].
  rewrite Hloop. cbn [fst snd]. unfold bind at 1.
  destruct (Z.to_nat (maxAttempts credentials)) as [|fewer] eqn:Hn; [lia|].
  cbn [Request.attemptLoop].
  destruct (attemptOnce_response B response s1 Hsig Hclean HB) as (s2 & Hrun & Htr2 & _).
  rewrite Hrun. cbn [fst]. unfold ret. exists s2. split; [reflexivity|].
  rewrite Htr2, httpUrls_app, Htr, <- app_assoc. reflexivity.
Qed.

(** C6 (amended). A single endpoint that answers HTTP 400, an error the
    executor does not class as retryable: exactly one HTTP attempt is made,
    nothing is slept, and the call fails at once with the aggregated
    failover error built over the HTTP 400 error. *)
Theorem single_endpoint_http400_fails_once (A : string) (e : JsError) (s : Sys W) :
  validUrls credentials = [A] ->
  signal options = None ->
  Errors.errProp nodeApiProp e "httpCode" = JNum 400 ->
  isRetryableError e = false ->
  (forall req w, req_url req = endpointUrl A -> fst (httpRequest req w) = Throw e) ->
  exists description s',
    executeRequestWithRetry s
    = (Throw (NodeApiError (Some e)
                ("All failover attempts failed for operation '"
                   ++ operationName payload ++ "'") description), s')
    /\ trace s' = (trace s ++ [EvHttp (endpointUrl A)])%list.
Proof.
  intros Hurls Hsig _ Hfinal Hfail.
  pose proof (maxAttempts_positive credentials) as Hmax.
  unfold Request.executeRequestWithRetry. rewrite Hurls.
  cbn [Request.endpointLoop length]. unfold bind at 1.
  destruct (Z.to_nat (maxAttempts credentials)) as [|fewer] eqn:Hn; [lia|].
  cbn [Request.attemptLoop].
  destruct (attemptOnce_error (fun x => x = e) A s Hsig) as (e' & s1 & Hrun & -> & Htr & _).
  { intros req w Hreq. exists e. split; [apply Hfail, Hreq|reflexivity]. }
  rewrite Hrun, Hfinal. cbn [negb fst snd app].
  eexists _, s1. split; [reflexivity|exact Htr].
Qed.

(** The loops of the executor leave the breaker registry alone. *)
Lemma attemptLoop_breakers (base : string) (left : nat) :
  forall (errs : list JsError) (s : Sys W),
    breakers (snd (attemptLoop left base errs s)) = breakers s.
Proof.
  induction left as [|fewer IH]; intros errs s; [reflexivity|].
  cbn [Request.attemptLoop].
  pose proof (attemptOnce_breakers base s) as Hb.
  destruct (attemptOnce base s) as [[resp|e] s1]; cbn [snd] in *; [exact Hb|].
  destruct (negb (isRetryableError e)); [exact Hb|].
  destruct (_ =? _)%Z; [exact Hb|].
  destruct (calculateRetryDelay _ credentials (world s1)) as [delay w2].
  rewrite IH. destruct (negb (Qle_bool delay 0)); exact Hb.
Qed.

Lemma endpointLoop_breakers (count : nat) (urls : list string) :
  forall (errs : list JsError) (s : Sys W),
    breakers (snd (endpointLoop count urls errs s)) = breakers s.
Proof.
  induction urls as [|base rest IH]; intros errs s; [reflexivity|].
  cbn [Request.endpointLoop]. unfold bind.
  pose proof (attemptLoop_breakers base (Z.to_nat (maxAttempts credentials)) errs s) as Hb.
  destruct (attemptLoop _ base errs s) as [[[resp errs1]|e] s1]; cbn [snd fst] in *;
    [|exact Hb].
  destruct resp; [exact Hb|]. rewrite IH. exact Hb.
Qed.

Lemma executeRequestWithRetry_breakers (s : Sys W) :
  breakers (snd (executeRequestWithRetry s)) = breakers s.
Proof.
  unfold Request.executeRequestWithRetry.
  destruct (validUrls credentials) as [|u us] eqn:Hu; [reflexivity|].
  apply endpointLoop_breakers.
Qed.

(** A request changes no breaker but the one registered under its own key:
    the registry does isolate credentials whose keys differ. *)
Lemma executeLiraxRequest_frame (key : string) (s : Sys W) :
  key <> breakerKey credentials ->
  breakers (snd (executeLiraxRequest s)) !! key = breakers s !! key.
Proof.
  intros Hkey. unfold Request.executeLiraxRequest.
  destruct (negb (bypassCircuitBreaker options));
    [|rewrite executeRequestWithRetry_breakers; reflexivity].
  assert (Hget : breakers (snd (getBreaker (breakerKey credentials) s)) !! key
                 = breakers s !! key).
  { unfold getBreaker. destruct (breakers s !! breakerKey credentials); [reflexivity|].
    cbn. apply lookup_insert_ne. congruence. }
  destruct (getBreaker (breakerKey credentials) s) as [b s0]. cbn [snd] in Hget.
  unfold Breaker.execute.
  destruct (enter b _) as [b1|b1 msg].
  - unfold Breaker.settle.
    pose proof (executeRequestWithRetry_breakers s0) as Hb.
    destruct (executeRequestWithRetry s0) as [[resp|e] s1]; cbn [snd] in *;
      unfold putBreaker; cbn [breakers];
      rewrite lookup_insert_ne by congruence; rewrite Hb; exact Hget.
  - unfold putBreaker. cbn [snd breakers].
    rewrite lookup_insert_ne by congruence. exact Hget.
Qed.

End Executor.

Lemma single_endpoint_http400_fails_once_witness :
  exists description s',
    Request.executeRequestWithRetry (H := scripted server400) noProps noParse
      (credentialsA "abc123xyz") makeCallPayload defaultOptions start
    = (Throw (NodeApiError (Some (httpError 400))
                "All failover attempts failed for operation 'makeCall'" description), s')
    /\ trace s' = [EvHttp (endpointUrl urlA)].
Proof.
  apply (single_endpoint_http400_fails_once (H := scripted server400) noProps noParse
           (credentialsA "abc123xyz") makeCallPayload defaultOptions urlA
           (httpError 400) start);
    [reflexivity | reflexivity | reflexivity | reflexivity | intros req w Hreq; reflexivity].
Defined.

(** C6, as stated, fails: the HTTP 400 does not surface as the validation
    error of the handler but under the aggregate failover message, with the
    breaker bypassed and, wrapped once more, through it. *)
Lemma http400_is_not_surfaced_as_validation_error :
  (exists e s',
      requestAs server400 (credentialsA "abc123xyz") bypassOptions start = (Throw e, s')
      /\ httpUrls (trace s') = [endpointUrl urlA]
      /\ errMessage e = "All failover attempts failed for operation 'makeCall'"
      /\ isValidationError "makeCall" e = false)
  /\ (exists e s',
      requestAs server400 (credentialsA "abc123xyz") defaultOptions start = (Throw e, s')
      /\ isValidationError "makeCall" e = false).
Proof.
  split; eexists _, _; (split; [vm_compute; reflexivity|]); repeat split.
Qed.

(** C3, at a retry count of zero: [retries || 3] takes the default, and the
    first endpoint is tried four times, not once, before the second one
    answers. *)
Theorem zero_retries_makes_four_attempts :
  maxAttempts (credentialsAB 0) = 4%Z
  /\ exists s',
      Request.executeRequestWithRetry (H := scripted serverAdownBup) noProps noParse
        (credentialsAB 0) makeCallPayload defaultOptions start
      = (Ok okResponse, s')
      /\ httpUrls (trace s')
         = [endpointUrl urlA; endpointUrl urlA; endpointUrl urlA; endpointUrl urlA;
            endpointUrl urlB].
Proof.
  split; [reflexivity|]. eexists. split; [vm_compute; reflexivity|reflexivity].
Qed.

(** C4, for two credential records that differ: neither carries an [id], so
    both requests go through the breaker registered under ['default']. Five
    failed requests with the first record open it, and the request with the
    second record, whose endpoint is healthy, is then rejected without any
    HTTP attempt; on a fresh process the same request succeeds. *)
Theorem distinct_credentials_share_default_breaker :
  let tenantA := credentialsA "token-of-A" in
  let tenantB := credentialsB "token-of-B" in
  let afterA :=
    runAll (repeat (requestAs serverAdownBup tenantA defaultOptions) 5) start in
  tenantA <> tenantB
  /\ breakerKey tenantA = "default" /\ breakerKey tenantB = "default"
  /\ (exists s', requestAs serverAdownBup tenantB defaultOptions start
                 = (Ok okResponse, s'))
  /\ (exists e s',
        requestAs serverAdownBup tenantB defaultOptions afterA = (Throw e, s')
        /\ errMessage e = failed "makeCall" openMessage
        /\ trace s' = trace afterA).
Proof.
  cbv zeta. split; [discriminate|]. split; [reflexivity|]. split; [reflexivity|].
  split.
  - eexists. vm_compute. reflexivity.
  - eexists _, _. split; [vm_compute; reflexivity|]. split; reflexivity.
Qed.

End RequestProps.

Module CoreProps.
Import Breaker Errors Request Core Scenario.

Lemma memoryGet_absent (t : Z) (p : MemoryCacheProvider) (key : string) :
  cache p !! makeKey p key = None ->
  fst (memoryGet t p key) = JNull
  /\ cache (snd (memoryGet t p key)) = cache p
  /\ keyPrefix (snd (memoryGet t p key)) = keyPrefix p.
Proof. intros Hnone. unfold memoryGet. rewrite Hnone. repeat split. Qed.

Lemma memoryGet_fresh (t : Z) (p : MemoryCacheProvider) (key : string)
  (v : JSValue) (expires : Z) :
  cache p !! makeKey p key = Some (v, expires) -> (t <= expires)%Z ->
  fst (memoryGet t p key) = v
  /\ cache (snd (memoryGet t p key)) = cache p
  /\ keyPrefix (snd (memoryGet t p key)) = keyPrefix p.
Proof.
  intros Hsome Hle. unfold memoryGet. rewrite Hsome.
  replace (t >? expires)%Z with false
    by (symmetry; rewrite Z.gtb_ltb; apply Z.ltb_ge; lia).
  repeat split.
Qed.

Lemma memorySet_lookup (t : Z) (p : MemoryCacheProvider) (key : string)
  (v : JSValue) (ttl : Z) :
  cache (memorySet t p key v (Some ttl)) !! makeKey (memorySet t p key v (Some ttl)) key
  = Some (v, expiryOf t (Some ttl)).
Proof. unfold memorySet, makeKey. cbn. apply lookup_insert_eq. Qed.

Section Orchestrator.

Context {W : Type} `{Host W} `{StoreHost W}.
Variable nodeApiProp : JsError -> string -> JSValue.
Variable JSON_parse : string -> option JSValue.
Variable schemaParse :
  string -> list (string * JSValue) -> Outcome (list (string * JSValue)) JsError.
Variable throttle :
  string -> Z -> M (Sys W) JsError JSValue -> M (Sys W) JsError JSValue.

Abbreviation executeOperation :=
  (Core.executeOperation nodeApiProp JSON_parse schemaParse throttle).
Abbreviation replay := (Core.replay nodeApiProp JSON_parse schemaParse throttle).
Abbreviation request := (Core.request nodeApiProp JSON_parse throttle).

Lemma cacheGet_memory (ref : nat) (key : string) (s : CoreSys W)
  (p : MemoryCacheProvider) :
  heap s !! ref = Some p ->
  cacheGet (MemoryCache ref) key s
  = (Ok (fst (memoryGet (now (world (sys s))) p key)),
     mkCoreSys (sys s) (<[ref := snd (memoryGet (now (world (sys s))) p key)]> (heap s))).
Proof.
  intros Hp. unfold cacheGet. rewrite Hp.
  destruct (memoryGet _ p key). reflexivity.
Qed.

Lemma cacheSet_memory (ref : nat) (key : string) (v : JSValue) (ttl : option Z)
  (s : CoreSys W) (p : MemoryCacheProvider) :
  heap s !! ref = Some p ->
  cacheSet (MemoryCache ref) key v ttl s
  = (Ok tt, mkCoreSys (sys s)
              (<[ref := memorySet (now (world (sys s))) p key v ttl]> (heap s))).
Proof. intros Hp. unfold cacheSet. rewrite Hp. reflexivity. Qed.

(** Replacing an object by one with the same entries changes no lookup. *)
Lemma entryAt_same_entries (x : Sys W) (s : CoreSys W) (ref : nat)
  (p p' : MemoryCacheProvider) (key : string) :
  heap s !! ref = Some p -> cache p' = cache p -> keyPrefix p' = keyPrefix p ->
  entryAt (mkCoreSys x (<[ref := p']> (heap s))) ref key = entryAt s ref key.
Proof.
  intros Hp Hc Hk. unfold entryAt. cbn [heap].
  rewrite list_lookup_insert_eq by (eapply lookup_lt_Some; exact Hp).
  rewrite Hp. unfold makeKey. rewrite Hc, Hk. reflexivity.
Qed.

(** A lookup that finds nothing under the key. *)
Lemma cacheGet_miss (ref : nat) (key : string) (s : CoreSys W) :
  is_Some (heap s !! ref) -> entryAt s ref key = None ->
  exists s', cacheGet (MemoryCache ref) key s = (Ok JNull, s')
    /\ sys s' = sys s
    /\ is_Some (heap s' !! ref)
    /\ forall k, entryAt s' ref k = entryAt s ref k.
Proof.
  intros [p Hp] Habsent. unfold entryAt in Habsent. rewrite Hp in Habsent.
  destruct (memoryGet_absent (now (world (sys s))) p key Habsent) as (Hv & Hc & Hk).
  rewrite (cacheGet_memory ref key s p Hp), Hv.
  eexists. split; [reflexivity|]. split; [reflexivity|]. split.
  - cbn [heap]. rewrite list_lookup_insert_eq by (eapply lookup_lt_Some; exact Hp).
    eexists; reflexivity.
  - intros k. apply (entryAt_same_entries _ s ref p); assumption.
Qed.

(** A lookup that finds an entry not yet expired. *)
Lemma cacheGet_hit (ref : nat) (key : string) (s : CoreSys W) (v : JSValue)
  (expires : Z) :
  entryAt s ref key = Some (v, expires) -> (now (world (sys s)) <= expires)%Z ->
  exists s', cacheGet (MemoryCache ref) key s = (Ok v, s')
    /\ sys s' = sys s
    /\ forall k, entryAt s' ref k = entryAt s ref k.
Proof.
  intros Hentry Hle. unfold entryAt in Hentry.
  destruct (heap s !! ref) as [p|] eqn:Hp; [|discriminate].
  destruct (memoryGet_fresh (now (world (sys s))) p key v expires Hentry Hle)
    as (Hv & Hc & Hk).
  rewrite (cacheGet_memory ref key s p Hp), Hv.
  eexists. split; [reflexivity|]. split; [reflexivity|].
  intros k. apply (entryAt_same_entries _ s ref p); assumption.
Qed.

(** A call that finds the result stored under its idempotency key returns it
    tagged, and neither sends a request nor changes an entry. *)
Lemma executeOperation_replays (core : LiraXCore) (ref : nat) (key : string)
  (r : JSValue) (expires : Z) (operation : string)
  (params : list (string * JSValue)) (options : ExecuteOptions) (s : CoreSys W) :
  core_cache core = MemoryCache ref ->
  nonEmpty (o_idempotencyKey options) = Some key ->
  entryAt s ref (idempotencyCacheKey key) = Some (r, expires) ->
  truthy r = true ->
  (now (world (sys s)) <= expires)%Z ->
  (forall ck, readCacheKey options = Some ck -> entryAt s ref ck = None) ->
  exists s',
    executeOperation core operation params options s
    = (Ok (tagged r idempotencyMeta), s')
    /\ sys s' = sys s
    /\ forall k, entryAt s' ref k = entryAt s ref k.
Proof.
  intros Hcore Hkey Hentry Htruthy Hle Hread.
  assert (Hheap : is_Some (heap s !! ref)).
  { unfold entryAt in Hentry. destruct (heap s !! ref); [eexists; reflexivity|discriminate]. }
  unfold Core.executeOperation. rewrite Hcore, Hkey.
  fold (readCacheKey options).
  assert (Hfirst : exists s0,
    (match readCacheKey options with
     | Some ck => bind (cacheGet (MemoryCache ref) ck)
                    (fun cached => ret (if truthy cached
                                        then Some (tagged cached cacheMeta) else None))
     | None => ret None
     end) s = (Ok None, s0)
    /\ sys s0 = sys s /\ forall k, entryAt s0 ref k = entryAt s ref k).
  { destruct (readCacheKey options) as [ck|] eqn:Hck.
    - destruct (cacheGet_miss ref ck s Hheap (Hread ck eq_refl))
        as (s0 & Hget & Hsys & _ & Hsame).
      exists s0. unfold bind. rewrite Hget. cbn. repeat split; assumption.
    - exists s. repeat split. }
  destruct Hfirst as (s0 & Hfirst & Hsys0 & Hsame0).
  unfold bind at 1. rewrite Hfirst.
  destruct (cacheGet_hit ref (idempotencyCacheKey key) s0 r expires)
    as (s' & Hget & Hsys & Hsame).
  { rewrite Hsame0. exact Hentry. }
  { rewrite Hsys0. exact Hle. }
  unfold bind. rewrite Hget, Htruthy. cbn.
  exists s'. split; [reflexivity|]. split; [congruence|].
  intros k. rewrite Hsame. apply Hsame0.
Qed.

(** A call that finds nothing under its keys and whose request succeeds
    stores the result under its idempotency key, with the expiry the TTL
    gives at the time the request returned. *)
Lemma executeOperation_stores (core : LiraXCore) (ref : nat) (key : string)
  (r : JSValue) (operation : string) (params : list (string * JSValue))
  (options : ExecuteOptions) (s0 s1 : CoreSys W) :
  core_cache core = MemoryCache ref ->
  nonEmpty (o_idempotencyKey options) = Some key ->
  is_Some (heap s0 !! ref) ->
  entryAt s0 ref (idempotencyCacheKey key) = None ->
  (forall ck, readCacheKey options = Some ck -> entryAt s0 ref ck = None) ->
  executeOperation core operation params options s0 = (Ok r, s1) ->
  entryAt s1 ref (idempotencyCacheKey key)
  = Some (r, expiryOf (now (world (sys s1))) (Some (idempotencyTTLOf options)))
  /\ exists validated sa sb,
       schemaParse operation params = Ok validated
       /\ sys sa = sys s0
       /\ request (core_credentials core)
            (objSet validated "cmd" (JStr operation)) sa = (Ok r, sb)
       /\ sys s1 = sys sb.
Proof.
  intros Hcore Hkey Hheap Hidem Hread.
  unfold Core.executeOperation. rewrite Hcore, Hkey.
  fold (readCacheKey options). fold (idempotencyTTLOf options).
  assert (Hfirst : exists sx,
    (match readCacheKey options with
     | Some ck => bind (cacheGet (MemoryCache ref) ck)
                    (fun cached => ret (if truthy cached
                                        then Some (tagged cached cacheMeta) else None))
     | None => ret None
     end) s0 = (Ok None, sx)
    /\ sys sx = sys s0 /\ is_Some (heap sx !! ref)
    /\ forall k, entryAt sx ref k = entryAt s0 ref k).
  { destruct (readCacheKey options) as [ck|] eqn:Hck.
    - destruct (cacheGet_miss ref ck s0 Hheap (Hread ck eq_refl))
        as (sx & Hget & Hsys & Hsome & Hsame).
      exists sx. unfold bind. rewrite Hget. cbn. repeat split; assumption.
    - exists s0. repeat split. assumption. }
  destruct Hfirst as (sx & Hfirst & Hsysx & Hheapx & Hsamex).
  unfold bind at 1. rewrite Hfirst.
  destruct (cacheGet_miss ref (idempotencyCacheKey key) sx Hheapx)
    as (sa & Hget & Hsysa & Hheapa & Hsamea).
  { rewrite Hsamex. exact Hidem. }
  unfold bind at 1. unfold bind at 1. rewrite Hget. cbn [truthy ret].
  destruct (schemaParse operation params) as [validated|e] eqn:Hparse;
    [|unfold throw; discriminate].
  unfold bind at 1.
  destruct (Core.request _ _ _ (core_credentials core) _ sa) as [[res|e] sb] eqn:Hreq;
    [|discriminate].
  assert (Hheapb : heap sb = heap sa).
  { unfold Core.request in Hreq.
    destruct (liraxRequest _ _ _ _ _ _ (sys sa)) as [r0 sys'].
    inversion Hreq. reflexivity. }
  destruct Hheapa as [pa Hpa].
  assert (Hstore : exists sc pc,
    (match readCacheKey options with
     | Some ck => cacheSet (MemoryCache ref) ck res
                    (Some match o_cacheTTL options with Some n => n | None => 3600%Z end)
     | None => ret tt
     end) sb = (Ok tt, sc)
    /\ sys sc = sys sb /\ heap sc !! ref = Some pc).
  { destruct (readCacheKey options) as [ck|].
    - rewrite (cacheSet_memory ref ck res _ sb pa) by (rewrite Hheapb; exact Hpa).
      eexists _, _. split; [reflexivity|]. split; [reflexivity|].
      cbn [heap]. apply list_lookup_insert_eq.
      rewrite Hheapb. eapply lookup_lt_Some. exact Hpa.
    - exists sb, pa. repeat split. rewrite Hheapb. exact Hpa. }
  destruct Hstore as (sc & pc & Hset & Hsysc & Hpc).
  unfold bind at 1. rewrite Hset.
  unfold bind at 1.
  rewrite (cacheSet_memory ref (idempotencyCacheKey key) res _ sc pc Hpc).
  unfold ret. intros Hrun. inversion Hrun; subst r s1. clear Hrun.
  split.
  - unfold entryAt. cbn [heap sys].
    rewrite list_lookup_insert_eq by (eapply lookup_lt_Some; exact Hpc).
    rewrite Hsysc. apply memorySet_lookup.
  - exists validated, sa, sb.
    split; [reflexivity|]. split; [congruence|]. split; [exact Hreq|exact Hsysc].
Qed.


(** Writing through one object changes no entry of another. *)
Lemma cacheSet_frame (ref other : nat) (key k : string) (v : JSValue)
  (ttl : option Z) (s : CoreSys W) :
  ref <> other ->
  entryAt (snd (cacheSet (MemoryCache ref) key v ttl s)) other k = entryAt s other k.
Proof.
  intros Hne. unfold cacheSet. destruct (heap s !! ref) as [p|]; [|reflexivity].
  unfold entryAt. cbn [snd heap]. rewrite list_lookup_insert_ne by exact Hne.
  reflexivity.
Qed.

(** The constructor with the in-memory provider puts a new, empty object on
    the heap and leaves the others as they are. *)
Lemma newLiraXCore_memory (context : CoreContext) (credentials : LiraXCredentials)
  (s : CoreSys W) :
  providerOfString (fst (cacheSettings context)) = memory ->
  exists options,
    newLiraXCore context credentials s
    = (mkCore (MemoryCache (length (heap s))) credentials,
       mkCoreSys (sys s) (heap s ++ [newMemoryCacheProvider options])).
Proof.
  intros Hmem. unfold newLiraXCore.
  destruct (cacheSettings context) as [provider options]. cbn [fst] in Hmem.
  rewrite Hmem. exists options. reflexivity.
Qed.

(** C9 (amended). With the in-memory provider every orchestrator holds a
    cache object of its own: two orchestrators built one after the other
    hold different objects; a value stored through the first is read back
    through the first while unexpired, and a read of the same key through
    the second finds nothing. *)
Theorem memory_cache_is_per_orchestrator (context1 context2 : CoreContext)
  (credentials1 credentials2 : LiraXCredentials) (key : string) (value : JSValue)
  (ttl : Z) (s s1 s2 : CoreSys W) (core1 core2 : LiraXCore) (w : W) :
  providerOfString (fst (cacheSettings context1)) = memory ->
  providerOfString (fst (cacheSettings context2)) = memory ->
  newLiraXCore context1 credentials1 s = (core1, s1) ->
  newLiraXCore context2 credentials2 s1 = (core2, s2) ->
  let s3 := snd (cacheSet (core_cache core1) key value (Some ttl) s2) in
  core_cache core1 <> core_cache core2
  /\ fst (cacheGet (core_cache core2) key (setCoreWorld w s3)) = Ok JNull
  /\ ((now w <= expiryOf (now (world (sys s2))) (Some ttl))%Z ->
      fst (cacheGet (core_cache core1) key (setCoreWorld w s3)) = Ok value).
Proof.
  intros Hm1 Hm2 Hnew1 Hnew2 s3.
  destruct (newLiraXCore_memory context1 credentials1 s Hm1) as (o1 & E1).
  destruct (newLiraXCore_memory context2 credentials2 s1 Hm2) as (o2 & E2).
  rewrite E1 in Hnew1. rewrite E2 in Hnew2.
  inversion Hnew1; subst core1 s1. inversion Hnew2; subst core2 s2. clear Hnew1 Hnew2.
  cbn [core_cache heap sys] in *.
  set (n := length (heap s)) in *.
  set (h2 := ((heap s ++ [newMemoryCacheProvider o1]) ++ [newMemoryCacheProvider o2])%list) in *.
  assert (H1 : h2 !! n = Some (newMemoryCacheProvider o1)).
  { subst h2 n. rewrite lookup_app_l by (rewrite length_app; cbn; lia).
    rewrite lookup_app_r by lia. rewrite Nat.sub_diag. reflexivity. }
  assert (H2 : h2 !! length (heap s ++ [newMemoryCacheProvider o1])
               = Some (newMemoryCacheProvider o2)).
  { subst h2. rewrite lookup_app_r by lia. rewrite Nat.sub_diag. reflexivity. }
  assert (Hne : n <> length (heap s ++ [newMemoryCacheProvider o1])).
  { subst n. rewrite length_app. cbn. lia. }
  split; [intros Heq; inversion Heq; contradiction|].
  subst s3.
  rewrite (cacheSet_memory n key value (Some ttl) (mkCoreSys (sys s) h2) _ H1).
  cbn [snd sys].
  split.
  - unfold cacheGet, setCoreWorld. cbn [heap sys].
    rewrite list_lookup_insert_ne by exact Hne. rewrite H2.
    unfold memoryGet. cbn [cache newMemoryCacheProvider].
    rewrite lookup_empty. reflexivity.
  - intros Hle.
    match goal with |- fst (cacheGet _ _ ?st) = _ =>
      destruct (cacheGet_hit n key st value
                  (expiryOf (now (world (sys s))) (Some ttl)))
        as (s' & Hget & _) end.
    + unfold entryAt, setCoreWorld. cbn [heap].
      rewrite list_lookup_insert_eq by (eapply lookup_lt_Some; exact H1).
      apply memorySet_lookup.
    + exact Hle.
    + rewrite Hget. reflexivity.
Qed.

End Orchestrator.



Lemma memory_cache_is_per_orchestrator_witness :
  let host := scripted serverAdownBup in
  let stored :=
    snd (cacheSet (H := host) (H0 := noStores) (core_cache (fst coreOne)) "users:all"
           okResponse (Some 3600%Z) (snd coreTwo)) in
  core_cache (fst coreOne) <> core_cache (fst coreTwo)
  /\ fst (cacheGet (H := host) (H0 := noStores) (core_cache (fst coreTwo)) "users:all"
            (setCoreWorld 1000%Z stored)) = Ok JNull
  /\ fst (cacheGet (H := host) (H0 := noStores) (core_cache (fst coreOne)) "users:all"
            (setCoreWorld 1000%Z stored)) = Ok okResponse.
Proof.
  cbv zeta.
  pose proof (memory_cache_is_per_orchestrator (H := scripted serverAdownBup)
                (H0 := noStores) plainContext plainContext
                (credentialsB "abc123xyz") (credentialsB "abc123xyz")
                "users:all" okResponse 3600%Z coreStart (snd coreOne) (snd coreTwo)
                (fst coreOne) (fst coreTwo) 1000%Z
                eq_refl eq_refl eq_refl eq_refl) as (Hne & Hother & Hown).
  split; [exact Hne|]. split; [exact Hother|].
  apply Hown. vm_compute. discriminate.
Defined.

(** C9, as stated, fails: two orchestrators with the default in-memory
    provider and the same key prefix; the value stored through the first is
    there for the first and absent for the second. *)
Lemma value_stored_by_one_orchestrator_is_absent_for_another :
  let host := scripted serverAdownBup in
  let stored :=
    snd (cacheSet (H := host) (H0 := noStores) (core_cache (fst coreOne)) "users:all"
           okResponse (Some 3600%Z) (snd coreTwo)) in
  fst (cacheGet (H := host) (H0 := noStores) (core_cache (fst coreOne)) "users:all" stored)
  = Ok okResponse
  /\ fst (cacheGet (H := host) (H0 := noStores) (core_cache (fst coreTwo)) "users:all" stored)
     = Ok JNull
  /\ (forall p1 p2, heap stored !! 0%nat = Some p1 -> heap stored !! 1%nat = Some p2 ->
                    keyPrefix p1 = keyPrefix p2).
Proof.
  cbv zeta. split; [reflexivity|]. split; [reflexivity|].
  intros p1 p2 H1 H2. vm_compute in H1, H2.
  injection H1 as <-. injection H2 as <-. reflexivity.
Qed.

End CoreProps.

Module ErrorsProps.
Import Errors Scenario.

Lemma objGet_objSet_eq (m : list (string * JSValue)) (k : string) (v : JSValue) :
  objGet (objSet m k v) k = v.
Proof.
  induction m as [|[k' v'] rest IH]; cbn.
  - rewrite String.eqb_refl. reflexivity.
  - destruct (String.eqb k' k) eqn:E; cbn; rewrite E; [reflexivity|exact IH].
Qed.

Lemma objGet_objSet_ne (m : list (string * JSValue)) (k k' : string) (v : JSValue) :
  k <> k' -> objGet (objSet m k v) k' = objGet m k'.
Proof.
  intros Hne. induction m as [|[k0 v0] rest IH]; cbn.
  - apply String.eqb_neq in Hne. rewrite Hne. reflexivity.
  - destruct (String.eqb k0 k) eqn:E; cbn.
    + apply String.eqb_eq in E. subst k0.
      apply String.eqb_neq in Hne. rewrite Hne. reflexivity.
    + destruct (String.eqb k0 k'); [reflexivity|exact IH].
Qed.

Lemma objGet_objDelete_eq (m : list (string * JSValue)) (k : string) :
  objGet (objDelete m k) k = JUndefined.
Proof.
  induction m as [|[k0 v0] rest IH]; cbn; [reflexivity|].
  destruct (String.eqb k0 k) eqn:E; cbn; [exact IH|]. rewrite E. exact IH.
Qed.

Lemma objGet_objDelete_ne (m : list (string * JSValue)) (k k' : string) :
  k <> k' -> objGet (objDelete m k) k' = objGet m k'.
Proof.
  intros Hne. induction m as [|[k0 v0] rest IH]; cbn; [reflexivity|].
  destruct (String.eqb k0 k) eqn:E; cbn.
  - apply String.eqb_eq in E. subst k0.
    apply String.eqb_neq in Hne. rewrite Hne. exact IH.
  - destruct (String.eqb k0 k'); [reflexivity|exact IH].
Qed.

Lemma objGet_maskField (m : list (string * JSValue)) (g f : string) :
  objGet (maskField m g) f
  = if String.eqb g f && truthy (objGet m f) then masked (objGet m f) else objGet m f.
Proof.
  unfold maskField. destruct (String.eqb g f) eqn:E; cbn [andb].
  - apply String.eqb_eq in E. subst g.
    destruct (truthy (objGet m f)); [apply objGet_objSet_eq|reflexivity].
  - apply String.eqb_neq in E.
    destruct (truthy (objGet m g)); [apply objGet_objSet_ne; exact E|reflexivity].
Qed.

(** After the masking pass a listed field that held a truthy value holds its
    mask, and every other field holds what it held. *)
Lemma objGet_maskFields (fields : list string) :
  NoDup fields ->
  forall (m : list (string * JSValue)) (f : string),
    objGet (fold_left maskField fields m) f
    = if existsb (String.eqb f) fields && truthy (objGet m f)
      then masked (objGet m f) else objGet m f.
Proof.
  induction 1 as [|g rest Hnotin Hnodup IH]; intros m f; [reflexivity|].
  cbn [fold_left existsb]. rewrite IH, objGet_maskField.
  destruct (String.eqb f g) eqn:E.
  - apply String.eqb_eq in E. subst g. rewrite String.eqb_refl.
    replace (existsb (String.eqb f) rest) with false.
    + cbn. destruct (truthy (objGet m f)); reflexivity.
    + symmetry. apply not_true_is_false. intros Hex.
      apply existsb_exists in Hex as (x & Hin & Hx).
      apply String.eqb_eq in Hx. subst x. apply Hnotin, list_elem_of_In, Hin.
  - rewrite String.eqb_sym, E. cbn [andb orb]. reflexivity.
Qed.

Lemma sensitiveFields_NoDup : NoDup sensitiveFields.
Proof.
  unfold sensitiveFields. repeat (constructor; [rewrite list_elem_of_In; cbn; intuition discriminate|]).
  constructor.
Qed.

Lemma maskString_truthy (v : string) : truthy (JStr (maskString v)) = true.
Proof.
  unfold maskString. destruct (4 <? String.length v)%nat eqn:E; [|reflexivity].
  apply Nat.ltb_lt in E.
  destruct (String.length v - 4)%nat as [|n] eqn:En; [lia|reflexivity].
Qed.

(** A field of the snapshot is the field of the masked, sanitized payload. *)
Lemma snapshot_field (context : ErrorContext) (f : string) :
  prop (requestSnapshot context) f
  = objGet (maskSensitiveData (sanitizedPayload context)) f.
Proof.
  unfold requestSnapshot. destruct (sanitizedPayload context) as [|kv rest]; reflexivity.
Qed.

Lemma existsb_In_true (f : string) (fields : list string) :
  In f fields -> existsb (String.eqb f) fields = true.
Proof.
  intros Hin. apply existsb_exists. exists f. split; [exact Hin|apply String.eqb_refl].
Qed.

Lemma existsb_notIn_false (f : string) (fields : list string) :
  ~ In f fields -> existsb (String.eqb f) fields = false.
Proof.
  intros Hnot. apply not_true_is_false. intros Hex.
  apply existsb_exists in Hex as (x & Hin & Hx).
  apply String.eqb_eq in Hx. subst x. exact (Hnot Hin).
Qed.

Section Handler.

Variable nodeApiProp : JsError -> string -> JSValue.
Variable JSON_parse : string -> option JSValue.

Abbreviation handle := (Errors.handle nodeApiProp JSON_parse).
Abbreviation detailsOf := (Errors.detailsOf nodeApiProp).
Abbreviation descriptionLines := (Errors.descriptionLines JSON_parse).

(** C7 (amended). For every error the handler surfaces: the payload snapshot
    it embeds never holds a truthy [token]; each of the fields [phone],
    [ani], [dnis], [to], [to1], [to2], [provider], [ext], [newext], [client]
    and [from_LiraX_token] that holds a truthy value is replaced by stars
    followed by its last four characters; a field that neither mask list of
    the repository names, an IP address among them, is embedded as it is.
    For the payload [{token: "abc123xyz", phone: "380501234567"}] the message
    does not depend on the payload, and the payload adds to the description
    only the snapshot [{"phone": "********4567"}], in which neither the token
    nor the twelve digits occur. *)
Theorem handler_masks_listed_fields_only (timestamp : string) (error : JsError)
  (context : ErrorContext) :
  truthy (prop (requestSnapshot context) "token") = false
  /\ (forall f, In f sensitiveFields -> f <> "token" ->
        truthy (objGet (payloadOf context) f) = true ->
        prop (requestSnapshot context) f
        = JStr (maskString (toStringJS (objGet (payloadOf context) f))))
  /\ (forall f, ~ In f sensitiveFields -> ~ In f utilsSensitiveFields ->
        prop (requestSnapshot context) f = objGet (payloadOf context) f)
  /\ (ctx_payload context = Some secretPayload ->
        let bare := mkContext (ctx_operation context) None (ctx_message context)
                      (ctx_resource context) in
        errMessage (handle timestamp error context)
        = errMessage (handle timestamp error bare)
        /\ (exists head tail,
              descriptionLines (detailsOf timestamp error context)
              = (head ++ secretBlock ++ tail)%list
              /\ descriptionLines (detailsOf timestamp error bare)
                 = (head ++ tail)%list)
        /\ Forall (fun line => includes line "abc123xyz" = false
                               /\ includes line "380501234567" = false) secretBlock).
Proof.
  split; [|split; [|split]].
  - rewrite snapshot_field. unfold maskSensitiveData.
    rewrite (objGet_maskFields _ sensitiveFields_NoDup).
    assert (Hfalsy : truthy (objGet (sanitizedPayload context) "token") = false).
    { unfold sanitizedPayload.
      destruct (truthy (objGet (payloadOf context) "token")) eqn:E; [|exact E].
      rewrite objGet_objDelete_eq. reflexivity. }
    rewrite Hfalsy, andb_false_r. exact Hfalsy.
  - intros f Hin Hne Htruthy. rewrite snapshot_field. unfold maskSensitiveData.
    rewrite (objGet_maskFields _ sensitiveFields_NoDup).
    assert (Hsame : objGet (sanitizedPayload context) f = objGet (payloadOf context) f).
    { unfold sanitizedPayload.
      destruct (truthy (objGet (payloadOf context) "token")); [|reflexivity].
      apply objGet_objDelete_ne. congruence. }
    rewrite Hsame, Htruthy, (existsb_In_true f _ Hin). reflexivity.
  - intros f Hnot _. rewrite snapshot_field. unfold maskSensitiveData.
    rewrite (objGet_maskFields _ sensitiveFields_NoDup).
    rewrite (existsb_notIn_false f _ Hnot). cbn [andb].
    unfold sanitizedPayload.
    destruct (truthy (objGet (payloadOf context) "token")); [|reflexivity].
    apply objGet_objDelete_ne. intros <-. apply Hnot. cbn. auto.
  - intros Hpayload. cbv zeta. split; [reflexivity|]. split.
    + exists (headLines (detailsOf timestamp error context)),
        (responseLines JSON_parse (detailsOf timestamp error context)).
      unfold Errors.descriptionLines. split; [|reflexivity].
      do 2 f_equal. unfold payloadLines, Errors.detailsOf.
      cbn [d_requestPayload].
      replace (requestSnapshot context) with (JObj [("phone", JStr "********4567")]);
        [reflexivity|].
      unfold requestSnapshot, sanitizedPayload, payloadOf. rewrite Hpayload.
      reflexivity.
    + repeat constructor.
Qed.

End Handler.

Lemma handler_masks_listed_fields_only_witness :
  let context := contextOf "sendSMS" (Some secretPayload) in
  let surfaced := Errors.handle noProps noParse "2024-01-01T00:00:00.000Z"
                    (httpError 400) context in
  requestSnapshot context = JObj [("phone", JStr "********4567")]
  /\ errMessage surfaced = validationMessage "sendSMS"
  /\ includes (errMessage surfaced) "abc123xyz" = false
  /\ includes (errMessage surfaced) "380501234567" = false
  /\ includes (errDescription surfaced) "abc123xyz" = false
  /\ includes (errDescription surfaced) "380501234567" = false
  /\ prop (requestSnapshot context) "phone" = JStr (maskString "380501234567").
Proof.
  cbv zeta.
  destruct (handler_masks_listed_fields_only noProps noParse
              "2024-01-01T00:00:00.000Z" (httpError 400)
              (contextOf "sendSMS" (Some secretPayload)))
    as (_ & Hmask & _ & _).
  do 6 (split; [reflexivity|]).
  apply (Hmask "phone"); [cbn; auto|discriminate|reflexivity].
Defined.

(** C7, as stated, fails: an IP address and an e-mail address in the payload
    reach the description of the surfaced error unmasked. *)
Lemma ip_and_email_are_surfaced_unmasked :
  includes (errDescription
              (Errors.handle noProps noParse "2024-01-01T00:00:00.000Z" (httpError 400)
                 (contextOf "addBlackIP" (Some addBlackIPPayload))))
    "203.0.113.7" = true
  /\ includes (errDescription
                 (Errors.handle noProps noParse "2024-01-01T00:00:00.000Z"
                    (httpError 400) (contextOf "getContact" (Some getContactPayload))))
       "anna@example.com" = true.
Proof. split; vm_compute; reflexivity. Qed.

End ErrorsProps.

Module ThrottleProps.
Import Throttle Scenario.

(** C8, on a key used before: the two later calls both find the entry of
    the finished call with nothing pending, both wait for the same moment,
    and both start their operation at 5000 ms. Two operations under one key
    are then in flight at once, started 0 ms apart. *)
Theorem two_waiting_calls_start_together :
  exists st,
    run twoCallsAfterOne initial = Some st
    /\ clock st = 5000%Z
    /\ tasks st = [Returned "sms:gw:101" 0 10 true;
                   AwaitingOperation "sms:gw:101" 1 5000;
                   AwaitingOperation "sms:gw:101" 2 5000]
    /\ inFlight "sms:gw:101" st = [5000%Z; 5000%Z].
Proof. eexists. split; [vm_compute; reflexivity|]. repeat split. Qed.

(** A call under a key that has no entry starts its operation at once,
    whatever the manager holds under other keys. *)
Lemma unused_key_starts_at_once (key : string) (delayMs : Z) (st : State) :
  throttleMap st !! key = None ->
  fst (begin key delayMs st) = AwaitingOperation key (nextPromise st) (clock st).
Proof. intros Hnone. unfold begin. rewrite Hnone. reflexivity. Qed.

Lemma step_call (key : string) (d : Z) (st : State) :
  step (Call key d) st
  = Some (mkState (clock (snd (begin key d st))) (throttleMap (snd (begin key d st)))
            (settled (snd (begin key d st))) (nextPromise (snd (begin key d st)))
            (tasks (snd (begin key d st)) ++ [fst (begin key d st)])).
Proof. unfold step. destruct (begin key d st). reflexivity. Qed.

(** On a key never used before, a second call made while the first is in
    flight waits for it, and then starts no earlier than [delayMs] after the
    first started. *)
Lemma second_call_on_unused_key_waits (key : string) (delayMs a b : Z) :
  (0 <= a)%Z -> (0 <= b)%Z ->
  exists st,
    run [Call key delayMs; Elapse a; Call key delayMs; Elapse b; Settle 0 true;
         Resume 1] initial = Some st
    /\ tasks st !! 0%nat = Some (Returned key 0 (a + b) true)
    /\ tasks st !! 1%nat
       = Some (if (a <? delayMs)%Z
               then AwaitingDelay key (a + b + (delayMs - a))
               else AwaitingOperation key 1 (a + b)).
Proof.
  intros Ha Hb.
  set (e0 := mkEntry 0 (Some 0%nat)).
  set (s1 := mkState 0 (<[key := e0]> ∅) ∅ 1 [AwaitingOperation key 0 0]).
  assert (H1 : step (Call key delayMs) initial = Some s1).
  { rewrite step_call. unfold begin, initial. cbn [throttleMap clock].
    rewrite lookup_empty. reflexivity. }
  set (s2 := mkState a (<[key := e0]> ∅) ∅ 1 [AwaitingOperation key 0 0]).
  assert (H2 : step (Elapse a) s1 = Some s2).
  { unfold step. replace (0 <=? a)%Z with true by (symmetry; apply Z.leb_le; exact Ha).
    reflexivity. }
  set (s3 := mkState a (<[key := e0]> ∅) ∅ 1
               [AwaitingOperation key 0 0; AwaitingPending key delayMs a e0 0]).
  assert (H3 : step (Call key delayMs) s2 = Some s3).
  { rewrite step_call. unfold begin, s2. cbn [throttleMap clock].
    rewrite lookup_insert_eq. reflexivity. }
  set (s4 := mkState (a + b) (<[key := e0]> ∅) ∅ 1
               [AwaitingOperation key 0 0; AwaitingPending key delayMs a e0 0]).
  assert (H4 : step (Elapse b) s3 = Some s4).
  { unfold step. replace (0 <=? b)%Z with true by (symmetry; apply Z.leb_le; exact Hb).
    reflexivity. }
  set (s5 := mkState (a + b) (<[key := mkEntry 0 None]> (<[key := e0]> ∅))
               (<[0%nat := true]> ∅) 1
               [Returned key 0 (a + b) true; AwaitingPending key delayMs a e0 0]).
  assert (H5 : step (Settle 0 true) s4 = Some s5).
  { unfold step, s4. cbn [tasks]. change (_ !! 0%nat) with (Some (AwaitingOperation key 0 0)).
    cbv iota. unfold release. cbn [throttleMap clock settled nextPromise tasks].
    rewrite lookup_insert_eq. reflexivity. }
  cbn [run]. rewrite H1, H2, H3, H4, H5. clear H1 H2 H3 H4 H5.
  unfold step, s5. cbn [tasks settled].
  rewrite (eq_refl : [Returned key 0 (a + b) true; AwaitingPending key delayMs a e0 0]
                       !! 1%nat = Some (AwaitingPending key delayMs a e0 0)).
  rewrite lookup_insert_eq. unfold afterPending, e0. cbn [lastRequestTime].
  replace (a - 0)%Z with a by lia.
  destruct (a <? delayMs)%Z; eexists; (split; [reflexivity|]); split; reflexivity.
Qed.

End ThrottleProps.

Module NodeProps.
Import Errors Request Node Scenario.

Section Messaging.

Context {W : Type} `{Host W}.
Variable nodeApiProp : JsError -> string -> JSValue.
Variable JSON_parse : string -> option JSValue.
Variable schemaParse :
  string -> list (string * JSValue) -> Outcome (list (string * JSValue)) JsError.
Variable getNodeParameter : string -> nat -> JSValue.

(** The request the node sends for an SMS payload is the plain request: the
    options of the node carry no throttle key. *)
Lemma node_helper_is_plain_request
  (throttle : string -> Z -> M (Sys W) JsError JSValue -> M (Sys W) JsError JSValue)
  (credentials : LiraXCredentials) (payload : list (string * JSValue))
  (provider ext : string) (options : NodeRequestOptions) :
  throttledSMSRequest nodeApiProp JSON_parse throttle credentials payload provider ext
    options
  = executeLiraxRequest nodeApiProp JSON_parse credentials payload
      (asRequestOptions options).
Proof. reflexivity. Qed.

(** The exported helper of LiraX.utils does enter the throttle, under the
    key [sms:{provider}:{ext}] and with the delay of 5000 ms. *)
Lemma utils_helper_enters_throttle
  (throttle : string -> Z -> M (Sys W) JsError JSValue -> M (Sys W) JsError JSValue)
  (credentials : LiraXCredentials) (payload : list (string * JSValue))
  (provider ext : string) (options : RequestOptions W) :
  utilsThrottledSMSRequest nodeApiProp JSON_parse throttle credentials payload
    provider ext options
  = throttle (createSMSThrottleKey provider ext) 5000%Z
      (executeLiraxRequest nodeApiProp JSON_parse credentials payload
         (withThrottleKey options (createSMSThrottleKey provider ext))).
Proof. reflexivity. Qed.

(** Whatever the throttle does, a messaging operation of the node runs as it
    does with a throttle that does nothing. *)
Lemma node_messaging_ignores_throttle
  (throttle : string -> Z -> M (Sys W) JsError JSValue -> M (Sys W) JsError JSValue)
  (i : nat) (operation : string) (credentials : LiraXCredentials)
  (options : NodeRequestOptions) (s : Sys W) :
  executeMessagingOperation nodeApiProp JSON_parse schemaParse throttle
    getNodeParameter i operation credentials options s
  = executeMessagingOperation nodeApiProp JSON_parse schemaParse plainThrottle
      getNodeParameter i operation credentials options s.
Proof.
  unfold executeMessagingOperation.
  repeat match goal with
         | |- context [String.eqb operation ?name] =>
             destruct (String.eqb operation name)
         end;
    try reflexivity.
Qed.

End Messaging.

(** C5, in the node: two [sendSMS] items and two [checkSMS] items for one
    provider and extension, run one after the other under a throttle that
    would hold each call back for 5000 ms. No call is held back: the four
    requests are on the wire within 200 ms, and each run is the run under a
    throttle that does nothing. *)
Theorem node_sms_requests_skip_the_throttle :
  let first := nodeMessaging "sendSMS" start in
  let second := nodeMessaging "sendSMS" (snd first) in
  let third := nodeMessaging "checkSMS" (snd second) in
  let fourth := nodeMessaging "checkSMS" (snd third) in
  createSMSThrottleKey "gw" "101" = "sms:gw:101"
  /\ fst first = Ok okResponse /\ fst second = Ok okResponse
  /\ fst third = Ok okResponse /\ fst fourth = Ok okResponse
  /\ httpUrls (trace (snd fourth))
     = [endpointUrl urlB; endpointUrl urlB; endpointUrl urlB; endpointUrl urlB]
  /\ world (snd second) = 100%Z
  /\ world (snd fourth) = 200%Z
  /\ (forall operation s,
        nodeMessaging operation s
        = Node.executeMessagingOperation (H := scripted serverAdownBup) noProps
            noParse acceptAll plainThrottle smsParameters 0 operation
            (credentialsB "abc123xyz") nodeOptions s).
Proof.
  cbv zeta. do 8 (split; [reflexivity|]).
  intros operation s. apply node_messaging_ignores_throttle.
Qed.

End NodeProps.

(** * Further properties of the code around the claims *)

Module BreakerInvariants.
Import Breaker Registry Scenario.

Lemma new_breaker_steady (ft rt hm : Z) :
  (1 <= ft)%Z -> (2 <= hm)%Z -> steady (newCircuitBreaker ft rt hm).
Proof. intros Hft Hhm. unfold steady. cbn. lia. Qed.

(** A steady breaker lets a call through or rejects it as OPEN; the
    rejection for a used-up probe budget does not arise. *)
Lemma steady_enter (b : CircuitBreaker) (t : Z) :
  steady b ->
  (exists b1, enter b t = Entered b1 /\ steady b1 /\ state b1 <> OPEN)
  \/ (enter b t = Rejected b openMessage /\ state b = OPEN).
Proof.
  intros Hb. pose proof Hb as (Hft & Hhm & Hf & Hsc & Hst).
  destruct (state b) eqn:Es.
  - left. exists b. rewrite (BreakerProps.enter_closed b t Es).
    split; [reflexivity|]. split; [exact Hb|congruence].
  - unfold enter. rewrite Es. cbn [BState_eqb].
    destruct (t - lastFailureTime b >? resetTimeout b)%Z; [|right; split; reflexivity].
    left. exists (toHalfOpen b). cbn.
    replace (0 >=? halfOpenMaxAttempts b)%Z with false
      by (symmetry; rewrite Z.geb_leb; apply Z.leb_gt; lia).
    split; [reflexivity|]. split; [|discriminate].
    unfold steady. cbn. lia.
  - left. exists b. rewrite (BreakerProps.enter_half_open b t Es).
    replace (halfOpenAttempts b >=? halfOpenMaxAttempts b)%Z with false
      by (symmetry; rewrite Z.geb_leb; apply Z.leb_gt; lia).
    split; [reflexivity|]. split; [exact Hb|congruence].
Qed.

Lemma steady_onSuccess (b : CircuitBreaker) :
  steady b -> state b <> OPEN -> steady (onSuccess b).
Proof.
  intros (Hft & Hhm & Hf & Hsc & Hst) Hopen. unfold onSuccess, steady.
  destruct (state b) eqn:Es; cbn [BState_eqb andb]; [cbn; lia|contradiction|].
  destruct (successCount b + 1 >=? 3)%Z eqn:E; cbn; [lia|].
  rewrite Z.geb_leb in E. apply Z.leb_gt in E. lia.
Qed.

Lemma steady_onFailure (b : CircuitBreaker) (t : Z) :
  steady b -> state b <> OPEN -> steady (onFailure b t).
Proof.
  intros (Hft & Hhm & Hf & Hsc & Hst) Hopen. unfold onFailure, steady.
  destruct (state b) eqn:Es; cbn [BState_eqb orb]; [|contradiction|cbn; lia].
  destruct (failures b + 1 >=? failureThreshold b)%Z eqn:E; cbn; [lia|].
  rewrite Z.geb_leb in E. apply Z.leb_gt in E. lia.
Qed.

Section Sequences.

Context {W T E : Type}.
Variable now : W -> Z.
Variable mkError : string -> E.

Abbreviation execute := (@Breaker.execute W T E now mkError).
Abbreviation executeSeq := (@Breaker.executeSeq W T E now mkError).
Abbreviation breakerAfter := (@Breaker.breakerAfter W T E now mkError).
Abbreviation Call := (@Breaker.Call W T E).

Lemma steady_breakerAfter (b : CircuitBreaker) (c : Call) :
  steady b -> steady (breakerAfter b c).
Proof.
  intros Hb. destruct c as [op w]. unfold Breaker.breakerAfter, Breaker.execute.
  cbn [fst snd].
  destruct (steady_enter b (now w) Hb) as [(b1 & He & Hb1 & Hnot)|[He _]];
    rewrite He; [|exact Hb].
  destruct (op w) as [[v|e] w']; cbn [Breaker.settle fst snd].
  - apply steady_onSuccess; assumption.
  - apply steady_onFailure; assumption.
Qed.

Lemma steady_executeSeq (b : CircuitBreaker) (calls : list Call) :
  steady b -> steady (executeSeq b calls).
Proof.
  revert b. induction calls as [|c calls IH]; intros b Hb; [exact Hb|].
  apply IH, steady_breakerAfter, Hb.
Qed.

(** X1. A breaker built with a positive threshold and a probe budget of at
    least two, used by calls made one after the other, is never rejected for
    a used-up probe budget: whenever it rejects, it is OPEN and rejects with
    the circuit-open error, leaving the operation alone; and while OPEN it
    has at least one failure counted, while CLOSED fewer than the
    threshold. *)
Theorem probe_budget_is_never_used_up (ft rt hm : Z) (calls : list Call)
  (op : W -> Outcome T E * W) (w : W) :
  (1 <= ft)%Z -> (2 <= hm)%Z ->
  let b := executeSeq (newCircuitBreaker ft rt hm) calls in
  (forall b' message, enter b (now w) = Rejected b' message ->
     message = openMessage /\ b' = b /\ state b = OPEN
     /\ execute b op w = (Throw (mkError openMessage), b, w))
  /\ (state b = OPEN -> (1 <= failures b)%Z)
  /\ (state b = CLOSED -> (0 <= failures b < failureThreshold b)%Z).
Proof.
  intros Hft Hhm b.
  assert (Hb : steady b) by (apply steady_executeSeq, new_breaker_steady; assumption).
  split; [|split].
  - intros b' message Hrej. unfold Breaker.execute.
    destruct (steady_enter b (now w) Hb) as [(b1 & He & _)|[He Hopen]];
      rewrite He in *; [discriminate|].
    inversion Hrej; subst b' message. repeat split. exact Hopen.
  - destruct Hb as (_ & _ & _ & _ & Hst). intros Hopen. rewrite Hopen in Hst. exact Hst.
  - destruct Hb as (_ & _ & Hf & _ & Hst). intros Hc. rewrite Hc in Hst. lia.
Qed.

(** Below the threshold a run of failures leaves a CLOSED breaker CLOSED,
    each failure counted. *)
Lemma closed_run_counts (calls : list Call) (b : CircuitBreaker) :
  state b = CLOSED ->
  (failures b + Z.of_nat (length calls) < failureThreshold b)%Z ->
  Forall throws calls ->
  state (executeSeq b calls) = CLOSED
  /\ failures (executeSeq b calls) = (failures b + Z.of_nat (length calls))%Z
  /\ failureThreshold (executeSeq b calls) = failureThreshold b.
Proof.
  revert b. induction calls as [|c calls IH]; intros b Hs Hlt Hall.
  - cbn. repeat split; [exact Hs|lia].
  - inversion Hall as [|c' l' Hc Hrest]; subst c' l'.
    cbn [length] in Hlt.
    assert (Hstep : state (breakerAfter b c) = CLOSED
                    /\ failures (breakerAfter b c) = (failures b + 1)%Z
                    /\ failureThreshold (breakerAfter b c) = failureThreshold b).
    { destruct c as [op w]. unfold throws in Hc. cbn [fst snd] in Hc.
      unfold Breaker.breakerAfter, Breaker.execute, enter. cbn [fst snd].
      rewrite Hs. cbn [BState_eqb]. rewrite Hs. cbn [BState_eqb andb].
      destruct (op w) as [[v|e] w']; [discriminate|].
      cbn [Breaker.settle fst snd]. unfold onFailure. rewrite Hs. cbn [BState_eqb orb].
      replace (failures b + 1 >=? failureThreshold b)%Z with false
        by (symmetry; rewrite Z.geb_leb; apply Z.leb_gt; lia).
      cbn. repeat split. }
    destruct Hstep as (Hs1 & Hf1 & Hft1).
    change (executeSeq b (c :: calls)) with (executeSeq (breakerAfter b c) calls).
    destruct (IH (breakerAfter b c)) as (Hs2 & Hf2 & Hft2);
      [exact Hs1|rewrite Hf1, Hft1; lia|exact Hrest|].
    split; [exact Hs2|]. split; [rewrite Hf2, Hf1; cbn [length]; lia|congruence].
Qed.

(** X2. Only failures in a row open the breaker: a success on a CLOSED
    breaker sets the count of failures back to zero, so after it fewer
    failures than the threshold leave the breaker CLOSED, however many
    failures came before the success. *)
Theorem success_resets_the_failure_count (b : CircuitBreaker) (ok : Call)
  (fails : list Call) :
  state b = CLOSED -> succeeds ok ->
  (Z.of_nat (length fails) < failureThreshold b)%Z ->
  Forall throws fails ->
  failures (breakerAfter b ok) = 0%Z
  /\ state (executeSeq b (ok :: fails)) = CLOSED
  /\ failures (executeSeq b (ok :: fails)) = Z.of_nat (length fails).
Proof.
  intros Hs Hok Hlen Hall.
  assert (Hstep : state (breakerAfter b ok) = CLOSED
                  /\ failures (breakerAfter b ok) = 0%Z
                  /\ failureThreshold (breakerAfter b ok) = failureThreshold b).
  { destruct ok as [op w]. unfold succeeds in Hok. cbn [fst snd] in Hok.
    unfold Breaker.breakerAfter, Breaker.execute, enter. cbn [fst snd].
    rewrite Hs. cbn [BState_eqb]. rewrite Hs. cbn [BState_eqb andb].
    destruct (op w) as [[v|e] w']; [|discriminate].
    cbn [Breaker.settle fst snd]. unfold onSuccess. rewrite Hs. cbn. repeat split. }
  destruct Hstep as (Hs1 & Hf1 & Hft1).
  split; [exact Hf1|].
  change (executeSeq b (ok :: fails)) with (executeSeq (breakerAfter b ok) fails).
  destruct (closed_run_counts fails (breakerAfter b ok)) as (Hs2 & Hf2 & _);
    [exact Hs1|rewrite Hf1, Hft1; lia|exact Hall|].
  split; [exact Hs2|rewrite Hf2, Hf1; lia].
Qed.

(** X3. The idle cleanup of the breaker registry deletes the breakers that
    count no failure and whose last failure is more than an hour old, and
    keeps every other breaker as it is; a breaker that is OPEN after calls
    made one after the other on a new breaker is therefore never deleted. *)
Theorem breaker_cleanup_keeps_failing_breakers (t : Z)
  (registry : gmap string CircuitBreaker) (key : string) :
  breakerCleanup t registry !! key
  = match registry !! key with
    | Some b => if staleBreaker t b then None else Some b
    | None => None
    end
  /\ (forall (ft rt hm : Z) (calls : list Call),
        (1 <= ft)%Z -> (2 <= hm)%Z ->
        let b := executeSeq (newCircuitBreaker ft rt hm) calls in
        state b = OPEN -> registry !! key = Some b ->
        breakerCleanup t registry !! key = Some b).
Proof.
  assert (Hlookup : breakerCleanup t registry !! key
                    = match registry !! key with
                      | Some b => if staleBreaker t b then None else Some b
                      | None => None
                      end).
  { unfold breakerCleanup. destruct (registry !! key) as [b|] eqn:Hk.
    - destruct (staleBreaker t b) eqn:Hstale.
      + apply map_lookup_filter_None. right. intros b' Hb'. cbn.
        rewrite Hk in Hb'. inversion Hb'; subst b'. rewrite Hstale. discriminate.
      + apply map_lookup_filter_Some. split; [exact Hk|exact Hstale].
    - apply map_lookup_filter_None. left. exact Hk. }
  split; [exact Hlookup|].
  intros ft rt hm calls Hft Hhm b Hopen Hk. rewrite Hlookup, Hk.
  pose proof (steady_executeSeq _ calls (new_breaker_steady ft rt hm Hft Hhm))
    as (_ & _ & _ & _ & Hst).
  fold b in Hst. rewrite Hopen in Hst.
  unfold staleBreaker.
  replace (failures b =? 0)%Z with false by (symmetry; apply Z.eqb_neq; lia).
  rewrite andb_false_r. reflexivity.
Qed.

End Sequences.

Lemma probe_budget_is_never_used_up_witness :
  let b := Breaker.executeSeq (fun w : Z => w) (fun m : string => m)
             defaultCircuitBreaker fiveFailures in
  state b = OPEN /\ (1 <= failures b)%Z
  /\ enter b 500 = Rejected b openMessage.
Proof.
  cbv zeta.
  destruct (probe_budget_is_never_used_up (fun w : Z => w) (fun m : string => m)
              5 60000 3 fiveFailures (tick 10 false) 500%Z) as (Hrej & Hopen & _);
    [lia|lia|].
  split; [reflexivity|]. split; [apply Hopen; reflexivity|].
  destruct (Hrej _ _ eq_refl) as (_ & _ & _ & _). reflexivity.
Defined.

Lemma success_resets_the_failure_count_witness :
  let calls := [(tick 10 true, 0%Z); (tick 10 true, 100%Z); (tick 10 true, 200%Z);
                (tick 10 true, 300%Z)] in
  let b := Breaker.executeSeq (fun w : Z => w) (fun m : string => m)
             defaultCircuitBreaker calls in
  failures b = 4%Z
  /\ state (Breaker.executeSeq (fun w : Z => w) (fun m : string => m) b
              ((tick 10 false, 400%Z) :: calls)) = CLOSED.
Proof.
  cbv zeta. split; [reflexivity|].
  apply (success_resets_the_failure_count (fun w : Z => w) (fun m : string => m));
    [reflexivity|reflexivity|vm_compute; reflexivity|repeat constructor].
Defined.

End BreakerInvariants.

Module RequestBounds.
Import Breaker Errors Request Scenario Observations RequestProps.

Lemma validUrls_at_most_two (c : LiraXCredentials) : (length (validUrls c) <= 2)%nat.
Proof.
  unfold validUrls. etransitivity; [apply List.filter_length_le|].
  unfold candidateUrls. destruct (nonEmpty (secondaryBaseUrl c)); cbn; lia.
Qed.

Lemma validUrls_wellformed (c : LiraXCredentials) (url : string) :
  In url (validUrls c) ->
  (startsWith url "http://" || startsWith url "https://") = true
  /\ (5 < String.length url)%nat.
Proof.
  unfold validUrls. intros Hin. apply List.filter_In in Hin as [_ Hvalid].
  unfold validUrl in Hvalid.
  apply andb_prop in Hvalid as [Hrest Hscheme].
  apply andb_prop in Hrest as [_ Hlen].
  split; [exact Hscheme|apply Nat.ltb_lt, Hlen].
Qed.

Section Executor.

Context {W : Type} `{Host W}.
Variable nodeApiProp : JsError -> string -> JSValue.
Variable JSON_parse : string -> option JSValue.
Variable credentials : LiraXCredentials.
Variable payload : list (string * JSValue).
Variable options : RequestOptions W.

Abbreviation attemptOnce := (attemptOnce credentials payload options).
Abbreviation attemptLoop := (attemptLoop nodeApiProp credentials payload options).
Abbreviation endpointLoop :=
  (endpointLoop nodeApiProp JSON_parse credentials payload options).
Abbreviation executeRequestWithRetry :=
  (executeRequestWithRetry nodeApiProp JSON_parse credentials payload options).
Abbreviation executeLiraxRequest :=
  (executeLiraxRequest nodeApiProp JSON_parse credentials payload options).
Abbreviation isRetryableError := (isRetryableError nodeApiProp).

Lemma adds_refl (s : Sys W) (https naps : nat) : adds s s https naps.
Proof. exists []. rewrite app_nil_r. cbn. repeat split; lia. Qed.

Lemma adds_trans (s1 s2 s3 : Sys W) (h1 n1 h2 n2 : nat) :
  adds s1 s2 h1 n1 -> adds s2 s3 h2 n2 -> adds s1 s3 (h1 + h2) (n1 + n2).
Proof.
  intros (t1 & E1 & H1 & N1) (t2 & E2 & H2 & N2). exists (t1 ++ t2)%list.
  rewrite E2, E1, <- app_assoc, httpUrls_app, sleeps_app, !length_app.
  repeat split; lia.
Qed.

Lemma adds_weaken (s s' : Sys W) (h n h' n' : nat) :
  adds s s' h n -> (h <= h')%nat -> (n <= n')%nat -> adds s s' h' n'.
Proof. intros (t & E & Hh & Hn) ? ?. exists t. repeat split; [exact E|lia|lia]. Qed.

Lemma attemptOnce_adds (base : string) (s : Sys W) :
  adds s (snd (attemptOnce base s)) 1 0.
Proof.
  unfold Request.attemptOnce.
  destruct (match signal options with Some sig => sig (world s) | None => false end);
    [apply adds_refl|].
  destruct (generateRequestId (world s)) as [rid w1].
  match goal with |- context [httpRequest ?r ?w] =>
    destruct (httpRequest r w) as [[resp|e] w2] end.
  - destruct (responseHasError resp); eexists; (split; [reflexivity|]); cbn; lia.
  - eexists; (split; [reflexivity|]); cbn; lia.
Qed.

Lemma attemptLoop_adds (base : string) (left : nat) :
  forall (errs : list JsError) (s : Sys W),
    adds s (snd (attemptLoop left base errs s)) left (left - 1).
Proof.
  induction left as [|fewer IH]; intros errs s; [apply adds_refl|].
  cbn [Request.attemptLoop].
  pose proof (attemptOnce_adds base s) as Hone.
  destruct (attemptOnce base s) as [[resp|e] s1]; cbn [snd] in *.
  - eapply adds_weaken; [exact Hone|lia|lia].
  - destruct (negb (isRetryableError e)); [eapply adds_weaken; [exact Hone|lia|lia]|].
    destruct (_ =? _)%Z eqn:Elast; [eapply adds_weaken; [exact Hone|lia|lia]|].
    assert (Hfewer : (1 <= fewer)%nat).
    { apply Z.eqb_neq in Elast. destruct fewer; [exfalso; apply Elast; lia|lia]. }
    destruct (calculateRetryDelay _ credentials (world s1)) as [delay w2].
    match goal with |- context [Request.attemptLoop _ _ _ _ _ _ _ ?s3] =>
      set (after := s3) end.
    assert (Hnap : adds s1 after 0 1).
    { subst after. unfold logEvent, setWorld.
      destruct (negb (Qle_bool delay 0)); cbn [trace].
      - exists [EvSleep delay]. split; [reflexivity|cbn; lia].
      - exists []. rewrite app_nil_r. split; [reflexivity|cbn; lia]. }
    eapply adds_weaken;
      [exact (adds_trans _ _ _ _ _ _ _ (adds_trans _ _ _ _ _ _ _ Hone Hnap)
                (IH (errs ++ [e])%list after))|lia|lia].
Qed.

Lemma endpointLoop_adds (count : nat) (urls : list string) :
  forall (errs : list JsError) (s : Sys W),
    adds s (snd (endpointLoop count urls errs s))
      (length urls * Z.to_nat (maxAttempts credentials))
      (length urls * (Z.to_nat (maxAttempts credentials) - 1)).
Proof.
  induction urls as [|base rest IH]; intros errs s; [apply adds_refl|].
  cbn [Request.endpointLoop]. unfold bind.
  pose proof (attemptLoop_adds base (Z.to_nat (maxAttempts credentials)) errs s) as Hloop.
  destruct (attemptLoop _ base errs s) as [[[resp errs1]|e] s1]; cbn [snd fst] in *.
  - destruct resp as [response|].
    + eapply adds_weaken; [exact Hloop| |]; cbn [length]; nia.
    + eapply adds_weaken; [exact (adds_trans _ _ _ _ _ _ _ Hloop (IH errs1 s1))| |];
        cbn [length]; nia.
  - eapply adds_weaken; [exact Hloop| |]; cbn [length]; nia.
Qed.

(** X4. Whatever the endpoints answer, one call of the executor only adds
    to the log, and adds at most [maxAttempts] HTTP attempts and one sleep
    fewer for each valid base URL, of which there are at most two. *)
Theorem attempts_are_bounded (s : Sys W) :
  let n := Z.to_nat (maxAttempts credentials) in
  exists tr,
    trace (snd (executeRequestWithRetry s)) = (trace s ++ tr)%list
    /\ (length (httpUrls tr) <= length (validUrls credentials) * n)%nat
    /\ (length (sleeps tr) <= length (validUrls credentials) * (n - 1))%nat
    /\ (length (httpUrls tr) <= 2 * n)%nat.
Proof.
  cbv zeta. pose proof (validUrls_at_most_two credentials) as Htwo.
  assert (Hadds : adds s (snd (executeRequestWithRetry s))
            (length (validUrls credentials) * Z.to_nat (maxAttempts credentials))
            (length (validUrls credentials) * (Z.to_nat (maxAttempts credentials) - 1))).
  { unfold Request.executeRequestWithRetry.
    destruct (validUrls credentials) as [|u us] eqn:Hu; [apply adds_refl|].
    apply endpointLoop_adds. }
  destruct Hadds as (tr & Htr & Hhttp & Hnap). exists tr.
  repeat split; try assumption. nia.
Qed.

(** X5. With no well-formed base URL configured the executor fails at once
    with the configuration error, and neither sends a request nor sleeps
    nor touches a breaker. *)
Theorem no_valid_url_fails_fast (s : Sys W) :
  validUrls credentials = [] ->
  exists e,
    executeRequestWithRetry s = (Throw e, s)
    /\ errMessage e
       = failed (operationName payload) "No valid base URLs configured".
Proof.
  intros Hnone. unfold Request.executeRequestWithRetry. rewrite Hnone.
  eexists. split; reflexivity.
Qed.

(** X6. When the first valid endpoint answers a response free of an [error]
    field, that response is returned after exactly one HTTP attempt: no
    sleep, and no other endpoint is contacted. *)
Theorem first_endpoint_success_returns_at_once (A : string) (others : list string)
  (response : JSValue) (s : Sys W) :
  validUrls credentials = A :: others ->
  signal options = None ->
  responseHasError response = false ->
  (forall req w, req_url req = endpointUrl A ->
     fst (httpRequest req w) = Ok response) ->
  exists s',
    executeRequestWithRetry s = (Ok response, s')
    /\ trace s' = (trace s ++ [EvHttp (endpointUrl A)])%list
    /\ breakers s' = breakers s.
Proof.
  intros Hurls Hsig Hclean Hok.
  pose proof (maxAttempts_positive credentials) as Hmax.
  unfold Request.executeRequestWithRetry. rewrite Hurls.
  cbn [Request.endpointLoop]. unfold bind.
  destruct (Z.to_nat (maxAttempts credentials)) as [|fewer] eqn:Hn; [lia|].
  cbn [Request.attemptLoop].
  destruct (attemptOnce_response credentials payload options A response s Hsig Hclean Hok)
    as (s1 & Hrun & Htr & Hbr).
  rewrite Hrun. cbn [fst]. unfold ret. exists s1. repeat split; assumption.
Qed.

(** X7. Failover with a retry count of at least one: the first endpoint
    answers retryable errors only, the second a clean response. The first
    is attempted [retries + 1] times, then the second once, and the
    response of the second is returned. *)
Theorem failover_after_all_retries (A B : string) (response : JSValue) (s : Sys W) :
  (1 <= retries credentials)%Z ->
  validUrls credentials = [A; B] ->
  signal options = None ->
  (forall req w, req_url req = endpointUrl A ->
     exists e, fst (httpRequest req w) = Throw e /\ isRetryableError e = true) ->
  responseHasError response = false ->
  (forall req w, req_url req = endpointUrl B ->
     fst (httpRequest req w) = Ok response) ->
  exists s',
    executeRequestWithRetry s = (Ok response, s')
    /\ httpUrls (trace s')
       = (httpUrls (trace s)
          ++ repeat (endpointUrl A) (Z.to_nat (retries credentials + 1))
          ++ [endpointUrl B])%list.
Proof.
  intros Hretries Hurls Hsig HA Hclean HB.
  rewrite <- (maxAttempts_retries credentials Hretries).
  apply failover_to_second_endpoint; assumption.
Qed.

(** X8. While the breaker registered for the credentials is OPEN and its
    reset timeout has not passed, a request is rejected with the
    circuit-open error: no HTTP attempt is made, no time passes, and the
    breaker stays as it is. *)
Theorem open_breaker_rejects_without_request (b : CircuitBreaker) (s : Sys W) :
  bypassCircuitBreaker options = false ->
  breakers s !! breakerKey credentials = Some b ->
  state b = OPEN ->
  (now (world s) - lastFailureTime b <= resetTimeout b)%Z ->
  exists e,
    executeLiraxRequest s = (Throw e, s)
    /\ errMessage e = failed (operationName payload) openMessage.
Proof.
  intros Hbypass Hb Hopen Hearly. unfold Request.executeLiraxRequest.
  rewrite Hbypass. cbn [negb]. unfold getBreaker. rewrite Hb.
  unfold Breaker.execute, enter. rewrite Hopen. cbn [BState_eqb].
  replace (now (world s) - lastFailureTime b >? resetTimeout b)%Z with false
    by (symmetry; rewrite Z.gtb_ltb; apply Z.ltb_ge; lia).
  assert (Hsame : putBreaker (breakerKey credentials) b s = s).
  { unfold putBreaker. rewrite (insert_id _ _ _ Hb). destruct s; reflexivity. }
  rewrite Hsame. eexists. split; reflexivity.
Qed.

(** A request changes no breaker of the registry but the one under the
    key of its credentials, and with [bypassCircuitBreaker] it changes
    none. *)
Theorem request_touches_only_its_own_breaker (key : string) (s : Sys W) :
  (key <> breakerKey credentials ->
   breakers (snd (executeLiraxRequest s)) !! key = breakers s !! key)
  /\ (bypassCircuitBreaker options = true ->
      breakers (snd (executeLiraxRequest s)) = breakers s).
Proof.
  split.
  - apply executeLiraxRequest_frame.
  - intros Hbypass. unfold Request.executeLiraxRequest. rewrite Hbypass. cbn [negb].
    apply executeRequestWithRetry_breakers.
Qed.


End Executor.

Lemma no_valid_url_fails_fast_witness :
  validUrls credentialsNoUrl = []
  /\ exists e,
       Request.executeRequestWithRetry (H := scripted serverAdownBup) noProps noParse
         credentialsNoUrl makeCallPayload defaultOptions start = (Throw e, start)
       /\ errMessage e = failed "makeCall" "No valid base URLs configured".
Proof.
  split; [reflexivity|].
  apply (no_valid_url_fails_fast (H := scripted serverAdownBup) noProps noParse
           credentialsNoUrl makeCallPayload defaultOptions start).
  reflexivity.
Defined.

Lemma first_endpoint_success_returns_at_once_witness :
  exists s',
    Request.executeRequestWithRetry (H := scripted serverAdownBup) noProps noParse
      (credentialsB "abc123xyz") makeCallPayload defaultOptions start
    = (Ok okResponse, s')
    /\ trace s' = [EvHttp (endpointUrl urlB)]
    /\ breakers s' = breakers start.
Proof.
  apply (first_endpoint_success_returns_at_once (H := scripted serverAdownBup)
           noProps noParse (credentialsB "abc123xyz") makeCallPayload defaultOptions
           urlB [] okResponse start);
    [reflexivity|reflexivity|reflexivity|].
  intros req w Hreq. cbn [scripted httpRequest fst]. unfold serverAdownBup.
  rewrite Hreq. reflexivity.
Defined.

Lemma failover_after_all_retries_witness :
  exists s',
    Request.executeRequestWithRetry (H := scripted serverAdownBup) noProps noParse
      (credentialsAB 2) makeCallPayload defaultOptions start
    = (Ok okResponse, s')
    /\ httpUrls (trace s')
       = [endpointUrl urlA; endpointUrl urlA; endpointUrl urlA; endpointUrl urlB].
Proof.
  apply (failover_after_all_retries (H := scripted serverAdownBup) noProps noParse
           (credentialsAB 2) makeCallPayload defaultOptions urlA urlB okResponse start).
  - cbn. lia.
  - reflexivity.
  - reflexivity.
  - intros req w Hreq. exists (httpError 500). cbn [scripted httpRequest fst].
    unfold serverAdownBup. rewrite Hreq, String.eqb_refl. split; reflexivity.
  - reflexivity.
  - intros req w Hreq. cbn [scripted httpRequest fst]. unfold serverAdownBup.
    rewrite Hreq. reflexivity.
Defined.

Lemma open_breaker_rejects_without_request_witness :
  exists e,
    Request.executeLiraxRequest (H := scripted serverAdownBup) noProps noParse
      (credentialsB "abc123xyz") makeCallPayload defaultOptions openSys
    = (Throw e, openSys)
    /\ errMessage e = failed "makeCall" openMessage.
Proof.
  apply (open_breaker_rejects_without_request (H := scripted serverAdownBup)
           noProps noParse (credentialsB "abc123xyz") makeCallPayload defaultOptions
           (tripped 5 60000 3 900) openSys);
    [reflexivity|reflexivity|reflexivity|vm_compute; discriminate].
Defined.


End RequestBounds.

(** ** Form encoding and endpoint URLs *)

Module EncodingProps.
Import Request Scenario Observations.

Lemma countChar_app (c : ascii) (a b : string) :
  countChar c (a ++ b) = (countChar c a + countChar c b)%nat.
Proof.
  induction a as [|x a IH]; [reflexivity|].
  change (countChar c (String x a ++ b)) with ((if Ascii.eqb x c then 1 else 0) + countChar c (a ++ b))%nat.
  rewrite IH. cbn [countChar]. lia.
Qed.

Lemma formEscape_no_separator (s : string) :
  countChar "&" (formEscape s) = 0%nat /\ countChar "=" (formEscape s) = 0%nat.
Proof.
  induction s as [|c rest [IH1 IH2]]; [split; reflexivity|].
  destruct c as [[] [] [] [] [] [] [] []]; cbn; split; assumption.
Qed.

Lemma countChar_join (c : ascii) (sep : string) (parts : list string) :
  countChar c (JS.join sep parts)
  = (list_sum (List.map (countChar c) parts) + (List.length parts - 1) * countChar c sep)%nat.
Proof.
  unfold JS.join. induction parts as [|p rest IH]; [reflexivity|].
  destruct rest as [|q rest'].
  - cbn. lia.
  - change (String.concat sep (p :: q :: rest'))
      with (p ++ sep ++ String.concat sep (q :: rest')).
    rewrite !countChar_app, IH. cbn [List.map list_sum List.length].
    rewrite !Nat.sub_succ, !Nat.sub_0_r. cbn [Nat.mul]. unfold list_sum. cbn [fold_right]. lia.
Qed.

Lemma formPairs_counts (kv : string * JSValue) :
  Forall (fun pair => countChar "&" pair = 0%nat /\ countChar "=" pair = 1%nat)
    (formPairs kv).
Proof.
  assert (Hpair : forall v,
    countChar "&" (formEscape (fst kv) ++ "=" ++ formEscape (toStringJS v)) = 0%nat
    /\ countChar "=" (formEscape (fst kv) ++ "=" ++ formEscape (toStringJS v)) = 1%nat).
  { intros v. rewrite !countChar_app.
    destruct (formEscape_no_separator (fst kv)) as [-> ->].
    destruct (formEscape_no_separator (toStringJS v)) as [-> ->]. split; reflexivity. }
  unfold formPairs. destruct (snd kv); try (constructor; [apply Hpair|constructor]);
    try constructor.
  apply Forall_map. apply Forall_forall. intros x _. apply Hpair.
Qed.

Lemma list_sum_zero (f : string -> nat) (l : list string) :
  Forall (fun x => f x = 0%nat) l -> list_sum (List.map f l) = 0%nat.
Proof.
  induction 1 as [|x l Hx _ IH]; [reflexivity|].
  change (list_sum (List.map f (x :: l))) with (f x + list_sum (List.map f l))%nat.
  rewrite Hx, IH. reflexivity.
Qed.

Lemma list_sum_ones (f : string -> nat) (l : list string) :
  Forall (fun x => f x = 1%nat) l -> list_sum (List.map f l) = List.length l.
Proof.
  induction 1 as [|x l Hx _ IH]; [reflexivity|].
  change (list_sum (List.map f (x :: l))) with (f x + list_sum (List.map f l))%nat.
  rewrite Hx, IH. reflexivity.
Qed.

(** X10. [formEncode]: no escaped key or value contains [&] or [=], so the
    encoded body has one [=] per appended pair and one [&] between two pairs;
    a field whose value is [undefined] or [null] leaves the body unchanged. *)
Theorem form_body_is_unambiguous (body : list (string * JSValue)) :
  let pairs := List.concat (List.map formPairs body) in
  countChar "&" (formEncode body) = (List.length pairs - 1)%nat
  /\ countChar "=" (formEncode body) = List.length pairs
  /\ (forall k, formEncode ((k, JUndefined) :: body) = formEncode body
               /\ formEncode ((k, JNull) :: body) = formEncode body).
Proof.
  cbv zeta. unfold formEncode.
  assert (Hall : Forall (fun pair => countChar "&" pair = 0%nat /\ countChar "=" pair = 1%nat)
                   (List.concat (List.map formPairs body))).
  { apply Forall_concat. apply Forall_map. apply Forall_forall. intros kv _.
    apply formPairs_counts. }
  rewrite !countChar_join. split; [|split].
  - rewrite list_sum_zero; [cbn; lia|].
    eapply Forall_impl; [exact Hall|]. intros x [Hx _]. exact Hx.
  - rewrite list_sum_ones; [cbn; lia|].
    eapply Forall_impl; [exact Hall|]. intros x [_ Hx]. exact Hx.
  - intros k. split; reflexivity.
Qed.

Lemma lastChar_cons (c : ascii) (s : string) :
  s <> EmptyString -> lastChar (String c s) = lastChar s.
Proof. destruct s; [congruence|reflexivity]. Qed.

Lemma strip_no_trailing_slash (s : string) :
  lastChar (stripTrailingSlashes s) <> Some "/"%char.
Proof.
  induction s as [|c rest IH]; [discriminate|].
  cbn [stripTrailingSlashes].
  destruct (stripTrailingSlashes rest) as [|k kept] eqn:E.
  - destruct (Ascii.eqb c "/") eqn:Ec; [discriminate|].
    cbn. intros Heq. inversion Heq; subst c. discriminate.
  - rewrite lastChar_cons by discriminate. exact IH.
Qed.

Lemma strip_fixed (s : string) :
  lastChar s <> Some "/"%char -> stripTrailingSlashes s = s.
Proof.
  induction s as [|c rest IH]; [reflexivity|]. intros Hlast.
  cbn [stripTrailingSlashes]. destruct rest as [|k rest'].
  - cbn. destruct (Ascii.eqb c "/") eqn:Ec; [|reflexivity].
    apply Ascii.eqb_eq in Ec. subst c. cbn in Hlast. congruence.
  - rewrite IH by (rewrite lastChar_cons in Hlast by discriminate; exact Hlast).
    reflexivity.
Qed.

Lemma strip_append_slash (s : string) :
  stripTrailingSlashes (s ++ "/") = stripTrailingSlashes s.
Proof.
  induction s as [|c rest IH]; [reflexivity|].
  change (String c rest ++ "/") with (String c (rest ++ "/")).
  cbn [stripTrailingSlashes]. rewrite IH. reflexivity.
Qed.

(** X11. The endpoint URL: the base is cut back to a text that ends in no
    slash, cutting twice changes nothing, one more trailing slash gives the
    same endpoint, and a base without a trailing slash only gets [/general]
    appended. *)
Theorem endpoint_url_ignores_trailing_slashes (base : string) :
  lastChar (stripTrailingSlashes base) <> Some "/"%char
  /\ stripTrailingSlashes (stripTrailingSlashes base) = stripTrailingSlashes base
  /\ endpointUrl (base ++ "/") = endpointUrl base
  /\ (lastChar base <> Some "/"%char -> endpointUrl base = base ++ "/general").
Proof.
  split; [apply strip_no_trailing_slash|].
  split; [apply strip_fixed, strip_no_trailing_slash|].
  split; [unfold endpointUrl; rewrite strip_append_slash; reflexivity|].
  intros H. unfold endpointUrl. rewrite strip_fixed by exact H. reflexivity.
Qed.

End EncodingProps.

(** ** The in-memory cache provider *)

Module MemoryProps.
Import Core MemoryOps.

Lemma makeKey_inj (p : MemoryCacheProvider) (k k' : string) :
  makeKey p k = makeKey p k' -> k = k'.
Proof.
  unfold makeKey. induction (keyPrefix p) as [|c rest IH]; intros Heq.
  - change (String ":" k = String ":" k') in Heq. congruence.
  - change (String c (rest ++ ":" ++ k) = String c (rest ++ ":" ++ k')) in Heq.
    injection Heq as Heq. exact (IH Heq).
Qed.

Lemma makeKey_memorySet (t : Z) (p : MemoryCacheProvider) (key k : string)
  (v : JSValue) (ttl : option Z) :
  makeKey (memorySet t p key v ttl) k = makeKey p k.
Proof. reflexivity. Qed.

Lemma memoryGet_after_set (t t' : Z) (p : MemoryCacheProvider) (key : string)
  (v : JSValue) (ttl : option Z) :
  let expires := expiryOf t (match ttl with Some n => Some n | None => toNumber (defaultTTL p) end) in
  memoryGet t' (memorySet t p key v ttl) key
  = if (t' >? expires)%Z
    then (JNull, mkMemoryCache (delete (makeKey p key) (<[makeKey p key := (v, expires)]> (cache p)))
                   (hits p) (misses p + 1) (defaultTTL p) (keyPrefix p))
    else (v, mkMemoryCache (<[makeKey p key := (v, expires)]> (cache p))
               (hits p + 1) (misses p) (defaultTTL p) (keyPrefix p)).
Proof.
  cbv zeta. unfold memoryGet. rewrite makeKey_memorySet.
  unfold memorySet at 1. cbn [cache]. rewrite lookup_insert_eq.
  reflexivity.
Qed.

(** X12. An entry stored with a positive TTL is read back, and counted as a
    hit, at every time up to and including [t + ttl * 1000]; the first read
    after that answers [null], is counted as a miss and removes the entry,
    so that every read after it misses whatever the clock says. *)
Theorem memory_entry_lives_until_expiry (t t' : Z) (p : MemoryCacheProvider)
  (key : string) (v : JSValue) (ttl : Z) :
  (0 < ttl)%Z ->
  let stored := memorySet t p key v (Some ttl) in
  let read := memoryGet t' stored key in
  ((t' <= t + ttl * 1000)%Z ->
   fst read = v /\ hits (snd read) = (hits p + 1)%Z /\ misses (snd read) = misses p)
  /\ ((t + ttl * 1000 < t')%Z ->
      fst read = JNull /\ hits (snd read) = hits p
      /\ misses (snd read) = (misses p + 1)%Z
      /\ forall t'', fst (memoryGet t'' (snd read) key) = JNull).
Proof.
  intros Hpos stored read. subst stored read. rewrite memoryGet_after_set.
  cbn [expiryOf]. replace (ttl >? 0)%Z with true by lia. split; intros Ht.
  - replace (t' >? t + ttl * 1000)%Z with false by lia. repeat split.
  - replace (t' >? t + ttl * 1000)%Z with true by lia.
    split; [reflexivity|]. split; [reflexivity|]. split; [reflexivity|].
    intros t''. cbn [snd]. unfold memoryGet. cbn [cache keyPrefix makeKey].
    unfold makeKey. cbn [keyPrefix]. rewrite lookup_delete_eq. reflexivity.
Qed.

Lemma memory_entry_lives_until_expiry_witness :
  let p := newMemoryCacheProvider (mkCacheOptions None None) in
  let stored := memorySet 1000 p "users:all" (JStr "u") (Some 60%Z) in
  fst (memoryGet 61000 stored "users:all") = JStr "u"
  /\ fst (memoryGet 61001 stored "users:all") = JNull
  /\ fst (memoryGet 0 (snd (memoryGet 61001 stored "users:all")) "users:all") = JNull.
Proof.
  intros p stored.
  destruct (memory_entry_lives_until_expiry 1000 61000 p "users:all" (JStr "u") 60
              ltac:(lia)) as [Hin _].
  destruct (memory_entry_lives_until_expiry 1000 61001 p "users:all" (JStr "u") 60
              ltac:(lia)) as [_ Hout].
  split; [apply Hin; lia|].
  destruct (Hout ltac:(lia)) as (Hnull & _ & _ & Hgone).
  split; [exact Hnull|apply Hgone].
Defined.

(** X13. A TTL that is zero or negative, and a missing TTL on a provider
    whose default TTL is zero, negative or no number, give an entry without
    expiry: it is read back at every time up to [Number.MAX_SAFE_INTEGER]. *)
Theorem memory_entry_without_expiry (t t' : Z) (p : MemoryCacheProvider)
  (key : string) (v : JSValue) (ttlSeconds : option Z) :
  match ttlSeconds with
  | Some n => (n <= 0)%Z
  | None => match toNumber (defaultTTL p) with Some n => (n <= 0)%Z | None => True end
  end ->
  (t' <= MAX_SAFE_INTEGER)%Z ->
  fst (memoryGet t' (memorySet t p key v ttlSeconds) key) = v.
Proof.
  intros Httl Ht. rewrite memoryGet_after_set.
  assert (Hexp : expiryOf t (match ttlSeconds with
                             | Some n => Some n
                             | None => toNumber (defaultTTL p)
                             end) = MAX_SAFE_INTEGER).
  { destruct ttlSeconds as [n|]; [|destruct (toNumber (defaultTTL p)) as [n|]];
      cbn [expiryOf]; try reflexivity; replace (n >? 0)%Z with false by lia; reflexivity. }
  rewrite Hexp. replace (t' >? MAX_SAFE_INTEGER)%Z with false by lia. reflexivity.
Qed.

Lemma memory_entry_without_expiry_witness :
  let p := newMemoryCacheProvider (mkCacheOptions (Some JUndefined) None) in
  fst (memoryGet 4102444800000 (memorySet 1000 p "shops:all" (JStr "s") None) "shops:all")
  = JStr "s".
Proof.
  intros p.
  apply (memory_entry_without_expiry 1000 4102444800000 p "shops:all" (JStr "s") None).
  - exact I.
  - unfold MAX_SAFE_INTEGER. lia.
Defined.

(** X14. Keys do not interfere: storing or deleting under one key changes
    neither the answer nor the counting of a read under another key of the
    same provider. *)
Theorem memory_keys_are_independent (t t' : Z) (p : MemoryCacheProvider)
  (key other : string) (v : JSValue) (ttlSeconds : option Z) :
  key <> other ->
  let after_set := memoryGet t' (memorySet t p key v ttlSeconds) other in
  let after_delete := memoryGet t' (memoryDelete p key) other in
  let before := memoryGet t' p other in
  fst after_set = fst before /\ fst after_delete = fst before
  /\ hits (snd after_set) = hits (snd before)
  /\ misses (snd after_set) = misses (snd before)
  /\ hits (snd after_delete) = hits (snd before)
  /\ misses (snd after_delete) = misses (snd before).
Proof.
  intros Hne after_set after_delete before. subst after_set after_delete before.
  assert (Hk : makeKey p key <> makeKey p other).
  { intros Heq. apply Hne. exact (makeKey_inj p key other Heq). }
  unfold memoryGet, memorySet, memoryDelete, makeKey in *. cbn [cache keyPrefix hits misses].
  rewrite lookup_insert_ne by exact Hk. rewrite lookup_delete_ne by exact Hk.
  destruct (cache p !! (keyPrefix p ++ ":" ++ other)) as [[d e]|]; [|repeat split].
  destruct (t' >? e)%Z; repeat split.
Qed.

Lemma memory_keys_are_independent_witness :
  let p := memorySet 0 (newMemoryCacheProvider (mkCacheOptions None None)) "shops:all"
             (JStr "s") None in
  fst (memoryGet 10 (memorySet 5 p "users:all" (JStr "u") None) "shops:all") = JStr "s"
  /\ fst (memoryGet 10 (memoryDelete p "users:all") "shops:all") = JStr "s".
Proof.
  intros p.
  destruct (memory_keys_are_independent 5 10 p "users:all" "shops:all" (JStr "u") None
              ltac:(discriminate)) as (Hset & Hdelete & _).
  split; [rewrite Hset|rewrite Hdelete]; reflexivity.
Defined.

Lemma performAll_app (a b : list (Z * CacheCall)) (p : MemoryCacheProvider) :
  performAll (a ++ b)%list p = performAll b (performAll a p).
Proof.
  revert p. induction a as [|[t c] a IH]; intros p; [reflexivity|].
  cbn [app performAll]. apply IH.
Qed.

Lemma memoryGet_counts (t : Z) (p : MemoryCacheProvider) (key : string) :
  let p' := snd (memoryGet t p key) in
  (hits p' + misses p' = hits p + misses p + 1)%Z
  /\ (hits p <= hits p')%Z /\ (misses p <= misses p')%Z.
Proof.
  unfold memoryGet. destruct (cache p !! makeKey p key) as [[d e]|]; [|cbn; lia].
  destruct (t >? e)%Z; cbn; lia.
Qed.

Lemma reads_without_clear (calls : list (Z * CacheCall)) (p : MemoryCacheProvider) :
  forallb (fun tc => negb (isClear (snd tc))) calls = true ->
  let p' := performAll calls p in
  (hits p' + misses p' = hits p + misses p + Z.of_nat (gets calls))%Z
  /\ (hits p <= hits p')%Z /\ (misses p <= misses p')%Z.
Proof.
  revert p. induction calls as [|[t c] rest IH]; intros p Hno.
  - cbn. lia.
  - cbn [forallb snd] in Hno. apply andb_prop in Hno as [Hc Hrest].
    specialize (IH (perform t c p) Hrest). cbv zeta in IH.
    cbn [performAll]. cbv zeta.
    assert (Hstep : (hits (perform t c p) + misses (perform t c p)
                     = hits p + misses p + (if isGet c then 1 else 0))%Z
                    /\ (hits p <= hits (perform t c p))%Z
                    /\ (misses p <= misses (perform t c p))%Z).
    { destruct c as [key|key v ttl|key|]; cbn [perform isGet];
        [apply memoryGet_counts|cbn; lia|cbn; lia|discriminate]. }
    unfold gets in *. cbn [List.filter snd].
    destruct (isGet c); cbn [length]; lia.
Qed.

(** X15. The two counters count the reads: over calls that contain no
    [clear()], [hits + misses] grows by exactly the number of [get] calls
    and neither counter goes down; and after a [clear()] the sum is the
    number of [get] calls made since, whatever happened before. *)
Theorem every_read_is_counted (before since : list (Z * CacheCall)) (t : Z)
  (p : MemoryCacheProvider) :
  forallb (fun tc => negb (isClear (snd tc))) since = true ->
  let p1 := performAll since p in
  let p2 := performAll (before ++ (t, CallClear) :: since)%list p in
  (stat_hits (getStats p1) + stat_misses (getStats p1)
   = hits p + misses p + Z.of_nat (gets since))%Z
  /\ (hits p <= stat_hits (getStats p1))%Z
  /\ (misses p <= stat_misses (getStats p1))%Z
  /\ (stat_hits (getStats p2) + stat_misses (getStats p2) = Z.of_nat (gets since))%Z.
Proof.
  intros Hno p1 p2. subst p1 p2. cbn [getStats stat_hits stat_misses].
  destruct (reads_without_clear since p Hno) as (Hsum & Hh & Hm).
  split; [exact Hsum|]. split; [exact Hh|]. split; [exact Hm|].
  rewrite performAll_app. cbn [performAll perform].
  destruct (reads_without_clear since (memoryClear (performAll before p)) Hno)
    as (Hsum' & _ & _).
  rewrite Hsum'. cbn. lia.
Qed.

Lemma every_read_is_counted_witness :
  let p := newMemoryCacheProvider (mkCacheOptions None None) in
  let since := [(10, CallGet "a"); (20, CallSet "a" (JStr "v") None); (30, CallGet "a");
                (40, CallDelete "a"); (50, CallGet "a")]%Z in
  let p2 := performAll ([(1, CallGet "z")] ++ (5, CallClear) :: since)%list p in
  (stat_hits (getStats p2) + stat_misses (getStats p2) = 3)%Z.
Proof.
  intros p since p2.
  destruct (every_read_is_counted [(1, CallGet "z")]%Z since 5 p eq_refl)
    as (_ & _ & _ & Hcount).
  exact Hcount.
Defined.

End MemoryProps.

(** ** What [executeOperation] does before and after the request *)

Module CoreFlow.
Import Breaker Errors Request Core Scenario CoreObservations CoreProps.

Section Orchestrator.

Context {W : Type} `{Host W} `{StoreHost W}.
Variable nodeApiProp : JsError -> string -> JSValue.
Variable JSON_parse : string -> option JSValue.
Variable schemaParse :
  string -> list (string * JSValue) -> Outcome (list (string * JSValue)) JsError.
Variable throttle :
  string -> Z -> M (Sys W) JsError JSValue -> M (Sys W) JsError JSValue.

Abbreviation executeOperation :=
  (Core.executeOperation nodeApiProp JSON_parse schemaParse throttle).
Abbreviation request := (Core.request nodeApiProp JSON_parse throttle).

Lemma shrinks_refl (s : CoreSys W) : shrinks s s.
Proof. intros ref key entry Hentry. exact Hentry. Qed.

Lemma shrinks_trans (a b c : CoreSys W) : shrinks a b -> shrinks b c -> shrinks a c.
Proof. intros Hab Hbc ref key entry Hentry. apply Hab, Hbc, Hentry. Qed.

Lemma quiet_refl (s : CoreSys W) : quiet s s.
Proof. split; reflexivity. Qed.

Lemma quiet_trans (a b c : CoreSys W) : quiet a b -> quiet b c -> quiet a c.
Proof. intros [Hab1 Hab2] [Hbc1 Hbc2]. split; congruence. Qed.

(** A read answers without throwing, sends nothing and adds no entry. *)
Lemma cacheGet_shrinks (handle : CacheHandle) (key : string) (s : CoreSys W) :
  exists v s', cacheGet handle key s = (Ok v, s') /\ quiet s s' /\ shrinks s s'.
Proof.
  unfold cacheGet. destruct handle as [ref|kind options].
  - destruct (heap s !! ref) as [p|] eqn:Hp.
    + destruct (memoryGet (now (world (sys s))) p key) as [v p'] eqn:Hget.
      exists v. eexists. split; [reflexivity|]. split; [split; reflexivity|].
      intros r k entry. unfold entryAt. cbn [heap].
      destruct (decide (r = ref)) as [->|Hne].
      * rewrite list_lookup_insert_eq by (eapply lookup_lt_Some; exact Hp).
        rewrite Hp. unfold memoryGet in Hget.
        destruct (cache p !! makeKey p key) as [[d e]|].
        -- destruct (now (world (sys s)) >? e)%Z; injection Hget as _ <-;
             unfold makeKey; cbn [cache keyPrefix]; [|tauto].
           intros Hl. apply lookup_delete_Some in Hl. tauto.
        -- injection Hget as _ <-. unfold makeKey. cbn [cache keyPrefix]. tauto.
      * rewrite list_lookup_insert_ne by congruence. tauto.
    + exists JNull, s. split; [reflexivity|]. split; [apply quiet_refl|apply shrinks_refl].
  - destruct (storeGet kind options key (world (sys s))) as [v w'].
    exists v. eexists. split; [reflexivity|]. split; [split; reflexivity|].
    intros r k entry Hentry. exact Hentry.
Qed.

(** The request leaves every cache object as it is. *)
Lemma request_heap (credentials : LiraXCredentials) (payload : list (string * JSValue))
  (s : CoreSys W) :
  heap (snd (request credentials payload s)) = heap s.
Proof.
  unfold Core.request.
  destruct (liraxRequest nodeApiProp JSON_parse credentials payload defaultOptions
              throttle (sys s)) as [r sys'].
  reflexivity.
Qed.

(** The ways a call can go: answered from one of the two keys, refused by
    the schema, or sent to the request layer after the reads. *)
Lemma executeOperation_cases (core : LiraXCore) (operation : string)
  (params : list (string * JSValue)) (options : ExecuteOptions) (s : CoreSys W) :
  exists sa, quiet s sa /\ shrinks s sa
    /\ ((exists cached meta,
           executeOperation core operation params options s
           = (Ok (tagged cached meta), sa))
        \/ (exists e, schemaParse operation params = Throw e
              /\ executeOperation core operation params options s = (Throw e, sa))
        \/ (exists validated e sb,
              schemaParse operation params = Ok validated
              /\ request (core_credentials core)
                   (objSet validated "cmd" (JStr operation)) sa = (Throw e, sb)
              /\ executeOperation core operation params options s = (Throw e, sb))
        \/ (exists validated r sb,
              schemaParse operation params = Ok validated
              /\ request (core_credentials core)
                   (objSet validated "cmd" (JStr operation)) sa = (Ok r, sb)
              /\ fst (executeOperation core operation params options s) = Ok r)).
Proof.
  remember (executeOperation core operation params options s) as run eqn:Hrun.
  unfold Core.executeOperation in Hrun. fold (readCacheKey options) in Hrun.
  set (handle := core_cache core) in Hrun.
  assert (Hfirst : exists o s0,
    (match readCacheKey options with
     | Some ck => bind (cacheGet handle ck)
                    (fun cached => ret (if truthy cached
                                        then Some (tagged cached cacheMeta) else None))
     | None => ret None
     end) s = (Ok o, s0)
    /\ quiet s s0 /\ shrinks s s0
    /\ (forall hit, o = Some hit -> exists cached meta, hit = tagged cached meta)).
  { destruct (readCacheKey options) as [ck|].
    - destruct (cacheGet_shrinks handle ck s) as (v & s0 & Hget & Hq & Hs).
      eexists. exists s0. unfold bind. rewrite Hget. cbn [ret].
      split; [reflexivity|]. split; [exact Hq|]. split; [exact Hs|].
      intros hit Hhit. destruct (truthy v); [|discriminate].
      injection Hhit as <-. eauto.
    - exists None, s. split; [reflexivity|].
      split; [apply quiet_refl|]. split; [apply shrinks_refl|]. discriminate. }
  destruct Hfirst as (o & s0 & Hfirst & Hq0 & Hs0 & Hhit0).
  unfold bind at 1 in Hrun. rewrite Hfirst in Hrun.
  destruct o as [hit|].
  { exists s0. split; [exact Hq0|]. split; [exact Hs0|]. left.
    destruct (Hhit0 hit eq_refl) as (cached & meta & ->). exists cached, meta. exact Hrun. }
  assert (Hsecond : exists o s1,
    (match nonEmpty (o_idempotencyKey options) with
     | Some key => bind (cacheGet handle (idempotencyCacheKey key))
                     (fun cachedResult =>
                        ret (if truthy cachedResult
                             then Some (tagged cachedResult idempotencyMeta) else None))
     | None => ret None
     end) s0 = (Ok o, s1)
    /\ quiet s0 s1 /\ shrinks s0 s1
    /\ (forall hit, o = Some hit -> exists cached meta, hit = tagged cached meta)).
  { destruct (nonEmpty (o_idempotencyKey options)) as [key|].
    - destruct (cacheGet_shrinks handle (idempotencyCacheKey key) s0)
        as (v & s1 & Hget & Hq & Hs).
      eexists. exists s1. unfold bind. rewrite Hget. cbn [ret].
      split; [reflexivity|]. split; [exact Hq|]. split; [exact Hs|].
      intros hit Hhit. destruct (truthy v); [|discriminate].
      injection Hhit as <-. eauto.
    - exists None, s0. split; [reflexivity|].
      split; [apply quiet_refl|]. split; [apply shrinks_refl|]. discriminate. }
  destruct Hsecond as (o & s1 & Hsecond & Hq1 & Hs1 & Hhit1).
  unfold bind at 1 in Hrun. rewrite Hsecond in Hrun.
  exists s1. split; [exact (quiet_trans _ _ _ Hq0 Hq1)|].
  split; [exact (shrinks_trans _ _ _ Hs0 Hs1)|].
  destruct o as [hit|].
  { left. destruct (Hhit1 hit eq_refl) as (cached & meta & ->).
    exists cached, meta. exact Hrun. }
  right. destruct (schemaParse operation params) as [validated|e].
  - right. cbv beta iota zeta in Hrun. unfold bind at 1 in Hrun.
    destruct (request (core_credentials core)
                (objSet validated "cmd" (JStr operation)) s1) as [[r|e] sb] eqn:Hreq.
    + right. exists validated, r, sb. split; [reflexivity|]. split; [first [exact Hreq|reflexivity]|].
      rewrite Hrun. unfold bind, cacheSet, ret.
      destruct (readCacheKey options); destruct (nonEmpty (o_idempotencyKey options));
        destruct handle; cbn;
        repeat match goal with
               | |- context [match ?l !! ?i with _ => _ end] => destruct (l !! i); cbn
               end; reflexivity.
    + left. exists validated, e, sb. split; [reflexivity|]. split; [first [exact Hreq|reflexivity]|].
      exact Hrun.
  - left. exists e. split; [reflexivity|exact Hrun].
Qed.

(** X16. A call that reads the cache under [cacheKey] and finds a truthy
    entry there that has not expired returns it tagged
    [_meta = {fromCache: true}] at once: the parameters are not validated,
    the idempotency key is not looked at, nothing is sent and no entry
    changes. *)
Theorem read_cache_hit_answers_at_once (core : LiraXCore) (ref : nat)
  (ck : string) (r : JSValue) (expires : Z) (operation : string)
  (params : list (string * JSValue)) (options : ExecuteOptions) (s : CoreSys W) :
  core_cache core = MemoryCache ref ->
  readCacheKey options = Some ck ->
  entryAt s ref ck = Some (r, expires) ->
  truthy r = true ->
  (now (world (sys s)) <= expires)%Z ->
  exists s',
    executeOperation core operation params options s = (Ok (tagged r cacheMeta), s')
    /\ sys s' = sys s
    /\ forall k, entryAt s' ref k = entryAt s ref k.
Proof.
  intros Hcore Hck Hentry Htruthy Hle.
  unfold Core.executeOperation. fold (readCacheKey options). rewrite Hcore, Hck.
  destruct (cacheGet_hit ref ck s r expires Hentry Hle) as (s' & Hget & Hsys & Hsame).
  exists s'. unfold bind. rewrite Hget. cbn [ret]. rewrite Htruthy.
  split; [reflexivity|]. split; assumption.
Qed.

(** X17. Parameters the schema refuses send nothing: the call is either
    answered from the cache or throws the schema's error, and in both cases
    the log of requests and sleeps and the circuit breakers are as before
    and no cache object has gained an entry. *)
Theorem refused_parameters_send_nothing (core : LiraXCore) (operation : string)
  (params : list (string * JSValue)) (options : ExecuteOptions) (s : CoreSys W)
  (e : JsError) :
  schemaParse operation params = Throw e ->
  let run := executeOperation core operation params options s in
  (fst run = Throw e \/ exists cached meta, fst run = Ok (tagged cached meta))
  /\ quiet s (snd run) /\ shrinks s (snd run).
Proof.
  intros Hparse run. subst run.
  destruct (executeOperation_cases core operation params options s)
    as (sa & Hq & Hs & [Hhit | [Hrefused | [Hfail | Hsent]]]).
  - destruct Hhit as (cached & meta & ->). cbn [fst snd]. eauto 6.
  - destruct Hrefused as (e' & He' & ->). cbn [fst snd].
    rewrite Hparse in He'. injection He' as <-. auto.
  - destruct Hfail as (validated & e' & sb & Hv & _). congruence.
  - destruct Hsent as (validated & r & sb & Hv & _). congruence.
Qed.

(** X18. A call that throws stores nothing: whatever the provider, no cache
    object holds an entry afterwards that it did not hold before. *)
Theorem failed_call_stores_nothing (core : LiraXCore) (operation : string)
  (params : list (string * JSValue)) (options : ExecuteOptions) (s s' : CoreSys W)
  (e : JsError) :
  executeOperation core operation params options s = (Throw e, s') ->
  shrinks s s'.
Proof.
  intros Hrun.
  destruct (executeOperation_cases core operation params options s)
    as (sa & Hq & Hs & [Hhit | [Hrefused | [Hfail | Hsent]]]).
  - destruct Hhit as (cached & meta & Heq). congruence.
  - destruct Hrefused as (e' & _ & Heq). rewrite Heq in Hrun.
    injection Hrun as _ <-. exact Hs.
  - destruct Hfail as (validated & e' & sb & _ & Hreq & Heq).
    rewrite Heq in Hrun. injection Hrun as _ <-.
    intros ref key entry Hentry. apply Hs.
    pose proof (request_heap (core_credentials core)
                  (objSet validated "cmd" (JStr operation)) sa) as Hheap.
    rewrite Hreq in Hheap. cbn [snd] in Hheap.
    unfold entryAt in *. rewrite <- Hheap. exact Hentry.
  - destruct Hsent as (validated & r & sb & _ & _ & Heq).
    rewrite Hrun in Heq. discriminate.
Qed.

End Orchestrator.

Lemma read_cache_hit_answers_at_once_witness :
  let stored :=
    setCoreWorld 1000%Z
      (snd (executeAs (scripted serverAdownBup) (cachedIdempotentOptions "k1" "calls")
              (snd coreOne))) in
  exists s',
    Core.executeOperation (H := scripted serverReset) (H0 := noStores) noProps noParse
      refuseAll plainThrottle (fst coreOne) "makeCall" []
      (cachedIdempotentOptions "k2" "calls") stored
    = (Ok (tagged okResponse cacheMeta), s')
    /\ sys s' = sys stored
    /\ forall k, entryAt s' 0%nat k = entryAt stored 0%nat k.
Proof.
  cbv zeta.
  eapply (read_cache_hit_answers_at_once (H := scripted serverReset) (H0 := noStores)
            noProps noParse refuseAll plainThrottle (fst coreOne) 0%nat "calls"
            okResponse).
  - reflexivity.
  - reflexivity.
  - vm_compute. reflexivity.
  - reflexivity.
  - vm_compute. discriminate.
Defined.

Lemma refused_parameters_send_nothing_witness :
  let run :=
    Core.executeOperation (H := scripted serverAdownBup) (H0 := noStores) noProps noParse
      refuseAll plainThrottle (fst coreOne) "makeCall" makeCallParams
      (idempotentOptions "k1") (snd coreOne) in
  (fst run = Throw (newError "Required")
   \/ exists cached meta, fst run = Ok (tagged cached meta))
  /\ quiet (snd coreOne) (snd run) /\ shrinks (snd coreOne) (snd run).
Proof.
  apply (refused_parameters_send_nothing (H := scripted serverAdownBup) (H0 := noStores)
           noProps noParse refuseAll plainThrottle (fst coreOne) "makeCall"
           makeCallParams (idempotentOptions "k1") (snd coreOne)).
  reflexivity.
Defined.

Lemma failed_call_stores_nothing_witness :
  shrinks (snd coreOne)
    (snd (executeAs (timed serverUpLater) (idempotentOptions "k1") (snd coreOne))).
Proof.
  destruct (executeAs (timed serverUpLater) (idempotentOptions "k1") (snd coreOne))
    as [[r|e] s'] eqn:Hrun; [vm_compute in Hrun; discriminate|].
  exact (failed_call_stores_nothing (H := timed serverUpLater) (H0 := noStores)
           noProps noParse acceptAll plainThrottle (fst coreOne) "makeCall"
           makeCallParams (idempotentOptions "k1") (snd coreOne) s' e Hrun).
Defined.

End CoreFlow.

(** ** Phone validation and display, and the webhook token check *)

Module ValidationProps.
Import Phone Errors Request Validation PhoneProps.

Lemma normalized_allDigits (phone : JSValue) :
  allDigits (normalizePhoneDigits phone) = true.
Proof.
  destruct phone; cbn; try reflexivity.
  destruct (String.eqb s ""); cbn; [reflexivity|apply stripNonDigits_allDigits].
Qed.

Lemma digitsOnly_length (s : string) :
  allDigits s = true -> digitsOnly s = negb (String.length s =? 0)%nat.
Proof. intros Hd. unfold digitsOnly. rewrite Hd. destruct s; reflexivity. Qed.

(** X19. [validatePhoneNumber]: a phone is valid exactly when it holds
    between 5 and 20 digits; the "invalid characters" error is raised
    exactly when it holds no digit at all, and then always after the "at
    least 5 digits" error; the warnings have no part in validity. *)
Theorem phone_is_valid_iff_digit_count (phone : JSValue) :
  let r := validatePhoneNumber phone in
  let n := String.length (normalizePhoneDigits phone) in
  (pv_valid r = true <-> (5 <= n <= 20)%nat)
  /\ (In badCharacters (pv_errors r) <-> n = 0%nat)
  /\ (n = 0%nat -> pv_errors r = [tooShort; badCharacters])
  /\ pv_normalized r = normalizePhoneDigits phone
  /\ allDigits (pv_normalized r) = true.
Proof.
  cbv zeta. unfold validatePhoneNumber.
  cbn [pv_valid pv_errors pv_normalized].
  rewrite (digitsOnly_length _ (normalized_allDigits phone)).
  set (n := String.length (normalizePhoneDigits phone)).
  split; [|split; [|split; [|split; [reflexivity|apply normalized_allDigits]]]].
  - destruct (Nat.ltb_spec n 5), (Nat.ltb_spec 20 n), (Nat.eqb_spec n 0); cbn;
      split; intros Hx; try discriminate; try lia; reflexivity.
  - destruct (Nat.ltb_spec n 5), (Nat.ltb_spec 20 n), (Nat.eqb_spec n 0); cbn;
      split; intros Hx; try lia; try tauto;
      repeat (destruct Hx as [Hx|Hx]; [discriminate|]); try contradiction.
  - intros ->. reflexivity.
Qed.

Lemma normalize_digits (d : string) :
  allDigits d = true -> normalizePhoneDigits (JStr d) = d.
Proof.
  intros Hd. unfold normalizePhoneDigits. cbn [truthy]. rewrite negb_involutive.
  destruct (String.eqb_spec d ""); [congruence|apply stripNonDigits_fixed, Hd].
Qed.

Lemma format_depends_on_digits (phone : JSValue) :
  formatPhoneForDisplay phone
  = formatPhoneForDisplay (JStr (normalizePhoneDigits phone)).
Proof.
  unfold formatPhoneForDisplay.
  rewrite (normalize_digits _ (normalized_allDigits phone)). reflexivity.
Qed.

Ltac explode H :=
  match type of H with
  | String.length ?d = O => destruct d; [clear H|discriminate H]
  | String.length ?d = S _ =>
      let c := fresh "c" in
      let r := fresh "r" in
      destruct d as [|c r]; [discriminate H|];
      cbn [String.length] in H; apply eq_add_S in H; explode H
  end.

Ltac digits Hd :=
  cbn [allDigits] in Hd;
  repeat (let Hc := fresh "Hc" in apply andb_prop in Hd as [Hc Hd]).

Lemma strip_digit (c : ascii) (s : string) :
  isDigit c = true -> stripNonDigits (String c s) = String c (stripNonDigits s).
Proof. intros Hc. cbn [stripNonDigits]. rewrite Hc. reflexivity. Qed.

Lemma strip_other (c : ascii) (s : string) :
  isDigit c = false -> stripNonDigits (String c s) = stripNonDigits s.
Proof. intros Hc. cbn [stripNonDigits]. rewrite Hc. reflexivity. Qed.

Ltac strip :=
  repeat first [ progress (cbv -[stripNonDigits isDigit])
               | rewrite strip_digit by assumption
               | rewrite strip_other by reflexivity ].

Lemma startsWith_cons (c a : ascii) (s pre : string) :
  startsWith (String c s) (String a pre) = true -> c = a /\ startsWith s pre = true.
Proof.
  unfold startsWith. cbn [String.prefix].
  destruct (ascii_dec a c) as [->|_]; [tauto|discriminate].
Qed.

Lemma strip_plus (d : string) :
  allDigits d = true -> normalizePhoneDigits (JStr ("+" ++ d)) = d.
Proof.
  intros Hd. change (normalizePhoneDigits (JStr ("+" ++ d))) with (stripNonDigits d).
  apply stripNonDigits_fixed, Hd.
Qed.

(** The digits of the displayed form of a digit string. *)
Lemma display_digits (d : string) :
  allDigits d = true ->
  normalizePhoneDigits (JStr (formatPhoneForDisplay (JStr d)))
  = if (String.length d =? 10)%nat then "1" ++ d else d.
Proof.
  intros Hd. unfold formatPhoneForDisplay. rewrite (normalize_digits d Hd).
  destruct (Nat.eqb_spec (String.length d) 10) as [H10|_].
  { explode H10. digits Hd. strip. reflexivity. }
  destruct (Nat.eqb_spec (String.length d) 11) as [H11|H11]; cbn [andb].
  { destruct (startsWith d "1") eqn:Hone.
    - explode H11. digits Hd. apply startsWith_cons in Hone as [-> _].
      strip. reflexivity.
    - rewrite H11. cbn [Nat.eqb andb]. apply strip_plus, Hd. }
  destruct (Nat.eqb_spec (String.length d) 12) as [H12|_]; cbn [andb];
    [|apply strip_plus, Hd].
  destruct (startsWith d "380") eqn:Hukr; [|apply strip_plus, Hd].
  explode H12. digits Hd.
  apply startsWith_cons in Hukr as [-> Hukr].
  apply startsWith_cons in Hukr as [-> Hukr].
  apply startsWith_cons in Hukr as [-> _].
  strip. reflexivity.
Qed.

(** X20. [formatPhoneForDisplay] keeps the digits of the phone, in order,
    and adds none, except that a ten-digit number gets the country code 1
    in front; formatting a formatted phone again changes nothing. *)
Theorem display_format_keeps_the_digits (phone : JSValue) :
  let d := normalizePhoneDigits phone in
  let shown := formatPhoneForDisplay phone in
  normalizePhoneDigits (JStr shown)
  = (if (String.length d =? 10)%nat then "1" ++ d else d)
  /\ formatPhoneForDisplay (JStr shown) = shown.
Proof.
  cbv zeta. pose proof (normalized_allDigits phone) as Hd.
  rewrite (format_depends_on_digits phone).
  set (d := normalizePhoneDigits phone) in *.
  split; [apply display_digits, Hd|].
  rewrite (format_depends_on_digits (JStr (formatPhoneForDisplay (JStr d)))).
  rewrite (display_digits d Hd).
  destruct (Nat.eqb_spec (String.length d) 10) as [H10|_]; [|reflexivity].
  explode H10. digits Hd.
  strip. reflexivity.
Qed.

Lemma text_length_app (a b : string) :
  String.length (a ++ b) = (String.length a + String.length b)%nat.
Proof.
  induction a as [|c a IH]; [reflexivity|].
  change (String.length (String c (a ++ b)) = S (String.length a) + String.length b)%nat.
  cbn [String.length]. rewrite IH. reflexivity.
Qed.

Lemma length_repeatChar (c : ascii) (n : nat) : String.length (repeatChar c n) = n.
Proof. induction n as [|n IH]; cbn; [reflexivity|]. rewrite IH. reflexivity. Qed.

Lemma length_substring (n m : nat) (s : string) :
  (n + m <= String.length s)%nat -> String.length (String.substring n m s) = m.
Proof.
  revert n m. induction s as [|c s IH]; intros n m Hle.
  - cbn in Hle. assert (n = 0%nat) as -> by lia. assert (m = 0%nat) as -> by lia.
    reflexivity.
  - destruct n as [|n].
    + destruct m as [|m]; [reflexivity|]. cbn [String.substring String.length].
      rewrite IH; [reflexivity|]. cbn in Hle. lia.
    + cbn [String.substring]. apply IH. cbn in Hle. lia.
Qed.

Lemma substring_all (s : string) : String.substring 0 (String.length s) s = s.
Proof. induction s as [|c s IH]; [reflexivity|]. cbn. rewrite IH. reflexivity. Qed.

Lemma substring_skip (a b : string) :
  String.substring (String.length a) (String.length b) (a ++ b) = b.
Proof.
  induction a as [|c a IH]; [apply substring_all|].
  change (String.substring (S (String.length a)) (String.length b) (String c (a ++ b)) = b).
  cbn [String.substring]. exact IH.
Qed.

Lemma allDigits_substring (n m : nat) (s : string) :
  allDigits s = true -> allDigits (String.substring n m s) = true.
Proof.
  revert n m. induction s as [|c s IH]; intros n m Hd.
  - destruct n, m; reflexivity.
  - cbn [allDigits] in Hd. apply andb_prop in Hd as [Hc Hs].
    destruct n as [|n]; cbn [String.substring]; [|apply IH, Hs].
    destruct m as [|m]; [reflexivity|]. cbn [allDigits]. rewrite Hc. apply IH, Hs.
Qed.

Lemma strip_stars (n : nat) (s : string) :
  stripNonDigits (repeatChar "*" n ++ s) = stripNonDigits s.
Proof. induction n as [|n IH]; [reflexivity|]. exact IH. Qed.

(** X21. [sanitizePhoneForLog] writes one character for every digit of the
    phone and shows at most four digits, the last four; a number of up to
    four digits is written out in full. *)
Theorem log_form_shows_last_four_digits (phone : JSValue) :
  let d := normalizePhoneDigits phone in
  let shown := sanitizePhoneForLog phone in
  String.length shown = String.length d
  /\ String.length (stripNonDigits shown) = Nat.min 4 (String.length d)
  /\ sliceLast 4 shown = sliceLast 4 d
  /\ ((String.length d <= 4)%nat -> shown = d).
Proof.
  cbv zeta. unfold sanitizePhoneForLog.
  pose proof (normalized_allDigits phone) as Hd.
  set (d := normalizePhoneDigits phone) in *.
  destruct (Nat.leb_spec (String.length d) 4) as [Hle|Hgt].
  - split; [reflexivity|]. split; [|split; reflexivity].
    rewrite (stripNonDigits_fixed d Hd). lia.
  - assert (Hlast : String.length (sliceLast 4 d) = 4%nat).
    { unfold sliceLast. apply length_substring. lia. }
    split; [|split; [|split; [|lia]]].
    + rewrite text_length_app, length_repeatChar, Hlast. lia.
    + rewrite strip_stars.
      rewrite stripNonDigits_fixed by (apply allDigits_substring, Hd).
      rewrite Hlast. lia.
    + unfold sliceLast at 1.
      rewrite text_length_app, length_repeatChar, Hlast.
      replace (String.length d - 4 + 4 - 4)%nat
        with (String.length (repeatChar "*" (String.length d - 4)))
        by (rewrite length_repeatChar; lia).
      rewrite <- Hlast at 2. apply substring_skip.
Qed.

(** X22. [verifyWebhookToken] returns normally exactly when a token came in,
    a token is configured and the two are the same text; every error it
    throws carries [httpCode = 401], and a missing incoming token is
    reported before a missing configured one. *)
Theorem webhook_token_accepted_iff_equal (incomingToken : option string)
  (expectedToken : string) :
  (verifyWebhookToken incomingToken expectedToken = Ok tt
   <-> incomingToken = Some expectedToken /\ expectedToken <> "")
  /\ (forall e, verifyWebhookToken incomingToken expectedToken = Throw e ->
        exists message, e = unauthorized message
          /\ objGet (match e with ErrorObj _ props => props | _ => [] end) "httpCode"
             = JNum 401)
  /\ (nonEmpty incomingToken = None ->
      verifyWebhookToken incomingToken expectedToken
      = Throw (unauthorized "Missing webhook token")).
Proof.
  unfold verifyWebhookToken, timingSafeEqual.
  split; [|split].
  - destruct incomingToken as [incoming|]; cbn [nonEmpty].
    + destruct (String.eqb_spec incoming "") as [->|Hin].
      * split; [discriminate|]. intros [Heq Hne]. congruence.
      * destruct (String.eqb_spec expectedToken "") as [->|Hex].
        { split; [discriminate|]. intros [_ Hne]. congruence. }
        destruct (Nat.eqb_spec (String.length incoming) (String.length expectedToken))
          as [Hlen|Hlen]; cbn [negb].
        -- destruct (String.eqb_spec incoming expectedToken) as [->|Hne]; cbn [negb].
           ++ split; [tauto|reflexivity].
           ++ split; [discriminate|]. intros [Heq _]. congruence.
        -- split; [discriminate|]. intros [Heq _]. congruence.
    + split; [discriminate|]. intros [Heq _]. discriminate.
  - intros e.
    destruct (nonEmpty incomingToken) as [incoming|];
      [|intros He; injection He as <-; eexists; split; reflexivity].
    destruct (String.eqb expectedToken "");
      [intros He; injection He as <-; eexists; split; reflexivity|].
    destruct (String.length incoming =? String.length expectedToken)%nat; cbn [negb];
      [|intros He; injection He as <-; eexists; split; reflexivity].
    destruct (String.eqb incoming expectedToken); cbn [negb];
      [discriminate|intros He; injection He as <-; eexists; split; reflexivity].
  - intros ->. reflexivity.
Qed.

Lemma webhook_token_accepted_iff_equal_witness :
  verifyWebhookToken None "in" = Throw (unauthorized "Missing webhook token")
  /\ verifyWebhookToken (Some "") "in" = Throw (unauthorized "Missing webhook token").
Proof.
  split.
  - apply (webhook_token_accepted_iff_equal None "in"). reflexivity.
  - apply (webhook_token_accepted_iff_equal (Some "") "in"). reflexivity.
Defined.

End ValidationProps.

(** ** IdempotencyService *)

Module IdempotencyProps.
Import Errors Request Idempotency Scenario.

Section Service.

Context {W : Type} `{Host W}.

(** What a call that ran the operation leaves behind. *)
Lemma fresh_run (key : string) (operation : M (IdemState W) JsError JSValue)
  (ttlSeconds : option Z) (s s2 : IdemState W) (r : JSValue) :
  executeWithIdempotency key operation ttlSeconds s = (Ok (r, false), s2) ->
  exists s1,
    operation s = (Ok r, s1)
    /\ s2 = cleanupExpired
              (mkIdemState (i_world s1)
                 (<[serviceKey key := (r, now (i_world s) + ttlOf ttlSeconds * 1000)%Z]>
                    (i_cache s1))).
Proof.
  unfold executeWithIdempotency. intros Hrun.
  assert (Hfresh :
    match operation s with
    | (Throw e, s1) => (Throw e, s1)
    | (Ok result, s1) =>
        (Ok (result, false),
         cleanupExpired
           (mkIdemState (i_world s1)
              (<[serviceKey key := (result, now (i_world s) + ttlOf ttlSeconds * 1000)%Z]>
                 (i_cache s1))))
    end = (Ok (r, false), s2)).
  { destruct (i_cache s !! serviceKey key) as [[result expiry]|]; [|exact Hrun].
    destruct (expiry >? now (i_world s))%Z; [discriminate|exact Hrun]. }
  destruct (operation s) as [[result|e] s1]; [|discriminate].
  injection Hfresh as -> <-. exists s1. split; reflexivity.
Qed.

(** X23. A result the service stored is replayed: when a call ran its
    operation, got [r] and the operation was over before
    [ttlSeconds * 1000] ms had passed since the call began, every later
    call with the same key made before that time answers [r] with
    [fromCache = true], runs nothing and changes nothing. *)
Theorem stored_result_is_replayed_until_expiry (key : string)
  (operation later : M (IdemState W) JsError JSValue) (ttlSeconds ttlLater : option Z)
  (s s2 s3 : IdemState W) (r : JSValue) :
  executeWithIdempotency key operation ttlSeconds s = (Ok (r, false), s2) ->
  (now (i_world s2) < now (i_world s) + ttlOf ttlSeconds * 1000)%Z ->
  i_cache s3 = i_cache s2 ->
  (now (i_world s3) < now (i_world s) + ttlOf ttlSeconds * 1000)%Z ->
  executeWithIdempotency key later ttlLater s3 = (Ok (r, true), s3).
Proof.
  intros Hrun Hdone Hcache Hlive.
  destruct (fresh_run key operation ttlSeconds s s2 r Hrun) as (s1 & _ & ->).
  unfold executeWithIdempotency. rewrite Hcache. unfold cleanupExpired at 1.
  cbn [i_cache i_world] in *.
  assert (Hentry :
    filter (fun ke => (snd (snd ke) <=? now (i_world s1))%Z = false)
      (<[serviceKey key := (r, now (i_world s) + ttlOf ttlSeconds * 1000)%Z]> (i_cache s1))
    !! serviceKey key = Some (r, (now (i_world s) + ttlOf ttlSeconds * 1000)%Z)).
  { apply map_lookup_filter_Some. split; [apply lookup_insert_eq|].
    cbn [snd]. apply Z.leb_gt. exact Hdone. }
  rewrite Hentry.
  replace (now (i_world s) + ttlOf ttlSeconds * 1000 >? now (i_world s3))%Z with true
    by (symmetry; apply Z.gtb_lt; exact Hlive).
  reflexivity.
Qed.

(** X24. What the service never stores. A call whose operation throws
    leaves the state the operation left. After a call that ran its
    operation no entry of the map is expired. And a result that arrives
    when its time to live, counted from the start of the call, is already
    over is not stored: in particular no result is stored under a TTL that
    is not positive while the clock does not run backwards. *)
Theorem service_never_stores_dead_entries (key : string)
  (operation : M (IdemState W) JsError JSValue) (ttlSeconds : option Z)
  (s : IdemState W) :
  let run := executeWithIdempotency key operation ttlSeconds s in
  (forall e, fst run = Throw e -> operation s = (Throw e, snd run))
  /\ (forall r, fst run = Ok (r, false) ->
        map_Forall (fun _ entry => (now (i_world (snd run)) < snd entry)%Z)
          (i_cache (snd run)))
  /\ (forall r, fst run = Ok (r, false) ->
        (now (i_world s) + ttlOf ttlSeconds * 1000 <= now (i_world (snd run)))%Z ->
        i_cache (snd run) !! serviceKey key = None).
Proof.
  cbv zeta.
  assert (Hfresh : forall r,
    fst (executeWithIdempotency key operation ttlSeconds s) = Ok (r, false) ->
    executeWithIdempotency key operation ttlSeconds s
    = (Ok (r, false), snd (executeWithIdempotency key operation ttlSeconds s))).
  { intros r Hr. rewrite <- Hr. apply surjective_pairing. }
  split; [|split].
  - intros e. unfold executeWithIdempotency.
    destruct (i_cache s !! serviceKey key) as [[result expiry]|].
    + destruct (expiry >? now (i_world s))%Z; [discriminate|].
      destruct (operation s) as [[result'|e'] s1]; [discriminate|].
      cbn [fst snd]. congruence.
    + destruct (operation s) as [[result'|e'] s1]; [discriminate|].
      cbn [fst snd]. congruence.
  - intros r Hr.
    destruct (fresh_run key operation ttlSeconds s _ r (Hfresh r Hr)) as (s1 & _ & ->).
    unfold cleanupExpired. cbn [i_cache i_world].
    intros k entry Hentry. apply map_lookup_filter_Some in Hentry as [_ Hlive].
    cbn [snd] in Hlive. apply Z.leb_gt in Hlive. exact Hlive.
  - intros r Hr.
    destruct (fresh_run key operation ttlSeconds s _ r (Hfresh r Hr)) as (s1 & _ & ->).
    unfold cleanupExpired. cbn [i_cache i_world]. intros Hlate.
    apply map_lookup_filter_None. right. intros entry Hentry.
    rewrite lookup_insert_eq in Hentry. injection Hentry as <-. cbn [snd].
    replace (now (i_world s) + ttlOf ttlSeconds * 1000 <=? now (i_world s1))%Z with true
      by (symmetry; apply Z.leb_le; exact Hlate).
    discriminate.
Qed.

End Service.

Lemma stored_result_is_replayed_until_expiry_witness :
  let host := scripted serverReset in
  let first :=
    executeWithIdempotency (H := host) "job-1" (answering 200 (Ok okResponse)) (Some 60%Z)
      (mkIdemState 1000%Z ∅) in
  fst first = Ok (okResponse, false)
  /\ executeWithIdempotency (H := host) "job-1"
       (answering 200 (Throw (newError "not run"))) None
       (mkIdemState 60999%Z (i_cache (snd first)))
     = (Ok (okResponse, true), mkIdemState 60999%Z (i_cache (snd first))).
Proof.
  cbv zeta. split; [reflexivity|].
  apply (stored_result_is_replayed_until_expiry (H := scripted serverReset) "job-1"
           (answering 200 (Ok okResponse)) (answering 200 (Throw (newError "not run")))
           (Some 60%Z) None (mkIdemState 1000%Z ∅)
           (snd (executeWithIdempotency (H := scripted serverReset) "job-1"
                   (answering 200 (Ok okResponse)) (Some 60%Z) (mkIdemState 1000%Z ∅)))).
  - reflexivity.
  - vm_compute. reflexivity.
  - reflexivity.
  - vm_compute. reflexivity.
Defined.

End IdempotencyProps.

(** ** BatchProcessor *)

Module BatchProps.
Import Batch.

Section Slicing.

Context {T : Type}.

Lemma jsSlice_window (i : nat) (n : nat) (items : list T) :
  (i < length items)%nat ->
  jsSlice (Z.of_nat i) (Z.of_nat i + Z.of_nat n) items = take n (drop i items).
Proof.
  intros Hi. unfold jsSlice, relativeIndex.
  replace (Z.of_nat i <? 0)%Z with false by (symmetry; apply Z.ltb_ge; lia).
  replace (Z.of_nat i + Z.of_nat n <? 0)%Z with false by (symmetry; apply Z.ltb_ge; lia).
  rewrite (Z.min_l (Z.of_nat i)) by lia. rewrite Nat2Z.id.
  destruct (Z.min_spec (Z.of_nat i + Z.of_nat n) (Z.of_nat (length items)))
    as [[Hlt ->]|[Hge ->]].
  - replace (Z.to_nat (Z.of_nat i + Z.of_nat n - Z.of_nat i)) with n by lia.
    reflexivity.
  - replace (Z.to_nat (Z.of_nat (length items) - Z.of_nat i))
      with (length (drop i items)) by (rewrite length_drop; lia).
    rewrite firstn_all. symmetry. apply take_ge. rewrite length_drop. lia.
Qed.

(** The batches from index [i] on, when the batch size is at least one. *)
Lemma batchLoop_windows (n : nat) (items : list T) (fuel i : nat) :
  (1 <= n)%nat -> (length items - i <= fuel)%nat ->
  exists batches,
    batchLoop fuel (Z.of_nat i) (Z.of_nat n) items = Some batches
    /\ concat batches = drop i items
    /\ (forall k b, batches !! k = Some b ->
          b = take n (drop (i + k * n) items) /\ (i + k * n < length items)%nat).
Proof.
  intros Hn. revert i. induction fuel as [|fuel IH]; intros i Hfuel.
  - exists []. cbn [batchLoop].
    replace (Z.of_nat i <? Z.of_nat (length items))%Z with false by (symmetry; apply Z.ltb_ge; lia).
    split; [reflexivity|]. split; [|intros k b Hk; discriminate].
    cbn. symmetry. apply drop_ge. lia.
  - cbn [batchLoop].
    destruct (Z.ltb_spec (Z.of_nat i) (Z.of_nat (length items))) as [Hlt|Hge].
    + destruct (IH (i + n)%nat ltac:(lia)) as (rest & Hrest & Hcat & Hwin).
      replace (Z.of_nat i + Z.of_nat n)%Z with (Z.of_nat (i + n)) by lia.
      rewrite Hrest. eexists. split; [reflexivity|].
      replace (Z.of_nat (i + n)) with (Z.of_nat i + Z.of_nat n)%Z by lia.
      rewrite jsSlice_window by lia. split.
      * cbn [concat]. rewrite Hcat.
        rewrite <- drop_drop. apply take_drop.
      * intros [|k] b Hk.
        -- cbn in Hk. injection Hk as <-. cbn. rewrite Nat.add_0_r. split; [reflexivity|lia].
        -- cbn in Hk. destruct (Hwin k b Hk) as [-> Hlt'].
           split; [f_equal; f_equal; lia|lia].
    + exists []. split; [reflexivity|]. split; [|intros k b Hk; discriminate].
      cbn. symmetry. apply drop_ge. lia.
Qed.

(** With a batch size that is not positive the loop over a non-empty list is
    never over. *)
Lemma batchLoop_stuck (batchSize : Z) (items : list T) (fuel : nat) (i : Z) :
  (batchSize <= 0)%Z -> (i < Z.of_nat (length items))%Z ->
  batchLoop fuel i batchSize items = None.
Proof.
  intros Hsize. revert i. induction fuel as [|fuel IH]; intros i Hi; cbn [batchLoop];
    replace (i <? Z.of_nat (length items))%Z with true by (symmetry; apply Z.ltb_lt; lia); [reflexivity|].
  rewrite IH by lia. reflexivity.
Qed.

Lemma batches_partition_lemma (batchSize : Z) (items : list T) :
  (1 <= batchSize)%Z ->
  exists batches,
    batchesOf (length items) batchSize items = Some batches /\ concat batches = items.
Proof.
  intros Hsize.
  destruct (batchLoop_windows (Z.to_nat batchSize) items (length items) 0
              ltac:(lia) ltac:(lia)) as (batches & Hrun & Hcat & _).
  exists batches. unfold batchesOf.
  replace batchSize with (Z.of_nat (Z.to_nat batchSize)) at 1 by lia.
  split; assumption.
Qed.

(** X25. The batching loop of [processInBatches] and [processWithRateLimit].
    With a batch size of at least one the loop is over after at most one
    turn per item; the batches, put one after the other, are the items;
    no batch is empty or longer than the batch size; and the item at
    position [j] of batch number [k] is the item at position
    [k * batchSize + j] of the list. With a batch size of zero or less the
    loop over a non-empty list never ends. *)
Theorem batches_partition_the_items (batchSize : Z) (items : list T) :
  ((1 <= batchSize)%Z ->
   exists batches,
     batchesOf (length items) batchSize items = Some batches
     /\ concat batches = items
     /\ Forall (fun b => (1 <= length b <= Z.to_nat batchSize)%nat) batches
     /\ forall k j b x, batches !! k = Some b -> b !! j = Some x ->
          items !! (k * Z.to_nat batchSize + j)%nat = Some x)
  /\ ((batchSize <= 0)%Z -> items <> [] ->
      forall fuel, batchesOf fuel batchSize items = None).
Proof.
  split.
  - intros Hsize. set (n := Z.to_nat batchSize).
    assert (Hn : (1 <= n)%nat) by lia.
    destruct (batchLoop_windows n items (length items) 0 Hn ltac:(lia))
      as (batches & Hrun & Hcat & Hwin).
    exists batches. unfold batchesOf.
    replace batchSize with (Z.of_nat n) by lia.
    split; [exact Hrun|]. split; [exact Hcat|]. split.
    + apply Forall_forall. intros b Hb.
      apply list_elem_of_lookup in Hb as [k Hk].
      destruct (Hwin k b Hk) as [-> Hlt]. rewrite length_take, length_drop. lia.
    + intros k j b x Hk Hj. destruct (Hwin k b Hk) as [-> Hlt].
      apply lookup_take_Some in Hj as [Hj _]. rewrite lookup_drop in Hj.
      exact Hj.
  - intros Hsize Hne fuel. unfold batchesOf. apply batchLoop_stuck; [exact Hsize|].
    destruct items; [congruence|cbn; lia].
Qed.

End Slicing.

Section Processing.

Context {W T R E : Type}.
Variable wait : Z -> W -> W.

(** How many [delay] calls a run over [n] batches makes when none fails. *)
Lemma processLoop_delays (processor : list T -> nat -> M W E (list R))
  (delayMs : Z) (batches : list (list T)) (i : nat) (results : list R)
  (s : BatchState W) :
  let run := processLoop wait processor delayMs i batches results s in
  exists k,
    b_delays (snd run) = (b_delays s ++ repeat delayMs k)%list
    /\ (k <= length batches - 1)%nat
    /\ (isOk (fst run) = true ->
        k = if (delayMs >? 0)%Z then (length batches - 1)%nat else 0%nat).
Proof.
  cbv zeta. revert i results s.
  induction batches as [|batch rest IH]; intros i results s.
  - exists 0%nat. cbn. rewrite app_nil_r. split; [reflexivity|]. split; [lia|].
    intros _. destruct (delayMs >? 0)%Z; reflexivity.
  - cbn [processLoop].
    destruct (processor batch i (b_world s)) as [[batchResults|e] w].
    + destruct (delayMs >? 0)%Z eqn:Hpos; cbn [andb].
      * destruct rest as [|next rest'].
        -- cbn [length Nat.eqb negb].
           exists 0%nat. cbn. rewrite app_nil_r. split; [reflexivity|]. split; [lia|].
           intros _. reflexivity.
        -- cbn [length Nat.eqb negb].
           destruct (IH (S i) (results ++ batchResults)%list
                       (mkBatchState (wait delayMs w) (b_delays s ++ [delayMs])))
             as (k & Hlog & Hle & Hok).
           exists (S k). rewrite Hlog. cbn [b_delays length] in *.
           split; [rewrite <- app_assoc; reflexivity|]. split; [lia|].
           intros Hrun. rewrite (Hok Hrun). lia.
      * destruct (IH (S i) (results ++ batchResults)%list (mkBatchState w (b_delays s)))
          as (k & Hlog & Hle & Hok).
        exists k. rewrite Hlog. cbn [b_delays length] in *.
        split; [reflexivity|]. split; [lia|]. exact Hok.
    + exists 0%nat. cbn. rewrite app_nil_r. split; [reflexivity|]. split; [lia|].
      discriminate.
Qed.

Lemma processLoop_pure (g : T -> R) (delayMs : Z) (batches : list (list T))
  (i : nat) (results : list R) (s : BatchState W) :
  fst (processLoop (E := E) wait (fun batch _ => ret (List.map g batch)) delayMs i
         batches results s)
  = Ok (results ++ List.map g (concat batches))%list.
Proof.
  revert i results s. induction batches as [|batch rest IH]; intros i results s.
  - cbn. rewrite app_nil_r. reflexivity.
  - cbn [processLoop ret]. rewrite IH. cbn [concat].
    rewrite List.map_app, app_assoc. reflexivity.
Qed.

(** X26. [processInBatches] with a batch size of at least one. A processor
    that answers one result per item, batch by batch, gives the results in
    the order of the items. Whatever the processor does, the calls to
    [delay] all ask for [delayBetweenBatchesMs], there is at most one
    between two batches and none after the last; and a run in which no
    batch fails makes exactly one less than there are batches when the
    delay is positive and none otherwise. *)
Theorem batches_are_processed_in_order (batchSize delayMs : Z) (items : list T)
  (processor : list T -> nat -> M W E (list R)) (g : T -> R) (s : BatchState W) :
  (1 <= batchSize)%Z ->
  exists batches run pureRun,
    batchesOf (length items) batchSize items = Some batches
    /\ processInBatches wait (length items) items batchSize processor delayMs = Some run
    /\ processInBatches (E := E) wait (length items) items batchSize
         (fun batch _ => ret (List.map g batch)) delayMs = Some pureRun
    /\ fst (pureRun s) = Ok (List.map g items)
    /\ exists k,
         b_delays (snd (run s)) = (b_delays s ++ repeat delayMs k)%list
         /\ (k <= length batches - 1)%nat
         /\ (isOk (fst (run s)) = true ->
             k = if (delayMs >? 0)%Z then (length batches - 1)%nat else 0%nat).
Proof.
  intros Hsize.
  destruct (batches_partition_lemma batchSize items Hsize) as (batches & Hb & Hcat).
  unfold processInBatches. rewrite Hb.
  exists batches. eexists. eexists. split; [reflexivity|].
  split; [reflexivity|]. split; [reflexivity|]. split.
  - rewrite processLoop_pure, Hcat. reflexivity.
  - apply processLoop_delays.
Qed.

End Processing.

Lemma batches_are_processed_in_order_witness :
  exists run,
    processInBatches (W := Z) (E := unit) (fun ms w => (w + ms)%Z) 5 [1; 2; 3; 4; 5]%Z 2
      (fun batch _ => ret (List.map Z.succ batch)) 1000 = Some run
    /\ run (mkBatchState 0%Z []) = (Ok [2; 3; 4; 5; 6]%Z, mkBatchState 2000%Z [1000; 1000]%Z).
Proof.
  destruct (batches_are_processed_in_order (W := Z) (E := unit) (fun ms w => (w + ms)%Z)
              2 1000 [1; 2; 3; 4; 5]%Z (fun batch _ => ret (List.map Z.succ batch))
              Z.succ (mkBatchState 0%Z []) ltac:(lia))
    as (batches & run & pureRun & _ & Hrun & _).
  exists run. split; [exact Hrun|].
  cbv in Hrun. injection Hrun as <-. reflexivity.
Defined.

End BatchProps.

(** ** The throttle: failures, keys and cleanup *)

Module ThrottleFlow.
Import Throttle Registry ThrottleObservations ThrottleProps.

(** X27. A call that waits for the call in flight under its key fails with
    it: when the operation in flight is rejected, the waiting call is
    rejected too, its own operation is never started, and the entry of the
    key keeps the start time of the failed call with nothing pending. *)
Theorem waiting_call_fails_with_the_call_in_flight (key : string) (delayMs a b : Z) :
  (0 <= a)%Z -> (0 <= b)%Z ->
  exists st,
    run [Call key delayMs; Elapse a; Call key delayMs; Elapse b; Settle 0 false;
         Resume 1] initial = Some st
    /\ tasks st = [Returned key 0 (a + b) false; Rejected key]
    /\ inFlight key st = []
    /\ nextPromise st = 1%nat
    /\ throttleMap st !! key = Some (mkEntry 0 None).
Proof.
  intros Ha Hb.
  set (e0 := mkEntry 0 (Some 0%nat)).
  set (s1 := mkState 0 (<[key := e0]> ∅) ∅ 1 [AwaitingOperation key 0 0]).
  assert (H1 : step (Call key delayMs) initial = Some s1).
  { rewrite step_call. unfold begin, initial. cbn [throttleMap clock].
    rewrite lookup_empty. reflexivity. }
  set (s2 := mkState a (<[key := e0]> ∅) ∅ 1 [AwaitingOperation key 0 0]).
  assert (H2 : step (Elapse a) s1 = Some s2).
  { unfold step. replace (0 <=? a)%Z with true by (symmetry; apply Z.leb_le; exact Ha).
    reflexivity. }
  set (s3 := mkState a (<[key := e0]> ∅) ∅ 1
               [AwaitingOperation key 0 0; AwaitingPending key delayMs a e0 0]).
  assert (H3 : step (Call key delayMs) s2 = Some s3).
  { rewrite step_call. unfold begin, s2. cbn [throttleMap clock].
    rewrite lookup_insert_eq. reflexivity. }
  set (s4 := mkState (a + b) (<[key := e0]> ∅) ∅ 1
               [AwaitingOperation key 0 0; AwaitingPending key delayMs a e0 0]).
  assert (H4 : step (Elapse b) s3 = Some s4).
  { unfold step. replace (0 <=? b)%Z with true by (symmetry; apply Z.leb_le; exact Hb).
    reflexivity. }
  set (s5 := mkState (a + b) (<[key := mkEntry 0 None]> (<[key := e0]> ∅))
               (<[0%nat := false]> ∅) 1
               [Returned key 0 (a + b) false; AwaitingPending key delayMs a e0 0]).
  assert (H5 : step (Settle 0 false) s4 = Some s5).
  { unfold step, s4. cbn [tasks]. change (_ !! 0%nat) with (Some (AwaitingOperation key 0 0)).
    cbv iota. unfold release. cbn [throttleMap clock settled nextPromise tasks].
    rewrite lookup_insert_eq. reflexivity. }
  cbn [run]. rewrite H1, H2, H3, H4, H5. clear H1 H2 H3 H4 H5.
  unfold step, s5. cbn [tasks settled].
  rewrite (eq_refl : [Returned key 0 (a + b) false; AwaitingPending key delayMs a e0 0]
                       !! 1%nat = Some (AwaitingPending key delayMs a e0 0)).
  rewrite lookup_insert_eq.
  eexists. split; [reflexivity|]. split; [reflexivity|]. split; [reflexivity|].
  split; [reflexivity|]. cbn [setTask throttleMap]. apply lookup_insert_eq.
Qed.

Lemma waiting_call_fails_with_the_call_in_flight_witness :
  exists st,
    run [Call "sms:gw:101" 5000; Elapse 100; Call "sms:gw:101" 5000; Elapse 200;
         Settle 0 false; Resume 1] initial = Some st
    /\ tasks st = [Returned "sms:gw:101" 0 300 false; Rejected "sms:gw:101"].
Proof.
  destruct (waiting_call_fails_with_the_call_in_flight "sms:gw:101" 5000 100 200
              ltac:(lia) ltac:(lia)) as (st & Hrun & Htasks & _).
  exists st. split; [exact Hrun|exact Htasks].
Defined.

Lemma release_frame (key other : string) (promise : nat) (st : State) :
  key <> other ->
  throttleMap (release key promise st) !! other = throttleMap st !! other.
Proof.
  intros Hne. unfold release. destruct (throttleMap st !! key) as [current|]; [|reflexivity].
  destruct (match pending current with Some q => Nat.eqb q promise | None => false end);
    [|reflexivity].
  cbn [throttleMap]. apply lookup_insert_ne. exact Hne.
Qed.

Lemma startOperation_frame (key other : string) (st : State) :
  key <> other ->
  throttleMap (snd (startOperation key st)) !! other = throttleMap st !! other.
Proof. intros Hne. cbn. apply lookup_insert_ne. exact Hne. Qed.

Lemma afterPending_frame (key other : string) (delayMs now : Z)
  (entry : option ThrottleEntry) (st : State) :
  key <> other ->
  throttleMap (snd (afterPending key delayMs now entry st)) !! other
  = throttleMap st !! other.
Proof.
  intros Hne. unfold afterPending. destruct entry as [e|];
    [destruct (now - lastRequestTime e <? delayMs)%Z; [reflexivity|]|];
    apply startOperation_frame, Hne.
Qed.

(** Keys do not interfere: a turn of the event loop changes no entry
    of the throttle map other than the entry of the key of the call that
    takes the turn. *)
Theorem throttle_turn_touches_only_its_key (e : Event) (st st' : State)
  (other : string) :
  step e st = Some st' ->
  eventKey st e <> Some other ->
  throttleMap st' !! other = throttleMap st !! other.
Proof.
  intros Hstep Hkey. destruct e as [key d|ms|i ok|i]; cbn [eventKey] in Hkey.
  - rewrite step_call in Hstep. injection Hstep as <-. cbn [throttleMap].
    assert (Hne : key <> other) by congruence.
    unfold begin. destruct (throttleMap st !! key) as [en|];
      [destruct (pending en); [reflexivity|]|]; apply afterPending_frame, Hne.
  - cbn [step] in Hstep. destruct (0 <=? ms)%Z; [|discriminate].
    injection Hstep as <-. reflexivity.
  - cbn [step] in Hstep. destruct (tasks st !! i) as [t|]; [|discriminate].
    destruct t as [| |key promise started| |]; try discriminate.
    injection Hstep as <-. cbn [option_map taskKey] in Hkey.
    assert (Hne : key <> other) by congruence.
    cbn [setTask throttleMap]. rewrite release_frame by exact Hne. reflexivity.
  - cbn [step] in Hstep. destruct (tasks st !! i) as [t|]; [|discriminate].
    destruct t as [key d now en promise|key due| | |]; try discriminate;
      cbn [option_map taskKey] in Hkey;
      assert (Hne : key <> other) by congruence.
    + destruct (settled st !! promise) as [[|]|]; [| |discriminate].
      * pose proof (afterPending_frame key other d now (Some en) st Hne) as Hframe.
        destruct (afterPending key d now (Some en) st) as [t st1].
        injection Hstep as <-. exact Hframe.
      * injection Hstep as <-. reflexivity.
    + destruct (due <=? clock st)%Z; [|discriminate].
      pose proof (startOperation_frame key other st Hne) as Hframe.
      destruct (startOperation key st) as [t st1].
      injection Hstep as <-. exact Hframe.
Qed.

Lemma throttle_turn_touches_only_its_key_witness :
  exists st',
    step (Call "sms:gw:101" 5000)
      (mkState 10 {[ "sms:gw:102" := mkEntry 3 None ]} ∅ 0 []) = Some st'
    /\ throttleMap st' !! "sms:gw:102" = Some (mkEntry 3 None).
Proof.
  destruct (step (Call "sms:gw:101" 5000)
              (mkState 10 {[ "sms:gw:102" := mkEntry 3 None ]} ∅ 0 []))
    as [st'|] eqn:Hstep; [|vm_compute in Hstep; discriminate].
  exists st'. split; [reflexivity|].
  rewrite (throttle_turn_touches_only_its_key _ _ st' "sms:gw:102" Hstep);
    [reflexivity|cbn; congruence].
Defined.

(** X28. [ThrottlingManager.cleanup] deletes an entry only when nothing is
    pending under it and its last request is more than five minutes old,
    and keeps every other entry as it is. For a delay of up to five minutes
    the cleanup therefore cannot be told from the outside: the next call
    under any key goes the same way with and without it. *)
Theorem throttle_cleanup_is_unobservable (st : State) (key : string) (delayMs : Z) :
  throttleMap (throttleCleanup st) !! key
  = match throttleMap st !! key with
    | Some e => if idleEntry (clock st) e then None else Some e
    | None => None
    end
  /\ ((delayMs <= THROTTLE_CLEANUP_THRESHOLD_MS)%Z ->
      fst (begin key delayMs (throttleCleanup st)) = fst (begin key delayMs st)).
Proof.
  assert (Hlookup : throttleMap (throttleCleanup st) !! key
                    = match throttleMap st !! key with
                      | Some e => if idleEntry (clock st) e then None else Some e
                      | None => None
                      end).
  { unfold throttleCleanup. cbn [throttleMap].
    destruct (throttleMap st !! key) as [e|] eqn:Hk.
    - destruct (idleEntry (clock st) e) eqn:Hidle.
      + apply map_lookup_filter_None. right. intros e' He'. cbn.
        rewrite Hk in He'. inversion He'; subst e'. rewrite Hidle. discriminate.
      + apply map_lookup_filter_Some. split; [exact Hk|exact Hidle].
    - apply map_lookup_filter_None. left. exact Hk. }
  split; [exact Hlookup|].
  intros Hdelay. unfold begin. rewrite Hlookup.
  change (clock (throttleCleanup st)) with (clock st).
  destruct (throttleMap st !! key) as [e|]; [|reflexivity].
  destruct (idleEntry (clock st) e) eqn:Hidle.
  2: { destruct (pending e); [reflexivity|]. unfold afterPending.
       destruct (clock st - lastRequestTime e <? delayMs)%Z; reflexivity. }
  unfold idleEntry in Hidle. apply andb_prop in Hidle as [Hold Hfree].
  destruct (pending e); [discriminate|].
  unfold afterPending.
  replace (clock st - lastRequestTime e <? delayMs)%Z with false; [reflexivity|].
  symmetry. apply Z.ltb_ge. apply Z.gtb_lt in Hold. lia.
Qed.

Lemma throttle_cleanup_is_unobservable_witness :
  let st := mkState 400000 {[ "sms:gw:101" := mkEntry 10 None ]} ∅ 1 [] in
  throttleMap (throttleCleanup st) !! "sms:gw:101" = None
  /\ fst (begin "sms:gw:101" 5000 (throttleCleanup st)) = fst (begin "sms:gw:101" 5000 st).
Proof.
  intros st.
  destruct (throttle_cleanup_is_unobservable st "sms:gw:101" 5000) as [Hlookup Hsame].
  split; [rewrite Hlookup; reflexivity|apply Hsame; vm_compute; discriminate].
Defined.

End ThrottleFlow.

(** ** Masks and surfaced messages *)

Module MaskProps.
Import Phone Errors Scenario ErrorsProps ValidationProps.

Lemma maskString_length (v : string) :
  String.length (maskString v) = Nat.max 4 (String.length v).
Proof.
  unfold maskString. destruct (Nat.ltb_spec 4 (String.length v)) as [Hlong|Hshort].
  - rewrite text_length_app, length_repeatChar.
    unfold sliceLast. rewrite length_substring by lia. lia.
  - cbn. lia.
Qed.

Lemma maskString_last_four (v : string) :
  (4 < String.length v)%nat -> sliceLast 4 (maskString v) = sliceLast 4 v.
Proof.
  intros Hlong.
  assert (Hlast : String.length (sliceLast 4 v) = 4%nat).
  { unfold sliceLast. apply length_substring. lia. }
  unfold sliceLast at 1. rewrite maskString_length.
  unfold maskString. replace (4 <? String.length v)%nat with true
    by (symmetry; apply Nat.ltb_lt; exact Hlong).
  replace (Nat.max 4 (String.length v) - 4)%nat
    with (String.length (repeatChar "*" (String.length v - 4)))
    by (rewrite length_repeatChar; lia).
  rewrite <- Hlast at 2. apply substring_skip.
Qed.

Lemma maskString_fixed (v : string) : maskString (maskString v) = maskString v.
Proof.
  destruct (Nat.ltb_spec 4 (String.length v)) as [Hlong|Hshort].
  - unfold maskString at 1. rewrite maskString_length.
    replace (4 <? Nat.max 4 (String.length v))%nat with true
      by (symmetry; apply Nat.ltb_lt; lia).
    rewrite (maskString_last_four v Hlong).
    unfold maskString. replace (4 <? String.length v)%nat with true
      by (symmetry; apply Nat.ltb_lt; exact Hlong).
    replace (Nat.max 4 (String.length v) - 4)%nat with (String.length v - 4)%nat by lia.
    reflexivity.
  - assert (Hm : maskString v = "****").
    { unfold maskString. replace (4 <? String.length v)%nat with false
        by (symmetry; apply Nat.ltb_ge; exact Hshort).
      reflexivity. }
    rewrite Hm. reflexivity.
Qed.

Lemma objSet_same (m : list (string * JSValue)) (k : string) :
  truthy (objGet m k) = true -> objSet m k (objGet m k) = m.
Proof.
  induction m as [|[k' v'] rest IH]; [discriminate|]. cbn [objGet objSet].
  destruct (String.eqb k' k); [reflexivity|]. intros Ht. rewrite (IH Ht). reflexivity.
Qed.

(** A second masking pass over fields that hold masks changes nothing. *)
Lemma maskFields_fixed (fields : list string) (m : list (string * JSValue)) :
  (forall f, In f fields -> truthy (objGet m f) = true -> masked (objGet m f) = objGet m f) ->
  fold_left maskField fields m = m.
Proof.
  induction fields as [|g rest IH]; intros Hfix; [reflexivity|].
  cbn [fold_left].
  assert (Hg : maskField m g = m).
  { unfold maskField. destruct (truthy (objGet m g)) eqn:Ht; [|reflexivity].
    rewrite (Hfix g (or_introl eq_refl) Ht). apply objSet_same, Ht. }
  rewrite Hg. apply IH. intros f Hin. apply Hfix. right. exact Hin.
Qed.

Lemma maskFields_idempotent (fields : list string) (m : list (string * JSValue)) :
  NoDup fields ->
  fold_left maskField fields (fold_left maskField fields m)
  = fold_left maskField fields m.
Proof.
  intros Hnodup. apply maskFields_fixed. intros f Hin.
  rewrite (objGet_maskFields fields Hnodup m f).
  replace (existsb (String.eqb f) fields) with true
    by (symmetry; apply existsb_exists; exists f; split;
        [exact Hin|apply String.eqb_refl]).
  cbn [andb]. destruct (truthy (objGet m f)) eqn:Ht; [|congruence].
  intros _. unfold masked. cbn [toStringJS]. rewrite maskString_fixed. reflexivity.
Qed.

Lemma utilsSensitiveFields_NoDup : NoDup utilsSensitiveFields.
Proof.
  unfold utilsSensitiveFields.
  repeat (apply NoDup_cons; split;
          [intros Hin; repeat (apply elem_of_cons in Hin as [Hin|Hin]; [discriminate|]);
           apply elem_of_nil in Hin; exact Hin|]).
  apply NoDup_nil. exact I.
Qed.

(** X29. The mask of a text is as long as the text, and never shorter than
    four characters; it is made from nothing but the length of the text
    and its last four characters; and masking is idempotent, on a text and
    on a payload, for the handler's field list and for the list of
    [maskSensitiveData] in the utilities. *)
Theorem masking_is_idempotent (v w : string) (payload : list (string * JSValue)) :
  String.length (maskString v) = Nat.max 4 (String.length v)
  /\ maskString (maskString v) = maskString v
  /\ (String.length w = String.length v -> sliceLast 4 w = sliceLast 4 v ->
      maskString w = maskString v)
  /\ maskSensitiveData (maskSensitiveData payload) = maskSensitiveData payload
  /\ utilsMaskSensitiveData (utilsMaskSensitiveData payload)
     = utilsMaskSensitiveData payload.
Proof.
  split; [apply maskString_length|]. split; [apply maskString_fixed|].
  split; [intros Hlen Hlast; unfold maskString; rewrite Hlen, Hlast; reflexivity|].
  split.
  - apply maskFields_idempotent, sensitiveFields_NoDup.
  - apply maskFields_idempotent, utilsSensitiveFields_NoDup.
Qed.

Lemma text_app_assoc (a b c : string) : ((a ++ b) ++ c = a ++ (b ++ c))%string.
Proof.
  induction a as [|x a IH]; [reflexivity|].
  change (String x ((a ++ b) ++ c) = String x (a ++ (b ++ c))). rewrite IH. reflexivity.
Qed.

Lemma prefix_app (a b : string) : String.prefix a (a ++ b) = true.
Proof.
  induction a as [|x a IH]; [destruct b; reflexivity|].
  change (String.prefix (String x a) (String x (a ++ b)) = true).
  cbn [String.prefix]. destruct (ascii_dec x x); [exact IH|congruence].
Qed.

Section Handler.

Variable nodeApiProp : JsError -> string -> JSValue.
Variable JSON_parse : string -> option JSValue.

Abbreviation handle := (Errors.handle nodeApiProp JSON_parse).
Abbreviation generateUserFriendlyMessage := (Errors.generateUserFriendlyMessage nodeApiProp).
Abbreviation errProp := (Errors.errProp nodeApiProp).

Lemma failed_prefix (operation rest : string) :
  startsWith (failed operation rest) ("Operation '" ++ operation ++ "' failed: ") = true.
Proof.
  unfold startsWith, failed.
  replace ("Operation '" ++ operation ++ "' failed: " ++ rest)%string
    with (("Operation '" ++ operation ++ "' failed: ") ++ rest)%string
    by (rewrite <- !text_app_assoc; reflexivity).
  apply prefix_app.
Qed.

(** X30. Every message the handler makes begins with
    [Operation '<operation>' failed: ]. For an error whose [httpCode] is one
    of 400, 401, 404, 500, 502 and 503 the surfaced message is made from the
    operation and the code alone: two errors with the same code, whatever
    else they and their contexts hold, surface the same message. *)
Theorem status_message_ignores_the_error (code : Z) (e1 e2 : JsError)
  (c1 c2 : ErrorContext) (t1 t2 : string) :
  In code [400; 401; 404; 500; 502; 503]%Z ->
  errProp e1 "httpCode" = JNum code ->
  errProp e2 "httpCode" = JNum code ->
  ctx_operation c1 = ctx_operation c2 ->
  errMessage (handle t1 e1 c1) = errMessage (handle t2 e2 c2)
  /\ startsWith (errMessage (handle t1 e1 c1))
       ("Operation '" ++ ctx_operation c1 ++ "' failed: ") = true.
Proof.
  intros Hcode H1 H2 Hop. unfold Errors.handle. cbn [errMessage].
  rewrite H1, H2, Hop.
  assert (Htruthy : orElse (JNum code) (prop (errProp e1 "response") "status") = JNum code
                    /\ orElse (JNum code) (prop (errProp e2 "response") "status") = JNum code).
  { unfold orElse. cbn [truthy].
    repeat (destruct Hcode as [<-|Hcode]; [split; reflexivity|]). contradiction. }
  destruct Htruthy as [-> ->].
  unfold Errors.generateUserFriendlyMessage, validationMessage.
  repeat (destruct Hcode as [<-|Hcode];
          [cbn [strictEqNum Z.eqb Pos.eqb]; split; [reflexivity|apply failed_prefix]|]).
  contradiction.
Qed.

End Handler.

Lemma status_message_ignores_the_error_witness :
  errMessage (Errors.handle noProps noParse "T+0" (httpError 503)
                (contextOf "sendSMS" (Some secretPayload)))
  = errMessage (Errors.handle noProps noParse "T+9"
                  (ErrorObj "abc123xyz leaked" [("httpCode", JNum 503)])
                  (contextOf "sendSMS" None)).
Proof.
  apply (status_message_ignores_the_error noProps noParse 503 (httpError 503)
           (ErrorObj "abc123xyz leaked" [("httpCode", JNum 503)])
           (contextOf "sendSMS" (Some secretPayload)) (contextOf "sendSMS" None)
           "T+0" "T+9").
  - cbn. tauto.
  - reflexivity.
  - reflexivity.
  - reflexivity.
Defined.

End MaskProps.
